(** * Request admission gate: [validateRequest] and [checkAdminRequest]

    A shallow embedding of [src/validateRequest.js].  The two exported
    functions are [async] functions; they are embedded as trees of the
    primitive calls they make ([Async]), with every [await] an explicit
    suspension point, and given a semantics over a store that holds the
    ban list and a log of the calls made.  A call of an [async] function
    that is not awaited runs the callee up to its first [await] and hands
    back a promise; the rest of the callee is interleaved with the caller
    by a schedule. *)

From Stdlib Require Import ZArith String Ascii List Bool Lia.
From Stdlib Require Import SpecFloat.
From stdpp Require Import base option gmap strings pretty.

Local Open Scope Z_scope.

(** ** JavaScript values that the code handles *)

(** Numbers.  [parseInt], [String.prototype.length] and [Math.ceil] yield
    whole numbers or [NaN]/[Infinity]; [Int n] is the double with value
    [n], which is exact for every [n] of magnitude up to 2^53.  Beyond
    that a double is the whole number nearest to [n]; the comparisons
    below are on [n] itself, which decides them as the doubles do as long
    as one side is within 2^53 (a body length and a configured maximum
    are). *)
Inductive JsNumber : Type :=
| NaN
| Infinity (negative : bool)
| Int (n : Z).

(** The values a function of this module returns or tests for truth. *)
Inductive Value : Type :=
| VUndefined
| VBool (b : bool)
| VPromise.

(** ToBoolean. *)
Definition truthy (v : Value) : bool :=
  match v with
  | VUndefined => false
  | VBool b => b
  | VPromise => true
  end.

Definition truthy_number (n : JsNumber) : bool :=
  match n with
  | NaN => false
  | Infinity _ => true
  | Int n => negb (n =? 0)
  end.

(** A header value is a string or [undefined]; the empty string is falsy. *)
Definition truthy_string (s : option string) : bool :=
  match s with
  | None => false
  | Some s => negb (String.eqb s "")
  end.

(** [a > b] on numbers; a comparison with [NaN] is false. *)
Definition js_gt (a b : JsNumber) : bool :=
  match a, b with
  | NaN, _ | _, NaN => false
  | Infinity true, _ => false
  | Infinity false, Infinity false => false
  | Infinity false, _ => true
  | Int _, Infinity neg => neg
  | Int a, Int b => b <? a
  end.

(** [a + b] on numbers. *)
Definition js_add (a b : JsNumber) : JsNumber :=
  match a, b with
  | NaN, _ | _, NaN => NaN
  | Infinity s, Infinity s' => if Bool.eqb s s' then Infinity s else NaN
  | Infinity s, Int _ | Int _, Infinity s => Infinity s
  | Int a, Int b => Int (a + b)
  end.

(** [`${n}`]: decimal digits for whole numbers (as JavaScript prints them
    below 10^21). *)
Definition number_to_string (n : JsNumber) : string :=
  match n with
  | NaN => "NaN"
  | Infinity false => "Infinity"
  | Infinity true => "-Infinity"
  | Int n => pretty n
  end.

(** *** [parseInt(string)] with no radix *)

(** White space among the characters a header value can hold: TAB to CR,
    the space and the no-break space. *)
Definition is_js_whitespace (c : ascii) : bool :=
  let n := nat_of_ascii c in
  ((9 <=? n) && (n <=? 13))%nat || (n =? 32)%nat || (n =? 160)%nat.

Fixpoint trim_start (s : string) : string :=
  match s with
  | String c s' => if is_js_whitespace c then trim_start s' else s
  | EmptyString => s
  end.

Definition digit_value (c : ascii) : option Z :=
  let n := Z.of_nat (nat_of_ascii c) in
  if (48 <=? n) && (n <=? 57) then Some (n - 48)
  else if (97 <=? n) && (n <=? 122) then Some (n - 87)
  else if (65 <=? n) && (n <=? 90) then Some (n - 55)
  else None.

(** Value of the longest prefix of [s] made of digits of the radix;
    [acc] is [None] until a digit has been read. *)
Fixpoint parse_digits (radix : Z) (s : string) (acc : option Z) : option Z :=
  match s with
  | EmptyString => acc
  | String c s' =>
      match digit_value c with
      | Some d =>
          if d <? radix
          then parse_digits radix s' (Some (radix * default 0 acc + d))
          else acc
      | None => acc
      end
  end.

Definition strip_sign (s : string) : bool * string :=
  match s with
  | String "-" s' => (true, s')
  | String "+" s' => (false, s')
  | _ => (false, s)
  end.

Definition strip_hex_prefix (s : string) : Z * string :=
  match s with
  | String "0" (String "x" s') => (16, s')
  | String "0" (String "X" s') => (16, s')
  | _ => (10, s)
  end.

(** [parseInt(x)] for [x] a header value: leading white space, a sign, a
    [0x] prefix, then the longest run of digits; [NaN] when there is none.
    [undefined] is first turned into the string "undefined". *)
Definition parseInt (input : option string) : JsNumber :=
  let s := trim_start (default "undefined" input) in
  let '(negative, s) := strip_sign s in
  let '(radix, s) := strip_hex_prefix s in
  match parse_digits radix s None with
  | None => NaN
  | Some n => Int (if negative then - n else n)
  end.

(** ** Requests, endpoints, responses *)

Record Request : Type := mkRequest {
  method : string;
  pathname : string;
  (** header names are lower case, as the HTTP server delivers them *)
  headers : gmap string string;
  (** what [text(request, { encoding: 'utf8' })] resolves to; each
      character stands for one UTF-16 code unit, which is what [.length]
      counts *)
  rawBody : string;
  (** [request.connection.remoteAddress] *)
  remoteAddress : string
}.

(** The response object; what is written to it is recorded in the log. *)
Definition Response : Type := unit.

Definition Handler : Type := string.

Record EndpointTable : Type := mkEndpoints {
  (** [endpoints[method][pathname]] *)
  routes : gmap string (gmap string Handler);
  MAX_CONTENT_LENGTH : Z
}.

(** The object handed to [send]. *)
Record Payload : Type := mkPayload {
  success : bool;
  error : string
}.

Definition dq : string := String (ascii_of_nat 34) EmptyString.

Definition acceptedContentTypes : list string :=
  ["application/json"; "application/json; charset=utf-8"].

Definition not_found : Payload :=
  {| success := false; error := "Not found" |}.

Definition content_length_error (maxContentLength : Z) (contentLength : JsNumber) : Payload :=
  {| success := false;
     error := "Content length should be less than " +:+ pretty maxContentLength
              +:+ " (but is " +:+ number_to_string contentLength +:+ ")" |}.

Definition content_type_error : Payload :=
  {| success := false;
     error := "Header " +:+ dq +:+ "Content-Type" +:+ dq +:+ " should be one of " +:+ dq
              +:+ String.concat (dq +:+ ", " +:+ dq) acceptedContentTypes +:+ dq |}.

Definition missing_headers_error : Payload :=
  {| success := false;
     error := "Header should contain " +:+ dq +:+ "X-Public-Key" +:+ dq +:+ " and "
              +:+ dq +:+ "X-Signature" +:+ dq |}.

Definition signature_error : Payload :=
  {| success := false;
     error := "Header " +:+ dq +:+ "X-Signature" +:+ dq
              +:+ " does not verify (public key, BASE64(SIGN(SHA256(content))))" |}.

Definition public_key_error : Payload :=
  {| success := false;
     error := "Header " +:+ dq +:+ "X-Public-Key" +:+ dq
              +:+ " should be the compressed public key (264 bites) base64 encoded" |}.

Definition banned_error : Payload :=
  {| success := false; error := "Banned" |}.

Definition control_key_error : Payload :=
  {| success := false;
     error := "Header " +:+ dq +:+ "X-Public-Key" +:+ dq +:+ " should be the control key" |}.

(** ** The ECDSA library

    [ecdsa-secp256r1] is a dependency, not code of this module: its three
    entry points are an interface.  [None] stands for a thrown exception
    (a rejected promise for [hashAndVerify]). *)
Class ECDSA : Type := {
  Key : Type;
  (** [ECDSA.fromCompressedPublicKey(base64)] *)
  fromCompressedPublicKey : string -> option Key;
  (** [key.hashAndVerify(message, signature)] *)
  hashAndVerify : Key -> string -> string -> option bool;
  (** [key.toCompressedPublicKey()], a base64 string *)
  toCompressedPublicKey : Key -> string
}.

(** ** Doubles: [Math.random() * 30] and [Math.ceil]

    A double is a [spec_float] of the binary64 format. *)

Definition prec : Z := 53.
Definition emax : Z := 1024.

(** The double denoted by a whole-number literal. *)
Definition double_of_Z (n : Z) : spec_float := binary_normalize prec emax n 0 false.

(** [a * b] on doubles, rounded to nearest, ties to even. *)
Definition js_mul (a b : spec_float) : spec_float := SFmul prec emax a b.

(** [Math.ceil(x)]: the least whole number not below [x]. *)
Definition Math_ceil (x : spec_float) : JsNumber :=
  match x with
  | S754_nan => NaN
  | S754_infinity s => Infinity s
  | S754_zero _ => Int 0
  | S754_finite s m e =>
      let v := if s then Z.neg m else Z.pos m in
      Int (if 0 <=? e then v * 2 ^ e else - ((- v) / 2 ^ (- e)))
  end.

(** What [Math.random()] may return: a double [0 <= r < 1] of positive
    sign. *)
Definition is_random_draw (r : spec_float) : bool :=
  valid_binary prec emax r
  && SFleb (S754_zero false) r
  && SFltb r (double_of_Z 1)
  && match r with S754_zero s | S754_finite s _ _ => negb s | _ => false end.

(** ** Asynchronous functions as trees of calls

    [Async T A] is an [async] function body that returns an [A] and may
    call, without awaiting them, async functions given as [T].  Each
    constructor but the first two is one primitive call followed by the
    rest of the body; [Await] marks the point where an [await] suspends
    the function, the awaited operation taking effect when the function
    is resumed. *)
Section Programs.
Context `{ECDSA}.

Inductive Async (T A : Type) : Type :=
| Ret (a : A)
| Throw
(** [request.headers[name]] *)
| Header (request : Request) (name : string) (k : option string -> Async T A)
(** [send(response, status, payload)]; yields what [send] returns *)
| Send (response : Response) (status : Z) (payload : Payload) (k : Value -> Async T A)
(** [text(request, { encoding: 'utf8' })] *)
| Text (request : Request) (k : string -> Async T A)
(** [isBanned(ip)] *)
| IsBanned (ip : string) (k : bool -> Async T A)
(** [getPublicControlKey()] *)
| GetPublicControlKey (k : Key -> Async T A)
(** [ban(ip, seconds)] *)
| Ban (ip : string) (seconds : JsNumber) (k : Async T A)
(** [Math.random()] *)
| MathRandom (k : spec_float -> Async T A)
| Await (k : Async T A)
(** [f(...)] for [f] async, not awaited; yields the promise *)
| Call (f : T) (k : Value -> Async T A).

Arguments Ret {T A} a.
Arguments Throw {T A}.
Arguments Header {T A} request name k.
Arguments Send {T A} response status payload k.
Arguments Text {T A} request k.
Arguments IsBanned {T A} ip k.
Arguments GetPublicControlKey {T A} k.
Arguments Ban {T A} ip seconds k.
Arguments MathRandom {T A} k.
Arguments Await {T A} k.
Arguments Call {T A} f k.

Fixpoint bind {T A B} (m : Async T A) (f : A -> Async T B) : Async T B :=
  match m with
  | Ret a => f a
  | Throw => Throw
  | Header request name k => Header request name (fun v => bind (k v) f)
  | Send response status payload k => Send response status payload (fun v => bind (k v) f)
  | Text request k => Text request (fun v => bind (k v) f)
  | IsBanned ip k => IsBanned ip (fun v => bind (k v) f)
  | GetPublicControlKey k => GetPublicControlKey (fun v => bind (k v) f)
  | Ban ip seconds k => Ban ip seconds (bind k f)
  | MathRandom k => MathRandom (fun v => bind (k v) f)
  | Await k => Await (bind k f)
  | Call g k => Call g (fun v => bind (k v) f)
  end.

(** [try { body } catch (error) { handler }] *)
Fixpoint try_catch {T A} (body : Async T A) (handler : Async T A) : Async T A :=
  match body with
  | Ret a => Ret a
  | Throw => handler
  | Header request name k => Header request name (fun v => try_catch (k v) handler)
  | Send response status payload k =>
      Send response status payload (fun v => try_catch (k v) handler)
  | Text request k => Text request (fun v => try_catch (k v) handler)
  | IsBanned ip k => IsBanned ip (fun v => try_catch (k v) handler)
  | GetPublicControlKey k => GetPublicControlKey (fun v => try_catch (k v) handler)
  | Ban ip seconds k => Ban ip seconds (try_catch k handler)
  | MathRandom k => MathRandom (fun v => try_catch (k v) handler)
  | Await k => Await (try_catch k handler)
  | Call g k => Call g (fun v => try_catch (k v) handler)
  end.

(** The primitive calls as one-step programs. *)
Definition header {T} (request : Request) (name : string) : Async T (option string) :=
  Header request name Ret.
Definition send {T} (response : Response) (status : Z) (payload : Payload) : Async T Value :=
  Send response status payload Ret.
Definition await_text {T} (request : Request) : Async T string :=
  Await (Text request Ret).
Definition await_isBanned {T} (ip : string) : Async T bool :=
  Await (IsBanned ip Ret).
Definition await_getPublicControlKey {T} : Async T Key :=
  Await (GetPublicControlKey Ret).
Definition await_ban {T} (ip : string) (seconds : JsNumber) : Async T unit :=
  Await (Ban ip seconds (Ret tt)).
Definition Math_random {T} : Async T spec_float :=
  MathRandom Ret.
(** A library call that throws, or an awaited promise that is rejected. *)
Definition or_throw {T A} (r : option A) : Async T A :=
  match r with
  | Some a => Ret a
  | None => Throw
  end.
Definition await_hashAndVerify {T} (key : Key) (message signature : string) : Async T bool :=
  Await (or_throw (hashAndVerify key message signature)).

End Programs.

Arguments Ret {_ T A} a.
Arguments Throw {_ T A}.
Arguments Header {_ T A} request name k.
Arguments Send {_ T A} response status payload k.
Arguments Text {_ T A} request k.
Arguments IsBanned {_ T A} ip k.
Arguments GetPublicControlKey {_ T A} k.
Arguments Ban {_ T A} ip seconds k.
Arguments MathRandom {_ T A} k.
Arguments Await {_ T A} k.
Arguments Call {_ T A} f k.

Global Instance async_ret `{ECDSA} {T} : MRet (Async T) := fun A a => Ret a.
Global Instance async_bind `{ECDSA} {T} : MBind (Async T) := fun A B f m => bind m f.

(** ** The source, function by function *)
Section Source.
Context `{ECDSA}.

Definition lookup_endpoint (endpoints : EndpointTable) (m p : string) : option Handler :=
  routes endpoints !! m ≫= (.!! p).

(** [async function validateRequest (request, response, endpoints)].
    The body of the [try] block yields [Some v] when it returns [v] from
    the function and [None] when control falls out of the block. *)
Definition validateRequest {T} (request : Request) (response : Response)
    (endpoints : EndpointTable) : Async T Value :=
  if negb (bool_decide (is_Some (routes endpoints !! method request)))
     || negb (bool_decide (is_Some (lookup_endpoint endpoints (method request) (pathname request))))
  then send response 404 not_found
  else if String.eqb (method request) "POST" then
    let maxContentLength := MAX_CONTENT_LENGTH endpoints in
    h ← header request "content-length";
    let contentLength := parseInt h in
    rawBody ← await_text request;
    if negb (truthy_number contentLength)
       || js_gt contentLength (Int maxContentLength)
       || js_gt (Int (Z.of_nat (String.length rawBody))) contentLength
    then send response 413 (content_length_error maxContentLength contentLength)
    else
      contentType ← header request "content-type";
      if negb (bool_decide (contentType ∈ (Some <$> acceptedContentTypes)))
      then send response 400 content_type_error
      else
        publicKey ← header request "x-public-key";
        signature ← header request "x-signature";
        if negb (truthy_string publicKey) || negb (truthy_string signature)
        then send response 401 missing_headers_error
        else
          returned ← try_catch
            (key ← or_throw (fromCompressedPublicKey (default "" publicKey));
             verified ← await_hashAndVerify key rawBody (default "" signature);
             if negb verified
             then v ← send response 401 signature_error; mret (Some v)
             else mret None)
            (v ← send response 401 public_key_error; mret (Some v));
          match returned with
          | Some v => mret v
          | None => mret (VBool true)
          end
  else mret (VBool true).

(** [function getIp (request)] *)
Definition getIp {T} (request : Request) : Async T string :=
  realIp ← header request "x-real-ip";
  if truthy_string realIp then mret (default "" realIp)
  else
    forwardedFor ← header request "x-forwarded-for";
    if truthy_string forwardedFor then mret (default "" forwardedFor)
    else mret (remoteAddress request).

Definition MINUTE : Z := 60.

(** [5 * MINUTE + Math.ceil(random * 30)] *)
Definition ban_seconds (random : spec_float) : JsNumber :=
  js_add (Int (5 * MINUTE)) (Math_ceil (js_mul random (double_of_Z 30))).

(** [async function checkAdminRequest (request, response, endpoints)].
    The call of [validateRequest] is not awaited. *)
Definition checkAdminRequest (request : Request) (response : Response)
    (endpoints : EndpointTable) : Async (Async Empty_set Value) Value :=
  Call (validateRequest request response endpoints) (fun valid =>
  if truthy valid then
    if String.eqb (method request) "POST" then
      ip ← getIp request;
      banned ← await_isBanned ip;
      if (banned : bool) then send response 401 banned_error
      else
        key ← await_getPublicControlKey;
        let controlKey := toCompressedPublicKey key in
        publicKey ← header request "x-public-key";
        if negb (bool_decide (Some controlKey = publicKey)) then
          random ← Math_random;
          await_ban ip (ban_seconds random);;
          send response 401 control_key_error
        else mret (VBool true)
    else mret (VBool true)
  else mret VUndefined).

End Source.

(** ** Semantics *)

(** What the log records: each primitive call, tagged with the function
    activation that made it. *)
Inductive Event : Type :=
| EvHeader (name : string)
| EvSend (status : Z) (payload : Payload)
| EvText
| EvIsBanned (ip : string)
| EvGetPublicControlKey
| EvBan (ip : string) (seconds : JsNumber)
| EvMathRandom.

(** The ban list, address to expiry, and the log.  Activation 0 is the
    function that was run; activation [S i] is the [i]-th function it
    called without awaiting. *)
Record Store : Type := mkStore {
  log : list (nat * Event);
  bans : gmap string Z
}.

(** Modelled from the spec: [isBanned] of [./service/ban], which is not
    among the sources.  True iff a record exists for the address and its
    expiry is still in the future. *)
Definition isBanned (now : Z) (b : gmap string Z) (ip : string) : bool :=
  match b !! ip with
  | Some expiresAt => now <? expiresAt
  | None => false
  end.

(** Modelled from the spec: [ban] of [./service/ban], which is not among
    the sources.  Sets or replaces the expiry of the address to
    [now + durationSeconds].  The spec gives durations as whole seconds;
    for any other number the list is left as it is. *)
Definition ban (now : Z) (b : gmap string Z) (ip : string) (seconds : JsNumber)
    : gmap string Z :=
  match seconds with
  | Int d => <[ip := now + d]> b
  | _ => b
  end.

Inductive Outcome (A : Type) : Type :=
| Returned (a : A)
| Thrown.
Arguments Returned {A} a.
Arguments Thrown {A}.

Section Semantics.
Context `{ECDSA}.

(** What a run does not change: the clock, the control key on record and
    the double that [Math.random()] returns. *)
Record Env : Type := mkEnv {
  now : Z;
  controlKey : Key;
  random : spec_float
}.

(** Modelled from the spec: [getPublicControlKey] of [./model/keys], which
    is not among the sources.  An accessor returning the current control
    key. *)
Definition getPublicControlKey (env : Env) : Key := controlKey env.

Variable env : Env.

Definition record (who : nat) (e : Event) (s : Store) : Store :=
  {| log := log s ++ [(who, e)]; bans := bans s |}.

Definition set_bans (b : gmap string Z) (s : Store) : Store :=
  {| log := log s; bans := b |}.

Section Activation.
Context {T : Type}.
(** [start who f s]: what calling [f] does before it hands back its
    promise, and what is left of [f] to run. *)
Variable start : nat -> T -> Store -> T * Store.
Variable who : nat.

(** Run up to the next [await], or to the end.  Functions called on the
    way are started and parked.  In a run the body read resolves, to
    [rawBody request], and [send] returns: a read that is rejected is a
    tree that throws after [Text] (see [validateRequest_reading]), and
    what [send] does on a response that is sent already is left out. *)
Fixpoint run_sync {A} (t : Async T A) (s : Store) (parked : list T)
    : Async T A * Store * list T :=
  match t with
  | Ret _ | Throw | Await _ => (t, s, parked)
  | Header request name k =>
      run_sync (k (headers request !! name)) (record who (EvHeader name) s) parked
  | Send _ status payload k =>
      run_sync (k VUndefined) (record who (EvSend status payload) s) parked
  | Text request k =>
      run_sync (k (rawBody request)) (record who EvText s) parked
  | IsBanned ip k =>
      run_sync (k (isBanned (now env) (bans s) ip)) (record who (EvIsBanned ip) s) parked
  | GetPublicControlKey k =>
      run_sync (k (getPublicControlKey env)) (record who EvGetPublicControlKey s) parked
  | Ban ip seconds k =>
      run_sync k (record who (EvBan ip seconds)
                    (set_bans (ban (now env) (bans s) ip seconds) s)) parked
  | MathRandom k =>
      run_sync (k (random env)) (record who EvMathRandom s) parked
  | Call f k =>
      let '(f', s') := start (S (length parked)) f s in
      run_sync (k VPromise) s' (parked ++ [f'])
  end.

(** Resume a function suspended at an [await]. *)
Definition resume {A} (t : Async T A) (s : Store) (parked : list T)
    : Async T A * Store * list T :=
  match t with
  | Await k => run_sync k s parked
  | _ => (t, s, parked)
  end.

(** Run to the end, resuming at once at every [await]. *)
Fixpoint finish {A} (t : Async T A) (s : Store) (parked : list T)
    : Outcome A * Store * list T :=
  match t with
  | Ret a => (Returned a, s, parked)
  | Throw => (Thrown, s, parked)
  | Await k => finish k s parked
  | Header request name k =>
      finish (k (headers request !! name)) (record who (EvHeader name) s) parked
  | Send _ status payload k =>
      finish (k VUndefined) (record who (EvSend status payload) s) parked
  | Text request k =>
      finish (k (rawBody request)) (record who EvText s) parked
  | IsBanned ip k =>
      finish (k (isBanned (now env) (bans s) ip)) (record who (EvIsBanned ip) s) parked
  | GetPublicControlKey k =>
      finish (k (getPublicControlKey env)) (record who EvGetPublicControlKey s) parked
  | Ban ip seconds k =>
      finish k (record who (EvBan ip seconds)
                  (set_bans (ban (now env) (bans s) ip seconds) s)) parked
  | MathRandom k =>
      finish (k (random env)) (record who EvMathRandom s) parked
  | Call f k =>
      let '(f', s') := start (S (length parked)) f s in
      finish (k VPromise) s' (parked ++ [f'])
  end.

End Activation.

(** A function that calls no other: [validateRequest]. *)
Definition Task : Type := Async Empty_set Value.

Definition no_start (who : nat) (f : Empty_set) (s : Store) : Empty_set * Store :=
  match f with end.

Definition start_task (who : nat) (f : Task) (s : Store) : Task * Store :=
  let '(f', s', _) := run_sync no_start who f s [] in (f', s').

(** [await f(...)], or the call of [f] by a caller that awaits it: [f]
    runs from start to end. *)
Definition run_awaited {A} (t : Async Empty_set A) (s : Store) : Outcome A * Store :=
  let '(r, s', _) := finish no_start 0 t s [] in (r, s').

(** A schedule names, at each turn of the event loop, the activation that
    is resumed. *)
Fixpoint schedule (sched : list nat) (main : Async Task Value) (s : Store)
    (parked : list Task) : Async Task Value * Store * list Task :=
  match sched with
  | [] => (main, s, parked)
  | O :: sched' =>
      let '(main', s', parked') := resume start_task 0 main s parked in
      schedule sched' main' s' parked'
  | S i :: sched' =>
      match parked !! i with
      | Some f =>
          let '(f', s', _) := resume no_start (S i) f s [] in
          schedule sched' main s' (<[i := f']> parked)
      | None => schedule sched' main s parked
      end
  end.

Fixpoint finish_parked (i : nat) (parked : list Task) (s : Store) : Store :=
  match parked with
  | [] => s
  | f :: rest =>
      let '(_, s', _) := finish no_start (S i) f s [] in
      finish_parked (S i) rest s'
  end.

(** Run [main] under a schedule: its synchronous start, the turns the
    schedule names, then whatever is left, the function that was run
    first.  Yields what [main] returns and the final store. *)
Definition run (sched : list nat) (main : Async Task Value) (s : Store)
    : Outcome Value * Store :=
  let '(m1, s1, p1) := run_sync start_task 0 main s [] in
  let '(m2, s2, p2) := schedule sched m1 s1 p1 in
  let '(r, s3, p3) := finish start_task 0 m2 s2 p2 in
  (r, finish_parked 0 p3 s3).

(** The first activation run on its own: every function it calls runs up
    to its first [await] and is left there. *)
Definition run_alone (main : Async Task Value) (s : Store) : Outcome Value * Store :=
  let '(r, s', _) := finish start_task 0 main s [] in (r, s').

End Semantics.

(** ** Views of the store *)

(** The calls one activation made, in order. *)
Definition events_of (who : nat) (l : list (nat * Event)) : list Event :=
  (filter (λ x, x.1 = who) l).*2.

(** The store after activation [who] has made the calls [es]. *)
Definition extend (who : nat) (es : list Event) (s : Store) : Store :=
  {| log := log s ++ ((who,.) <$> es); bans := bans s |}.

(** What was logged between [s] and a later store [s']. *)
Definition new_events (s s' : Store) : list (nat * Event) :=
  drop (length (log s)) (log s').

(** The statuses of the responses among some calls. *)
Definition sends (es : list Event) : list Z :=
  omap (λ e, match e with EvSend status _ => Some status | _ => None end) es.

(** The statuses of the responses among logged calls, whoever sent them. *)
Definition statuses (l : list (nat * Event)) : list Z := sends l.*2.

(** A tree in which neither [ban] nor [isBanned] is ever called. *)
Fixpoint ban_blind `{ECDSA} {T A} (t : Async T A) : Prop :=
  match t with
  | Ret _ | Throw => True
  | Ban _ _ _ | IsBanned _ _ => False
  | Await k => ban_blind k
  | Header _ _ k => ∀ v, ban_blind (k v)
  | Send _ _ _ k => ∀ v, ban_blind (k v)
  | Text _ k => ∀ v, ban_blind (k v)
  | GetPublicControlKey k => ∀ v, ban_blind (k v)
  | MathRandom k => ∀ v, ban_blind (k v)
  | Call _ k => ∀ v, ban_blind (k v)
  end.

(** A tree that calls, without awaiting them, only functions that never
    call [ban] or [isBanned]. *)
Fixpoint calls_ban_blind `{ECDSA} {A} (t : Async (Async Empty_set Value) A) : Prop :=
  match t with
  | Ret _ | Throw => True
  | Ban _ _ k | Await k => calls_ban_blind k
  | Header _ _ k => ∀ v, calls_ban_blind (k v)
  | Send _ _ _ k => ∀ v, calls_ban_blind (k v)
  | Text _ k => ∀ v, calls_ban_blind (k v)
  | IsBanned _ k => ∀ v, calls_ban_blind (k v)
  | GetPublicControlKey k => ∀ v, calls_ban_blind (k v)
  | MathRandom k => ∀ v, calls_ban_blind (k v)
  | Call f k => ban_blind f ∧ ∀ v, calls_ban_blind (k v)
  end.

(** A tree that calls no function without awaiting it. *)
Fixpoint call_free `{ECDSA} {T A} (t : Async T A) : Prop :=
  match t with
  | Ret _ | Throw => True
  | Call _ _ => False
  | Ban _ _ k | Await k => call_free k
  | Header _ _ k => ∀ v, call_free (k v)
  | Send _ _ _ k => ∀ v, call_free (k v)
  | Text _ k => ∀ v, call_free (k v)
  | IsBanned _ k => ∀ v, call_free (k v)
  | GetPublicControlKey k => ∀ v, call_free (k v)
  | MathRandom k => ∀ v, call_free (k v)
  end.

(** The calls that a tree makes from here to its end, when it asks
    nothing of the ban list: they do not depend on the store. *)
Fixpoint trace `{ECDSA} (env : Env) {T A} (t : Async T A) : list Event :=
  match t with
  | Ret _ | Throw | Ban _ _ _ | IsBanned _ _ | Call _ _ => []
  | Await k => trace env k
  | Header request name k => EvHeader name :: trace env (k (headers request !! name))
  | Send _ status payload k => EvSend status payload :: trace env (k VUndefined)
  | Text request k => EvText :: trace env (k (rawBody request))
  | GetPublicControlKey k =>
      EvGetPublicControlKey :: trace env (k (getPublicControlKey env))
  | MathRandom k => EvMathRandom :: trace env (k (random env))
  end.

(** What the [i]-th called function has still to log. *)
Definition pending `{ECDSA} (env : Env) (p : list (Async Empty_set Value)) (i : nat)
    : list Event :=
  from_option (trace env) [] (p !! i).

(** Two stores that the function that was run cannot tell apart: the same
    ban list, the same calls of its own. *)
Definition same_view (s1 s2 : Store) : Prop :=
  bans s1 = bans s2 ∧ events_of 0 (log s1) = events_of 0 (log s2).


(** ** Closed forms

    What each function returns and the calls it makes, written out by
    cases; each is proved below to agree with the tree it describes. *)

Section ClosedForms.
Context `{ECDSA}.

(** The test of line 17. *)
Definition too_large (request : Request) (endpoints : EndpointTable) : bool :=
  let contentLength := parseInt (headers request !! "content-length") in
  negb (truthy_number contentLength)
  || js_gt contentLength (Int (MAX_CONTENT_LENGTH endpoints))
  || js_gt (Int (Z.of_nat (String.length (rawBody request)))) contentLength.

Definition validate_summary (request : Request) (endpoints : EndpointTable)
    : Value * list Event :=
  match lookup_endpoint endpoints (method request) (pathname request) with
  | None => (VUndefined, [EvSend 404 not_found])
  | Some _ =>
    if negb (String.eqb (method request) "POST") then (VBool true, [])
    else
      let read1 := [EvHeader "content-length"; EvText] in
      if too_large request endpoints then
        (VUndefined,
         read1 ++ [EvSend 413 (content_length_error (MAX_CONTENT_LENGTH endpoints)
                                 (parseInt (headers request !! "content-length")))])
      else
        let read2 := read1 ++ [EvHeader "content-type"] in
        if negb (bool_decide (headers request !! "content-type" ∈ Some <$> acceptedContentTypes))
        then (VUndefined, read2 ++ [EvSend 400 content_type_error])
        else
          let read3 := read2 ++ [EvHeader "x-public-key"; EvHeader "x-signature"] in
          let publicKey := headers request !! "x-public-key" in
          let signature := headers request !! "x-signature" in
          if negb (truthy_string publicKey) || negb (truthy_string signature)
          then (VUndefined, read3 ++ [EvSend 401 missing_headers_error])
          else
            match fromCompressedPublicKey (default "" publicKey) with
            | None => (VUndefined, read3 ++ [EvSend 401 public_key_error])
            | Some key =>
                match hashAndVerify key (rawBody request) (default "" signature) with
                | None => (VUndefined, read3 ++ [EvSend 401 public_key_error])
                | Some false => (VUndefined, read3 ++ [EvSend 401 signature_error])
                | Some true => (VBool true, read3)
                end
            end
  end.

(** The calls [validateRequest] makes before its first [await]. *)
Definition validate_start_summary (request : Request) (endpoints : EndpointTable)
    : list Event :=
  match lookup_endpoint endpoints (method request) (pathname request) with
  | None => [EvSend 404 not_found]
  | Some _ =>
      if String.eqb (method request) "POST" then [EvHeader "content-length"] else []
  end.

Definition getIp_summary (request : Request) : string * list Event :=
  let realIp := headers request !! "x-real-ip" in
  if truthy_string realIp then (default "" realIp, [EvHeader "x-real-ip"])
  else
    let forwardedFor := headers request !! "x-forwarded-for" in
    if truthy_string forwardedFor
    then (default "" forwardedFor, [EvHeader "x-real-ip"; EvHeader "x-forwarded-for"])
    else (remoteAddress request, [EvHeader "x-real-ip"; EvHeader "x-forwarded-for"]).

(** The address that [getIp] resolves. *)
Definition resolved_ip (request : Request) : string := (getIp_summary request).1.

(** What [checkAdminRequest] returns, the calls it makes itself, and the
    ban list it leaves, from the ban list it finds. *)
Definition admin_summary (env : Env) (request : Request) (b : gmap string Z)
    : Value * list Event * gmap string Z :=
  if negb (String.eqb (method request) "POST") then (VBool true, [], b)
  else
    let '(ip, reads) := getIp_summary request in
    if isBanned (now env) b ip
    then (VUndefined, reads ++ [EvIsBanned ip; EvSend 401 banned_error], b)
    else
      let seen := reads ++ [EvIsBanned ip; EvGetPublicControlKey; EvHeader "x-public-key"] in
      if negb (bool_decide (Some (toCompressedPublicKey (controlKey env))
                            = headers request !! "x-public-key"))
      then (VUndefined,
            seen ++ [EvMathRandom; EvBan ip (ban_seconds (random env));
                     EvSend 401 control_key_error],
            ban (now env) b ip (ban_seconds (random env)))
      else (VBool true, seen, b).

End ClosedForms.

(** ** Base64 and a stand-in for the ECDSA library, for concrete runs *)

(** The value of a base64 digit, in the standard and in the URL-safe
    alphabet: the runtime's decoder, which the library applies to
    [X-Public-Key], accepts both. *)
Definition base64_digit (c : ascii) : option N :=
  let n := N_of_ascii c in
  (if (65 <=? n) && (n <=? 90) then Some (n - 65)
   else if (97 <=? n) && (n <=? 122) then Some (n - 71)
   else if (48 <=? n) && (n <=? 57) then Some (n + 4)
   else if (n =? 43) || (n =? 45) then Some 62
   else if (n =? 47) || (n =? 95) then Some 63
   else None)%N.

(** [acc] holds the [bits] bits read and not yet put out.  Decoding ends
    at the first [=]; characters of neither alphabet are passed over, as
    white space is. *)
Fixpoint base64_decode_from (s : string) (acc bits : N) : list N :=
  match s with
  | EmptyString => []
  | String c s' =>
      if Ascii.eqb c "=" then []
      else
        match base64_digit c with
        | None => base64_decode_from s' acc bits
        | Some d =>
            let acc' := (acc * 64 + d)%N in
            if (bits <? 2)%N then base64_decode_from s' acc' (bits + 6)%N
            else
              let left := (bits - 2)%N in
              (acc' / 2 ^ left)%N :: base64_decode_from s' (acc' mod 2 ^ left)%N left
        end
  end.

(** [Buffer.from(s, 'base64')], as a list of bytes. *)
Definition base64_decode (s : string) : list N := base64_decode_from s 0 0.

Definition base64_char (d : N) : ascii :=
  (if d <? 26 then ascii_of_N (d + 65)
   else if d <? 52 then ascii_of_N (d + 71)
   else if d <? 62 then ascii_of_N (d - 4)
   else if d =? 62 then "+"%char else "/"%char)%N.

(** [buffer.toString('base64')] *)
Fixpoint base64_encode (bytes : list N) : string :=
  match bytes with
  | [] => ""
  | [a] =>
      String (base64_char (a / 4)) (String (base64_char (a mod 4 * 16)) "==")
  | [a; b] =>
      String (base64_char (a / 4))
        (String (base64_char (a mod 4 * 16 + b / 16))
           (String (base64_char (b mod 16 * 4)) "="))
  | a :: b :: c :: rest =>
      String (base64_char (a / 4))
        (String (base64_char (a mod 4 * 16 + b / 16))
           (String (base64_char (b mod 16 * 4 + c / 64))
              (String (base64_char (c mod 64)) (base64_encode rest))))
  end%N.

Module Demo.

(** A key is its compressed encoding.  Parsing checks the length and the
    parity prefix, not that the point is on the curve; a signature
    "verifies" when it spells out key and message, and "!" is one that
    the verifier cannot read. *)
Definition sign (key : list N) (message : string) : string :=
  base64_encode key +:+ ":" +:+ message.

#[export] Instance ecdsa : ECDSA := {|
  Key := list N;
  fromCompressedPublicKey s :=
    let bytes := base64_decode s in
    if (length bytes =? 33)%nat
       && match bytes with b :: _ => (b =? 2)%N || (b =? 3)%N | [] => false end
    then Some bytes else None;
  hashAndVerify key message signature :=
    if String.eqb signature "!" then None
    else Some (String.eqb signature (sign key message));
  toCompressedPublicKey := base64_encode
|}.

(** The compressed encoding of the base point of P-256. *)
Definition base_point : list N :=
  [3; 107; 23; 209; 242; 225; 44; 66; 71; 248; 188; 230; 229; 99; 164; 64; 242;
   119; 3; 125; 129; 45; 235; 51; 160; 244; 161; 57; 69; 216; 152; 194; 150]%N.

(** Twice the base point. *)
Definition other_point : list N :=
  [3; 124; 242; 123; 24; 141; 3; 79; 126; 138; 82; 56; 3; 4; 181; 26; 195;
   192; 137; 105; 226; 119; 242; 27; 53; 166; 11; 72; 252; 71; 102; 153; 120]%N.

Definition one_half : spec_float := S754_finite false 4503599627370496 (-53).

Definition env : Env :=
  {| now := 1000; controlKey := base_point; random := one_half |}.

Definition endpoints : EndpointTable :=
  {| routes := {[ "GET" := {[ "/status" := "status" ]};
                  "POST" := {[ "/admin/mint" := "mint" ]} ]};
     MAX_CONTENT_LENGTH := 100 |}.

Definition empty_store : Store := {| log := []; bans := ∅ |}.

Definition body : string := "{}".

(** A well-formed admin request signed with the key [key]. *)
Definition signed_post (path : string) (key : list N) : Request :=
  {| method := "POST"; pathname := path;
     headers := {[ "content-length" := "2";
                   "content-type" := "application/json";
                   "x-public-key" := base64_encode key;
                   "x-signature" := sign key body;
                   "x-real-ip" := "10.0.0.7" ]};
     rawBody := body; remoteAddress := "192.0.2.1" |}.

(** The base64 text of [base_point] with [-] where the standard alphabet
    has [+]. *)
Definition url_safe_base_point : string :=
  "A2sX0fLhLEJH-Lzm5WOkQPJ3A32BLeszoPShOUXYmMKW".

(** An admin request signed with the control key, the key spelled so. *)
Definition url_safe_post : Request :=
  {| method := "POST"; pathname := "/admin/mint";
     headers := {[ "content-length" := "2";
                   "content-type" := "application/json";
                   "x-public-key" := url_safe_base_point;
                   "x-signature" := sign base_point body;
                   "x-real-ip" := "10.0.0.7" ]};
     rawBody := body; remoteAddress := "192.0.2.1" |}.

(** An empty body, declared as such. *)
Definition empty_post : Request :=
  {| method := "POST"; pathname := "/admin/mint";
     headers := {[ "content-length" := "0";
                   "content-type" := "application/json" ]};
     rawBody := ""; remoteAddress := "192.0.2.1" |}.

Definition banned_store : Store :=
  {| log := []; bans := {[ "10.0.0.7" := 2000 ]} |}.

(** [Math.random()] returns 0. *)
Definition env_zero_draw : Env :=
  {| now := 1000; controlKey := base_point; random := S754_zero false |}.

Definition get_request (path : string) : Request :=
  {| method := "GET"; pathname := path; headers := ∅;
     rawBody := ""; remoteAddress := "192.0.2.1" |}.

End Demo.


(** ** Responses with their bodies, and requests that differ in one header *)

(** The responses among logged calls, status and body, whoever sent
    them. *)
Definition responses (l : list (nat * Event)) : list (Z * Payload) :=
  omap (λ x, match x.2 with
             | EvSend status payload => Some (status, payload)
             | _ => None
             end) l.

(** The calls that [validateRequest] makes: it reads headers and the
    body, and responds. *)
Definition is_validation_call (e : Event) : bool :=
  match e with
  | EvHeader _ | EvText | EvSend _ _ => true
  | _ => false
  end.

(** [request] with the header [name] set to [value]. *)
Definition set_header (name value : string) (request : Request) : Request :=
  {| method := method request; pathname := pathname request;
     headers := <[name := value]> (headers request);
     rawBody := rawBody request; remoteAddress := remoteAddress request |}.

(** The same surroundings at another time. *)
Definition at_time `{ECDSA} (t : Z) (env : Env) : Env :=
  {| now := t; controlKey := controlKey env; random := random env |}.

(** A double [r] in [0, 1) with [Math.ceil(r * 30) = j], for [j] from 0
    to 30: 0 for 0, else the multiple of 2^-20 next below
    [(j - 1/2) / 30]. *)
Definition draw_for (j : Z) : spec_float :=
  if j =? 0 then S754_zero false
  else binary_normalize prec emax ((2 * j - 1) * 2 ^ 18 / 15) (-20) false.

(** ** The body read may be rejected

    [text] is a function of micro, a dependency.  The promise it returns
    is rejected, for one, when the bytes that arrive are not as many as
    the [Content-Length] header declares.  [validateRequest] awaits it on
    line 16, which is outside the [try] of lines 40 to 54, so that a
    rejection is thrown to the caller of [validateRequest].

    In [validateRequest] above the read resolves, to [rawBody request].
    [validateRequest_reading] is the same function with the outcome of
    the read given: it resolves to [rawBody request], or it is
    rejected. *)
Section BodyRead.
Context `{ECDSA}.

(** [await text(request, { encoding: 'utf8' })] *)
Definition await_text_or_reject {T} (resolves : bool) (request : Request)
    : Async T string :=
  Await (Text request (fun rawBody => if resolves then Ret rawBody else Throw)).

(** [async function validateRequest (request, response, endpoints)] *)
Definition validateRequest_reading {T} (resolves : bool) (request : Request)
    (response : Response) (endpoints : EndpointTable) : Async T Value :=
  if negb (bool_decide (is_Some (routes endpoints !! method request)))
     || negb (bool_decide (is_Some (lookup_endpoint endpoints (method request) (pathname request))))
  then send response 404 not_found
  else if String.eqb (method request) "POST" then
    let maxContentLength := MAX_CONTENT_LENGTH endpoints in
    h ← header request "content-length";
    let contentLength := parseInt h in
    rawBody ← await_text_or_reject resolves request;
    if negb (truthy_number contentLength)
       || js_gt contentLength (Int maxContentLength)
       || js_gt (Int (Z.of_nat (String.length rawBody))) contentLength
    then send response 413 (content_length_error maxContentLength contentLength)
    else
      contentType ← header request "content-type";
      if negb (bool_decide (contentType ∈ (Some <$> acceptedContentTypes)))
      then send response 400 content_type_error
      else
        publicKey ← header request "x-public-key";
        signature ← header request "x-signature";
        if negb (truthy_string publicKey) || negb (truthy_string signature)
        then send response 401 missing_headers_error
        else
          returned ← try_catch
            (key ← or_throw (fromCompressedPublicKey (default "" publicKey));
             verified ← await_hashAndVerify key rawBody (default "" signature);
             if negb verified
             then v ← send response 401 signature_error; mret (Some v)
             else mret None)
            (v ← send response 401 public_key_error; mret (Some v));
          match returned with
          | Some v => mret v
          | None => mret (VBool true)
          end
  else mret (VBool true).

(** What [validateRequest_reading] returns or throws, and the calls it
    makes. *)
Definition validate_reading_summary (resolves : bool) (request : Request)
    (endpoints : EndpointTable) : Outcome Value * list Event :=
  if resolves
  then (Returned (validate_summary request endpoints).1,
        (validate_summary request endpoints).2)
  else
    match lookup_endpoint endpoints (method request) (pathname request) with
    | None => (Returned VUndefined, [EvSend 404 not_found])
    | Some _ =>
        if String.eqb (method request) "POST"
        then (Thrown, [EvHeader "content-length"; EvText])
        else (Returned (VBool true), [])
    end.

End BodyRead.

(** ** A stand-in for the library that takes uncompressed keys too *)

(** The compressed encoding of a point: 33 bytes, the first 2 or 3. *)
Definition is_compressed_encoding (bytes : list N) : bool :=
  (length bytes =? 33)%nat
  && match bytes with b :: _ => (b =? 2)%N || (b =? 3)%N | [] => false end.

Module Uncompressed.

(** From the uncompressed encoding of a point (65 bytes: 4, then x, then
    y) to its compressed one (2 or 3 by the parity of y, then x). *)
Definition compress (bytes : list N) : list N :=
  (2 + List.last bytes 0 mod 2)%N :: take 32 (tail bytes).

(** As [Demo.ecdsa], but parsing takes a point in either encoding, as the
    library does: it hands the decoded bytes to the runtime's
    elliptic-curve key conversion, which reads both. *)
Definition ecdsa : ECDSA := {|
  Key := list N;
  fromCompressedPublicKey s :=
    let bytes := base64_decode s in
    if is_compressed_encoding bytes then Some bytes
    else if (length bytes =? 65)%nat
            && match bytes with b :: _ => (b =? 4)%N | [] => false end
    then Some (compress bytes) else None;
  hashAndVerify key message signature :=
    if String.eqb signature "!" then None
    else Some (String.eqb signature (Demo.sign key message));
  toCompressedPublicKey := base64_encode
|}.

(** The uncompressed encoding of the base point of P-256. *)
Definition base_point : list N :=
  [4; 107; 23; 209; 242; 225; 44; 66; 71; 248; 188; 230; 229; 99; 164; 64; 242;
   119; 3; 125; 129; 45; 235; 51; 160; 244; 161; 57; 69; 216; 152; 194; 150;
   79; 227; 66; 226; 254; 26; 127; 155; 142; 231; 235; 74; 124; 15; 158; 22;
   43; 206; 51; 87; 107; 49; 94; 206; 203; 182; 64; 104; 55; 191; 81; 245]%N.

Definition env : @Env ecdsa :=
  @mkEnv ecdsa 1000 Demo.base_point Demo.one_half.

(** A request signed with the base point, the key sent uncompressed. *)
Definition post : Request :=
  {| method := "POST"; pathname := "/admin/mint";
     headers := {[ "content-length" := "2";
                   "content-type" := "application/json";
                   "x-public-key" := base64_encode base_point;
                   "x-signature" := Demo.sign Demo.base_point Demo.body;
                   "x-real-ip" := "10.0.0.7" ]};
     rawBody := Demo.body; remoteAddress := "192.0.2.1" |}.

End Uncompressed.

(** ** Requests for the concrete runs of the length check *)

(** The endpoints of [Demo.endpoints] with a maximum of one. *)
Definition tight_endpoints : EndpointTable :=
  {| routes := routes Demo.endpoints; MAX_CONTENT_LENGTH := 1 |}.

(** A signed request that declares five where two arrive: micro's [text]
    rejects its read. *)
Definition short_post : Request :=
  set_header "content-length" "5" (Demo.signed_post "/admin/mint" Demo.base_point).

(** A signed request that declares 200 where two arrive. *)
Definition overdeclared_post : Request :=
  set_header "content-length" "200" (Demo.signed_post "/admin/mint" Demo.base_point).
(** ** Properties of the semantics *)

Lemma events_of_app who l1 l2 :
  events_of who (l1 ++ l2) = events_of who l1 ++ events_of who l2.
Proof. unfold events_of. by rewrite filter_app, fmap_app. Qed.

Lemma events_of_record who who' e s :
  events_of who (log (record who' e s)) =
  events_of who (log s) ++ (if decide (who' = who) then [e] else []).
Proof.
  unfold record; simpl. rewrite events_of_app. f_equal.
  unfold events_of. rewrite filter_cons, filter_nil. simpl.
  by destruct (decide (who' = who)).
Qed.

Lemma extend_nil who s : extend who [] s = s.
Proof. destruct s. unfold extend; simpl. by rewrite app_nil_r. Qed.

Lemma extend_cons who e es s : extend who (e :: es) s = extend who es (record who e s).
Proof. unfold extend, record; simpl. by rewrite <- app_assoc. Qed.

Lemma extend_app who es1 es2 s :
  extend who (es1 ++ es2) s = extend who es2 (extend who es1 s).
Proof. unfold extend; simpl. by rewrite fmap_app, app_assoc. Qed.

Lemma new_events_extend who es s : new_events s (extend who es s) = (who,.) <$> es.
Proof. unfold new_events, extend; simpl. by rewrite drop_app_length. Qed.

Lemma events_of_tagged who who' (es : list Event) :
  events_of who ((who',.) <$> es) = if decide (who' = who) then es else [].
Proof.
  unfold events_of. induction es as [|e es IH]; simpl.
  - by destruct (decide _).
  - rewrite filter_cons; simpl. destruct (decide (who' = who)); simpl; [by f_equal|done].
Qed.

Lemma events_of_extend who who' es s :
  events_of who (log (extend who' es s)) =
  events_of who (log s) ++ (if decide (who' = who) then es else []).
Proof. unfold extend; simpl. by rewrite events_of_app, events_of_tagged. Qed.

Lemma same_view_refl s : same_view s s.
Proof. by split. Qed.

Lemma same_view_sym s1 s2 : same_view s1 s2 → same_view s2 s1.
Proof. unfold same_view. intuition congruence. Qed.

Lemma same_view_trans s1 s2 s3 : same_view s1 s2 → same_view s2 s3 → same_view s1 s3.
Proof. unfold same_view. intuition congruence. Qed.

Lemma same_view_record_other who e s : who ≠ 0%nat → same_view s (record who e s).
Proof.
  intros Hw. split; [done|]. rewrite events_of_record.
  destruct (decide (who = 0%nat)); [done|]. by rewrite app_nil_r.
Qed.

Lemma same_view_record e s1 s2 :
  same_view s1 s2 → same_view (record 0 e s1) (record 0 e s2).
Proof.
  intros [Hb He]. split; [done|]. rewrite !events_of_record. by rewrite He.
Qed.

Section SemanticsFacts.
Context `{ECDSA}.
Variable env : Env.

(** Finishing what [run_sync] left is finishing the whole. *)
Lemma finish_run_sync {T A} start who (t : Async T A) :
  ∀ s parked,
    let '(t', s', parked') := run_sync env start who t s parked in
    finish env start who t' s' parked' = finish env start who t s parked.
Proof.
  induction t as [a| |rq n k IH|rs st pl k IH|rq k IH|ip k IH|k IH|ip sec k IH|k IH|k IH|f k IH];
    intros s parked; simpl; try done; try apply IH.
  destruct (start _ f s) as [f' s']. apply IH.
Qed.

Lemma finish_resume {T A} start who (t : Async T A) s parked :
  let '(t', s', parked') := resume env start who t s parked in
  finish env start who t' s' parked' = finish env start who t s parked.
Proof.
  destruct t; simpl; try done. apply finish_run_sync.
Qed.

(** A function that asks nothing of the ban list logs its trace, whatever
    the store, and changes nothing else; at an [await] it has logged the
    part of its trace up to there. *)
Lemma run_sync_trace who (t : Task) :
  ban_blind t →
  ∀ s,
    let '(t', s', parked') := run_sync env no_start who t s [] in
    ∃ pre, s' = extend who pre s ∧ trace env t = pre ++ trace env t'
           ∧ ban_blind t' ∧ parked' = [].
Proof.
  induction t as [a| |rq n k IH|rs st pl k IH|rq k IH|ip k IH|k IH|ip sec k IH|k IH|k IH|f k IH];
    simpl; intros Hbf s; try done;
    try (exists []; by rewrite extend_nil);
    try (match goal with
         | |- context [run_sync _ _ _ (k ?v) (record _ ?e _) _] =>
             specialize (IH v (Hbf v) (record who e s));
             destruct (run_sync env no_start who (k v) (record who e s) [])
               as [[t' s''] p'];
             destruct IH as (pre & -> & Ht & ? & ?); exists (e :: pre);
             by rewrite extend_cons, Ht
         end).
Qed.

Lemma resume_trace who (t : Task) s :
  ban_blind t →
  let '(t', s', parked') := resume env no_start who t s [] in
  ∃ pre, s' = extend who pre s ∧ trace env t = pre ++ trace env t'
         ∧ ban_blind t' ∧ parked' = [].
Proof.
  intros Hbf. destruct t; simpl; try (exists []; by rewrite extend_nil).
  by apply run_sync_trace.
Qed.

Lemma finish_trace who (t : Task) :
  ban_blind t →
  ∀ s, ∃ r, finish env no_start who t s [] = (r, extend who (trace env t) s, []).
Proof.
  induction t as [a| |rq n k IH|rs st pl k IH|rq k IH|ip k IH|k IH|ip sec k IH|k IH|k IH|f k IH];
    simpl; intros Hbf s; try done;
    try (eexists; by rewrite extend_nil);
    try (match goal with
         | |- context [finish _ _ _ (k ?v) (record _ ?e _) _] =>
             destruct (IH v (Hbf v) (record who e s)) as [r ->]; exists r;
             by rewrite extend_cons
         end).
  by apply IH.
Qed.

Lemma same_view_extend who es s : who ≠ 0%nat → same_view s (extend who es s).
Proof.
  intros Hw. split; [done|]. rewrite events_of_extend.
  destruct (decide (who = 0%nat)); [done|]. by rewrite app_nil_r.
Qed.

(** So, run as another activation than the first, it leaves the view of
    the first as it is. *)
Lemma run_sync_ban_blind who (t : Task) :
  who ≠ 0%nat → ban_blind t →
  ∀ s,
    let '(t', s', parked') := run_sync env no_start who t s [] in
    same_view s s' ∧ ban_blind t' ∧ parked' = [].
Proof.
  intros Hw Hbf s. pose proof (run_sync_trace who t Hbf s) as Hr.
  destruct (run_sync env no_start who t s []) as [[t' s'] p'].
  destruct Hr as (pre & -> & _ & ? & ?). split; [|done]. by apply same_view_extend.
Qed.

Lemma resume_ban_blind who (t : Task) s :
  who ≠ 0%nat → ban_blind t →
  let '(t', s', parked') := resume env no_start who t s [] in
  same_view s s' ∧ ban_blind t' ∧ parked' = [].
Proof.
  intros Hw Hbf. pose proof (resume_trace who t s Hbf) as Hr.
  destruct (resume env no_start who t s []) as [[t' s'] p'].
  destruct Hr as (pre & -> & _ & ? & ?). split; [|done]. by apply same_view_extend.
Qed.

Lemma finish_ban_blind who (t : Task) :
  who ≠ 0%nat → ban_blind t →
  ∀ s, let '(r, s', parked') := finish env no_start who t s [] in same_view s s'.
Proof.
  intros Hw Hbf s. destruct (finish_trace who t Hbf s) as [r ->].
  by apply same_view_extend.
Qed.

Lemma start_task_ban_blind who (f : Task) s :
  who ≠ 0%nat → ban_blind f →
  let '(f', s') := start_task env who f s in same_view s s' ∧ ban_blind f'.
Proof.
  intros Hw Hbf. unfold start_task.
  pose proof (run_sync_ban_blind who f Hw Hbf s) as Hr.
  destruct (run_sync env no_start who f s []) as [[f' s'] p']. tauto.
Qed.

(** What the first activation does depends on the store through its view
    only. *)
Lemma finish_same_view {A} (t : Async Task A) :
  calls_ban_blind t →
  ∀ s1 s2 (p1 p2 : list Task), same_view s1 s2 →
    let '(r1, s1', _) := finish env (start_task env) 0 t s1 p1 in
    let '(r2, s2', _) := finish env (start_task env) 0 t s2 p2 in
    r1 = r2 ∧ same_view s1' s2'.
Proof.
  induction t as [a| |rq n k IH|rs st pl k IH|rq k IH|ip k IH|k IH|ip sec k IH|k IH|k IH|f k IH];
    simpl; intros Hc s1 s2 p1 p2 Hv; try done;
    try (apply IH; [done|]; by apply same_view_record).
  - destruct Hv as [Hb He]. rewrite Hb.
    apply IH; [done|]. by apply same_view_record.
  - destruct Hv as [Hb He]. rewrite Hb.
    apply IH; [done|]. apply same_view_record. by split.
  - by apply IH.
  - destruct Hc as [Hf Hk].
    pose proof (start_task_ban_blind (S (length p1)) f s1 ltac:(done) Hf) as H1.
    pose proof (start_task_ban_blind (S (length p2)) f s2 ltac:(done) Hf) as H2.
    destruct (start_task env (S (length p1)) f s1) as [f1 s1'].
    destruct (start_task env (S (length p2)) f s2) as [f2 s2'].
    apply IH; [done|].
    eapply same_view_trans; [apply same_view_sym, H1|].
    eapply same_view_trans; [apply Hv|apply H2].
Qed.

Lemma run_sync_main_inv {A} (t : Async Task A) :
  calls_ban_blind t →
  ∀ s (p : list Task), Forall ban_blind p →
    let '(t', s', p') := run_sync env (start_task env) 0 t s p in
    calls_ban_blind t' ∧ Forall ban_blind p'.
Proof.
  induction t as [a| |rq n k IH|rs st pl k IH|rq k IH|ip k IH|k IH|ip sec k IH|k IH|k IH|f k IH];
    simpl; intros Hc s p Hp; try done; try (by apply IH).
  destruct Hc as [Hf Hk].
  match goal with
  | |- context [start_task env ?w f s] =>
      pose proof (start_task_ban_blind w f s ltac:(done) Hf) as H1;
      destruct (start_task env w f s) as [f1 s1]
  end.
  apply IH; [done|]. apply Forall_app. split; [done|]. constructor; [tauto|constructor].
Qed.

Lemma finish_main_inv {A} (t : Async Task A) :
  calls_ban_blind t →
  ∀ s (p : list Task), Forall ban_blind p →
    let '(r, s', p') := finish env (start_task env) 0 t s p in Forall ban_blind p'.
Proof.
  induction t as [a| |rq n k IH|rs st pl k IH|rq k IH|ip k IH|k IH|ip sec k IH|k IH|k IH|f k IH];
    simpl; intros Hc s p Hp; try done; try (by apply IH).
  destruct Hc as [Hf Hk].
  match goal with
  | |- context [start_task env ?w f s] =>
      pose proof (start_task_ban_blind w f s ltac:(done) Hf) as H1;
      destruct (start_task env w f s) as [f1 s1]
  end.
  apply IH; [done|]. apply Forall_app. split; [done|]. constructor; [tauto|constructor].
Qed.

(** Whatever the schedule, the first activation returns what it returns
    when it runs on its own, and is left with the same view. *)
Lemma schedule_finish (sched : list nat) :
  ∀ (m : Async Task Value) s (p : list Task), calls_ban_blind m → Forall ban_blind p →
    let '(m2, s2, p2) := schedule env sched m s p in
    let '(r, s3, p3) := finish env (start_task env) 0 m2 s2 p2 in
    let '(r0, s0, _) := finish env (start_task env) 0 m s p in
    r = r0 ∧ same_view s3 s0 ∧ Forall ban_blind p3.
Proof.
  induction sched as [|[|i] sched IH]; intros m s p Hc Hp; simpl.
  - pose proof (finish_main_inv m Hc s p Hp) as Hi.
    destruct (finish env (start_task env) 0 m s p) as [[r s'] p'].
    split; [done|]. split; [apply same_view_refl|done].
  - pose proof (finish_resume (start_task env) 0 m s p) as Hr.
    assert (let '(m', s', p') := resume env (start_task env) 0 m s p in
            calls_ban_blind m' ∧ Forall ban_blind p') as Hi.
    { destruct m; simpl; try done. by apply run_sync_main_inv. }
    destruct (resume env (start_task env) 0 m s p) as [[m' s'] p'].
    destruct Hi as [Hc' Hp']. specialize (IH m' s' p' Hc' Hp').
    by rewrite Hr in IH.
  - destruct (_ !! i) as [f|] eqn:Hf; [|by apply IH].
    assert (ban_blind f) as Hbf.
    { eapply Forall_lookup_1; [apply Hp|apply Hf]. }
    pose proof (resume_ban_blind (S i) f s ltac:(done) Hbf) as Hr.
    destruct (resume env no_start (S i) f s []) as [[f' s'] p'].
    destruct Hr as (Hv & Hbf' & _).
    assert (Forall ban_blind (<[i:=f']> p)) as Hp' by (by apply Forall_insert).
    specialize (IH m s' _ Hc Hp').
    destruct (schedule env sched m s' (<[i:=f']> p)) as [[m2 s2] p2].
    destruct (finish env (start_task env) 0 m2 s2 p2) as [[r s3] p3].
    pose proof (finish_same_view m Hc s' s (<[i:=f']> p) p (same_view_sym _ _ Hv)) as Hs.
    destruct (finish env (start_task env) 0 m s' (<[i:=f']> p)) as [[r1 s1] p1].
    destruct (finish env (start_task env) 0 m s p) as [[r0 s0] p0].
    destruct IH as (-> & Hv3 & Hp3). destruct Hs as [-> Hv1].
    split; [done|]. split; [|done]. eapply same_view_trans; [apply Hv3|apply Hv1].
Qed.

Lemma finish_parked_view (p : list Task) :
  Forall ban_blind p → ∀ i s, same_view s (finish_parked env i p s).
Proof.
  induction 1 as [|f p Hf _ IH]; intros i s; simpl; [apply same_view_refl|].
  pose proof (finish_ban_blind (S i) f ltac:(done) Hf s) as Hv.
  destruct (finish env no_start (S i) f s []) as [[r s'] p'].
  eapply same_view_trans; [apply Hv|apply IH].
Qed.

Theorem run_view (sched : list nat) (main : Async Task Value) (s : Store) :
  calls_ban_blind main →
  (run env sched main s).1 = (run_alone env main s).1 ∧
  same_view (run env sched main s).2 (run_alone env main s).2.
Proof.
  intros Hc. unfold run, run_alone.
  pose proof (finish_run_sync (start_task env) 0 main s (@nil Task)) as H1.
  pose proof (run_sync_main_inv main Hc s (@nil Task) ltac:(constructor)) as H2.
  destruct (run_sync env (start_task env) 0 main s []) as [[m1 s1] p1].
  destruct H2 as [Hc1 Hp1].
  pose proof (schedule_finish sched m1 s1 p1 Hc1 Hp1) as H3.
  destruct (schedule env sched m1 s1 p1) as [[m2 s2] p2].
  destruct (finish env (start_task env) 0 m2 s2 p2) as [[r s3] p3].
  rewrite H1 in H3.
  destruct (finish env (start_task env) 0 main s []) as [[r0 s0] p0].
  destruct H3 as (-> & Hv & Hp3). simpl. split; [done|].
  eapply same_view_trans; [|apply Hv].
  apply same_view_sym, finish_parked_view, Hp3.
Qed.

End SemanticsFacts.

(** ** What each called function logs, under every schedule *)

Lemma events_of_record_main i e s :
  events_of (S i) (log (record 0 e s)) = events_of (S i) (log s).
Proof.
  rewrite events_of_record. destruct (decide (0%nat = S i)); [done|].
  by rewrite app_nil_r.
Qed.

Lemma events_of_new_events who s s' :
  log s `prefix_of` log s' →
  events_of who (log s') = events_of who (log s) ++ events_of who (new_events s s').
Proof.
  intros [k Hk]. unfold new_events. rewrite Hk, drop_app_length.
  apply events_of_app.
Qed.

Lemma extend_inj who es1 es2 s : extend who es1 s = extend who es2 s → es1 = es2.
Proof.
  unfold extend. intros [= Hl]. apply app_inv_head in Hl.
  revert es2 Hl. induction es1 as [|e es1 IH]; intros [|e2 es2] Hl; try done.
  simpl in Hl. injection Hl as -> Hl. f_equal. by apply IH.
Qed.

Lemma sends_cons e es :
  sends (e :: es) = match e with EvSend status _ => [status] | _ => [] end ++ sends es.
Proof. by destruct e. Qed.

Lemma sends_app es1 es2 : sends (es1 ++ es2) = sends es1 ++ sends es2.
Proof. apply omap_app. Qed.

Lemma events_of_cons who who' e l :
  events_of who ((who', e) :: l)
  = (if decide (who' = who) then [e] else []) ++ events_of who l.
Proof.
  unfold events_of. rewrite filter_cons. simpl. by destruct (decide (who' = who)).
Qed.

(** When no called function sent a response, the responses are those of
    the function that was run. *)
Lemma statuses_main l :
  (∀ i, sends (events_of (S i) l) = []) → statuses l = sends (events_of 0 l).
Proof.
  induction l as [|[w e] l IH]; intros Hl; [done|].
  assert (∀ i, sends (events_of (S i) l) = []) as Hl'.
  { intros i. specialize (Hl i). rewrite events_of_cons, sends_app in Hl.
    by apply app_eq_nil in Hl as [_ ?]. }
  change (statuses ((w, e) :: l)) with (sends (e :: l.*2)).
  rewrite sends_cons, events_of_cons, sends_app.
  change (sends l.*2) with (statuses l). rewrite (IH Hl'). f_equal.
  destruct w as [|j].
  - rewrite decide_True by done. rewrite sends_cons. by rewrite app_nil_r.
  - rewrite decide_False by done.
    specialize (Hl j). rewrite events_of_cons, sends_app in Hl.
    apply app_eq_nil in Hl as [Hl _]. rewrite decide_True in Hl by done.
    rewrite sends_cons in Hl. by rewrite app_nil_r in Hl.
Qed.

Section ActivationFacts.
Context `{ECDSA}.
Variable env : Env.

(** A function that calls no other logs only under its own name. *)
Lemma run_sync_call_free {A} (t : Async Task A) :
  call_free t →
  ∀ s (p : list Task),
    let '(t', s', p') := run_sync env (start_task env) 0 t s p in
    call_free t' ∧ p' = p ∧ ∀ i, events_of (S i) (log s') = events_of (S i) (log s).
Proof.
  induction t as [a| |rq n k IH|rs st pl k IH|rq k IH|ip k IH|k IH|ip sec k IH|k IH|k IH|f k IH];
    simpl; intros Hc s p; try done;
    try (match goal with
         | |- context [run_sync _ _ _ ?t (record _ ?e ?s0) _] =>
             first [ match t with
                     | k ?v => specialize (IH v (Hc v) (record 0 e s0) p)
                     end
                   | specialize (IH Hc (record 0 e s0) p) ];
             destruct (run_sync env (start_task env) 0 t (record 0 e s0) p)
               as [[t' s'] p'];
             destruct IH as (? & ? & He); split; [done|]; split; [done|];
             intros i; by rewrite He, events_of_record_main
         end).
Qed.

Lemma resume_call_free {A} (t : Async Task A) s (p : list Task) :
  call_free t →
  let '(t', s', p') := resume env (start_task env) 0 t s p in
  call_free t' ∧ p' = p ∧ ∀ i, events_of (S i) (log s') = events_of (S i) (log s).
Proof.
  intros Hc. destruct t; simpl; try done. by apply run_sync_call_free.
Qed.

Lemma finish_call_free {A} (t : Async Task A) :
  call_free t →
  ∀ s (p : list Task),
    let '(r, s', p') := finish env (start_task env) 0 t s p in
    p' = p ∧ ∀ i, events_of (S i) (log s') = events_of (S i) (log s).
Proof.
  induction t as [a| |rq n k IH|rs st pl k IH|rq k IH|ip k IH|k IH|ip sec k IH|k IH|k IH|f k IH];
    simpl; intros Hc s p; try done; try (by apply IH);
    try (match goal with
         | |- context [finish _ _ _ ?t (record _ ?e ?s0) _] =>
             first [ match t with
                     | k ?v => specialize (IH v (Hc v) (record 0 e s0) p)
                     end
                   | specialize (IH Hc (record 0 e s0) p) ];
             destruct (finish env (start_task env) 0 t (record 0 e s0) p)
               as [[r s'] p'];
             destruct IH as (? & He); split; [done|];
             intros i; by rewrite He, events_of_record_main
         end).
Qed.

Lemma pending_lookup (p : list Task) i f :
  p !! i = Some f → pending env p i = trace env f.
Proof. intros Hp. unfold pending, Task in *. by rewrite Hp. Qed.

Lemma pending_insert (p : list Task) j f i :
  (j < length p)%nat →
  pending env (<[j := f]> p) i = if decide (j = i) then trace env f else pending env p i.
Proof.
  intros Hj. unfold pending, Task in *. destruct (decide (j = i)) as [->|Hne].
  - by rewrite list_lookup_insert_eq.
  - by rewrite list_lookup_insert_ne.
Qed.

(** Each turn of the schedule moves a part of a trace from what is
    pending to the log. *)
Lemma schedule_events (sched : list nat) :
  ∀ (m : Async Task Value) s (p : list Task),
    call_free m → Forall ban_blind p →
    let '(m2, s2, p2) := schedule env sched m s p in
    call_free m2 ∧ Forall ban_blind p2
    ∧ ∀ i, events_of (S i) (log s2) ++ pending env p2 i
           = events_of (S i) (log s) ++ pending env p i.
Proof.
  induction sched as [|[|j] sched IH]; intros m s p Hc Hp; simpl; [done|..].
  - pose proof (resume_call_free m s p Hc) as Hr.
    destruct (resume env (start_task env) 0 m s p) as [[m' s'] p'].
    destruct Hr as (Hc' & -> & He). specialize (IH m' s' p Hc' Hp).
    destruct (schedule env sched m' s' p) as [[m2 s2] p2].
    destruct IH as (? & ? & IH). split; [done|]. split; [done|].
    intros i. by rewrite IH, He.
  - destruct (_ !! j) as [f|] eqn:Hf; [|by apply IH].
    assert (ban_blind f) as Hbf.
    { eapply Forall_lookup_1; [apply Hp|apply Hf]. }
    pose proof (resume_trace env (S j) f s Hbf) as Hr.
    destruct (resume env no_start (S j) f s []) as [[f' s'] p'].
    destruct Hr as (pre & -> & Ht & Hbf' & _).
    assert (Forall ban_blind (<[j:=f']> p)) as Hp' by (by apply Forall_insert).
    specialize (IH m (extend (S j) pre s) _ Hc Hp').
    destruct (schedule env sched m (extend (S j) pre s) (<[j:=f']> p)) as [[m2 s2] p2].
    destruct IH as (? & ? & IH). split; [done|]. split; [done|].
    intros i. rewrite IH, events_of_extend, pending_insert
      by (eapply lookup_lt_Some, Hf).
    destruct (decide (S j = S i)) as [[= ->]|Hne].
    + rewrite decide_True by done. rewrite (pending_lookup p i f Hf).
      by rewrite Ht, app_assoc.
    + rewrite decide_False by congruence. by rewrite app_nil_r.
Qed.

Lemma finish_parked_events (p : list Task) :
  Forall ban_blind p →
  ∀ j s i,
    events_of (S i) (log (finish_parked env j p s))
    = events_of (S i) (log s)
      ++ (if decide (j ≤ i)%nat then pending env p (i - j) else []).
Proof.
  induction 1 as [|f p Hf _ IH]; intros j s i; simpl.
  - unfold pending. rewrite lookup_nil. simpl. destruct (decide _); by rewrite app_nil_r.
  - destruct (finish_trace env (S j) f Hf s) as [r ->].
    rewrite IH, events_of_extend. rewrite <- app_assoc. f_equal.
    destruct (decide (S j = S i)) as [[= ->]|Hne].
    + rewrite decide_False by lia. rewrite decide_True by lia.
      rewrite Nat.sub_diag. unfold pending. simpl. by rewrite app_nil_r.
    + destruct (decide (S j ≤ i)%nat) as [Hle|Hgt].
      * rewrite decide_True by lia. unfold pending.
        replace (i - j)%nat with (S (i - S j)) by lia. done.
      * rewrite decide_False by lia. done.
Qed.

(** Under every schedule, a function that is called without being
    awaited, and asks nothing of the ban list, logs its trace, all of
    it, and nothing else is logged under another name than that of the
    caller. *)
Theorem run_events (sched : list nat) (f : Task) (k : Value → Async Task Value) s :
  ban_blind f → (∀ v, call_free (k v)) →
  ∀ i, events_of (S i) (log (run env sched (Call f k) s).2)
       = events_of (S i) (log s) ++ (if decide (i = 0%nat) then trace env f else []).
Proof.
  intros Hbf Hk i. unfold run. simpl run_sync. unfold start_task at 1.
  pose proof (run_sync_trace env 1 f Hbf s) as H0.
  destruct (run_sync env no_start 1 f s []) as [[f' s0] p0].
  destruct H0 as (pre & -> & Ht & Hbf' & _). simpl.
  match goal with
  | |- context [run_sync env (start_task env) 0 (k VPromise) ?s0 ?p] =>
      pose proof (run_sync_call_free (k VPromise) (Hk VPromise) s0 p) as H1;
      destruct (run_sync env (start_task env) 0 (k VPromise) s0 p) as [[m1 s1] p1];
      destruct H1 as (Hc1 & -> & He1);
      pose proof (schedule_events sched m1 s1 p Hc1 ltac:(by constructor)) as H2;
      destruct (schedule env sched m1 s1 p) as [[m2 s2] p2]
  end.
  destruct H2 as (Hc2 & Hp2 & He2).
  pose proof (finish_call_free m2 Hc2 s2 p2) as H3.
  destruct (finish env (start_task env) 0 m2 s2 p2) as [[r s3] p3].
  destruct H3 as (-> & He3). simpl.
  rewrite (finish_parked_events p2 Hp2 0 s3 i), decide_True by lia.
  rewrite Nat.sub_0_r, He3, He2, He1, events_of_extend. rewrite <- app_assoc. f_equal.
  unfold pending. destruct i as [|i]; simpl.
  - by rewrite Ht.
  - by destruct i.
Qed.

End ActivationFacts.

(** ** The closed forms agree with the trees *)

Section ClosedFormFacts.
Context `{ECDSA}.
Variable env : Env.

Lemma lookup_endpoint_method endpoints m p h :
  lookup_endpoint endpoints m p = Some h → is_Some (routes endpoints !! m).
Proof.
  unfold lookup_endpoint. destruct (routes endpoints !! m); [eauto|done].
Qed.

Lemma lookup_endpoint_None endpoints m p :
  lookup_endpoint endpoints m p = None ↔
  routes endpoints !! m = None ∨
  ∃ paths, routes endpoints !! m = Some paths ∧ paths !! p = None.
Proof.
  unfold lookup_endpoint. destruct (routes endpoints !! m) as [paths|]; simpl.
  - split; [eauto|]. intros [?|(paths' & ? & ?)]; [done|]. congruence.
  - split; [eauto|done].
Qed.

Ltac log_done := simpl; rewrite ?extend_cons, ?extend_nil; done.

(** [validateRequest], run from start to end. *)
Lemma validateRequest_finish {T} start who request response endpoints s (p : list T) :
  finish env start who (validateRequest request response endpoints) s p =
  (Returned (validate_summary request endpoints).1,
   extend who (validate_summary request endpoints).2 s, p).
Proof.
  unfold validateRequest, validate_summary, too_large.
  destruct (lookup_endpoint endpoints (method request) (pathname request)) as [h|] eqn:Hl.
  2:{ assert (bool_decide (is_Some (@None Handler)) = false) as -> by done.
      rewrite orb_true_r. log_done. }
  rewrite (bool_decide_eq_true_2 _ (lookup_endpoint_method _ _ _ _ Hl)).
  rewrite (bool_decide_eq_true_2 (is_Some (Some h))) by eauto.
  simpl negb at 1 2. simpl orb at 1.
  destruct (String.eqb (method request) "POST") eqn:Hm; [|log_done]. simpl.
  destruct (negb _ || _ || _) eqn:Hc; [log_done|]. simpl.
  destruct (negb (bool_decide _)) eqn:Hct; [log_done|]. simpl.
  destruct (negb _ || negb _) eqn:Hmiss; [log_done|]. simpl.
  destruct (fromCompressedPublicKey _) as [key|]; [|log_done]. simpl.
  destruct (hashAndVerify _ _ _) as [[|]|]; log_done.
Qed.

(** [validateRequest], run up to its first [await]. *)
Lemma validateRequest_start who request response endpoints s :
  (start_task env who (validateRequest request response endpoints) s).2 =
  extend who (validate_start_summary request endpoints) s.
Proof.
  unfold start_task, validateRequest, validate_start_summary.
  destruct (lookup_endpoint endpoints (method request) (pathname request)) as [h|] eqn:Hl.
  2:{ assert (bool_decide (is_Some (@None Handler)) = false) as -> by done.
      rewrite orb_true_r. log_done. }
  rewrite (bool_decide_eq_true_2 _ (lookup_endpoint_method _ _ _ _ Hl)).
  rewrite (bool_decide_eq_true_2 (is_Some (Some h))) by eauto.
  simpl negb at 1 2. simpl orb at 1.
  destruct (String.eqb (method request) "POST") eqn:Hm; log_done.
Qed.

Lemma ban_blind_bind {T A B} (m : Async T A) (f : A → Async T B) :
  ban_blind m → (∀ a, ban_blind (f a)) → ban_blind (m ≫= f).
Proof.
  intros Hm Hf. unfold mbind, async_bind.
  induction m as [a| |rq n k IH|rs st pl k IH|rq k IH|ip k IH|k IH|ip sec k IH|k IH|k IH|g k IH];
    simpl in *; try done; try (intros v; by apply IH); by apply IH.
Qed.

Lemma ban_blind_try_catch {T A} (body handler : Async T A) :
  ban_blind body → ban_blind handler → ban_blind (try_catch body handler).
Proof.
  intros Hb Hh.
  induction body as [a| |rq n k IH|rs st pl k IH|rq k IH|ip k IH|k IH|ip sec k IH|k IH|k IH|g k IH];
    simpl in *; try done; try (intros v; by apply IH); by apply IH.
Qed.

Lemma calls_ban_blind_bind {A B} (m : Async Task A) (f : A → Async Task B) :
  calls_ban_blind m → (∀ a, calls_ban_blind (f a)) → calls_ban_blind (m ≫= f).
Proof.
  intros Hm Hf. unfold mbind, async_bind.
  induction m as [a| |rq n k IH|rs st pl k IH|rq k IH|ip k IH|k IH|ip sec k IH|k IH|k IH|g k IH];
    simpl in *; try done; try (intros v; by apply IH); try (by apply IH).
  destruct Hm as [? Hk]. split; [done|]. intros v. by apply IH.
Qed.

Lemma call_free_bind {T A B} (m : Async T A) (f : A → Async T B) :
  call_free m → (∀ a, call_free (f a)) → call_free (m ≫= f).
Proof.
  intros Hm Hf. unfold mbind, async_bind.
  induction m as [a| |rq n k IH|rs st pl k IH|rq k IH|ip k IH|k IH|ip sec k IH|k IH|k IH|g k IH];
    simpl in *; try done; try (intros v; by apply IH); by apply IH.
Qed.

Lemma ban_blind_or_throw {T A} (r : option A) : ban_blind (or_throw (T:=T) r).
Proof. by destruct r. Qed.

Ltac ban_blind_step :=
  first
    [ done
    | apply ban_blind_or_throw
    | apply ban_blind_bind; [|intro]
    | apply ban_blind_try_catch
    | apply calls_ban_blind_bind; [|intro]
    | apply call_free_bind; [|intro]
    | match goal with
      | |- ban_blind (if ?c then _ else _) => destruct c
      | |- ban_blind (match ?c with _ => _ end) => destruct c
      | |- calls_ban_blind (if ?c then _ else _) => destruct c
      | |- calls_ban_blind (match ?c with _ => _ end) => destruct c
      | |- call_free (if ?c then _ else _) => destruct c
      | |- call_free (match ?c with _ => _ end) => destruct c
      end
    | progress simpl
    | intro ].

Lemma validateRequest_ban_blind {T} request response endpoints :
  ban_blind (validateRequest (T:=T) request response endpoints).
Proof. unfold validateRequest. repeat ban_blind_step. Qed.

(** [checkAdminRequest], run on its own. *)
Lemma checkAdminRequest_alone request response endpoints s :
  run_alone env (checkAdminRequest request response endpoints) s =
  let '(v, es, b) := admin_summary env request (bans s) in
  (Returned v,
   set_bans b (extend 0 es (extend 1 (validate_start_summary request endpoints) s))).
Proof.
  unfold run_alone, checkAdminRequest. simpl finish.
  pose proof (validateRequest_start 1 request response endpoints s) as Hs.
  destruct (start_task env 1 (validateRequest request response endpoints) s) as [f' s'].
  simpl in Hs. subst s'. simpl truthy. cbv iota.
  unfold admin_summary, getIp_summary.
  destruct (String.eqb (method request) "POST") eqn:Hm; simpl negb; cbv iota.
  2:{ simpl. by rewrite extend_nil. }
  set (s1 := extend 1 (validate_start_summary request endpoints) s).
  assert (bans s1 = bans s) as Hb by done.
  rewrite <- Hb. clearbody s1. clear Hb. simpl.
  destruct (truthy_string (headers request !! "x-real-ip")); simpl;
    [|destruct (truthy_string (headers request !! "x-forwarded-for")); simpl];
    (destruct (isBanned _ _ _); simpl; [|destruct (negb (bool_decide _)); simpl]);
    rewrite ?extend_cons, ?extend_nil; done.
Qed.

Lemma checkAdminRequest_calls_ban_blind request response endpoints :
  calls_ban_blind (checkAdminRequest request response endpoints).
Proof.
  unfold checkAdminRequest. simpl. split; [apply validateRequest_ban_blind|].
  intros v. unfold getIp. repeat ban_blind_step.
Qed.

(** The trace of [validateRequest] is the list of calls of its closed
    form. *)
Lemma validateRequest_trace request response endpoints :
  trace env (validateRequest (T:=Empty_set) request response endpoints)
  = (validate_summary request endpoints).2.
Proof.
  destruct (finish_trace env 0 _ (validateRequest_ban_blind request response endpoints)
              {| log := []; bans := ∅ |}) as [r Hf].
  rewrite validateRequest_finish in Hf.
  apply (f_equal (λ x, x.1.2)) in Hf. cbn [fst snd] in Hf.
  symmetry. by apply extend_inj in Hf.
Qed.

(** Under every schedule the validator that [checkAdminRequest] calls
    logs the calls of its closed form, and no third activation logs
    anything. *)
Lemma checkAdminRequest_events (sched : list nat) request response endpoints s i :
  events_of (S i) (log (run env sched (checkAdminRequest request response endpoints) s).2)
  = events_of (S i) (log s)
    ++ (if decide (i = 0%nat) then (validate_summary request endpoints).2 else []).
Proof.
  unfold checkAdminRequest. etrans; [apply run_events|].
  - apply validateRequest_ban_blind.
  - intros v. unfold getIp. repeat ban_blind_step.
  - by rewrite validateRequest_trace.
Qed.

End ClosedFormFacts.

(** ** The log only grows *)

Section LogFacts.
Context `{ECDSA}.
Variable env : Env.

Lemma record_log_prefix who e s : log s `prefix_of` log (record who e s).
Proof. by apply prefix_app_r. Qed.

Section Activation.
Context {T : Type}.
Variable start : nat → T → Store → T * Store.
Variable who : nat.
Hypothesis start_log : ∀ w f s, log s `prefix_of` log (start w f s).2.

Lemma run_sync_log {A} (t : Async T A) :
  ∀ s p, log s `prefix_of` log (run_sync env start who t s p).1.2.
Proof.
  induction t as [a| |rq n k IH|rs st pl k IH|rq k IH|ip k IH|k IH|ip sec k IH|k IH|k IH|f k IH];
    intros s p; simpl; try reflexivity; try apply IH;
    try (etrans; [|apply IH]; by apply record_log_prefix).
  { etrans; [|apply IH]. etrans; [|apply record_log_prefix]. reflexivity. }
  pose proof (start_log (S (length p)) f s) as Hs.
  destruct (start (S (length p)) f s) as [f' s']. etrans; [apply Hs|apply IH].
Qed.

Lemma resume_log {A} (t : Async T A) s p :
  log s `prefix_of` log (resume env start who t s p).1.2.
Proof. destruct t; simpl; try reflexivity. apply run_sync_log. Qed.

Lemma finish_log {A} (t : Async T A) :
  ∀ s p, log s `prefix_of` log (finish env start who t s p).1.2.
Proof.
  induction t as [a| |rq n k IH|rs st pl k IH|rq k IH|ip k IH|k IH|ip sec k IH|k IH|k IH|f k IH];
    intros s p; simpl; try reflexivity; try apply IH;
    try (etrans; [|apply IH]; by apply record_log_prefix).
  { etrans; [|apply IH]. etrans; [|apply record_log_prefix]. reflexivity. }
  pose proof (start_log (S (length p)) f s) as Hs.
  destruct (start (S (length p)) f s) as [f' s']. etrans; [apply Hs|apply IH].
Qed.

End Activation.

Lemma no_start_log w f s : log s `prefix_of` log (no_start w f s).2.
Proof. destruct f. Qed.

Lemma start_task_log w f s : log s `prefix_of` log (start_task env w f s).2.
Proof.
  unfold start_task.
  pose proof (run_sync_log no_start w no_start_log f s []) as Hl.
  by destruct (run_sync env no_start w f s []) as [[f' s'] p'].
Qed.

Lemma schedule_log (sched : list nat) :
  ∀ (m : Async Task Value) s (p : list Task),
    log s `prefix_of` log (schedule env sched m s p).1.2.
Proof.
  induction sched as [|[|i] sched IH]; intros m s p; simpl; [reflexivity|..].
  - pose proof (resume_log (start_task env) 0 start_task_log m s p) as Hl.
    destruct (resume env (start_task env) 0 m s p) as [[m' s'] p'].
    etrans; [apply Hl|apply IH].
  - destruct (_ !! i) as [f|]; [|apply IH].
    pose proof (resume_log no_start (S i) no_start_log f s []) as Hl.
    destruct (resume env no_start (S i) f s []) as [[f' s'] p'].
    etrans; [apply Hl|apply IH].
Qed.

Lemma finish_parked_log (p : list Task) :
  ∀ i s, log s `prefix_of` log (finish_parked env i p s).
Proof.
  induction p as [|f p IH]; intros i s; simpl; [reflexivity|].
  pose proof (finish_log no_start (S i) no_start_log f s []) as Hl.
  destruct (finish env no_start (S i) f s []) as [[r s'] p'].
  etrans; [apply Hl|apply IH].
Qed.

(** Whatever a called function logged before handing back its promise
    stays in the log, under every schedule. *)
Lemma run_call_log (sched : list nat) (f : Task) (k : Value → Async Task Value) s :
  log (start_task env 1 f s).2 `prefix_of` log (run env sched (Call f k) s).2.
Proof.
  unfold run. simpl run_sync.
  destruct (start_task env 1 f s) as [f' s0]. simpl.
  pose proof (run_sync_log (start_task env) 0 start_task_log (k VPromise) s0 [f']) as H1.
  destruct (run_sync env (start_task env) 0 (k VPromise) s0 [f']) as [[m1 s1] p1].
  pose proof (schedule_log sched m1 s1 p1) as H2.
  destruct (schedule env sched m1 s1 p1) as [[m2 s2] p2].
  pose proof (finish_log (start_task env) 0 start_task_log m2 s2 p2) as H3.
  destruct (finish env (start_task env) 0 m2 s2 p2) as [[r s3] p3].
  pose proof (finish_parked_log p3 0 s3) as H4. simpl in *.
  etrans; [apply H1|]. etrans; [apply H2|]. etrans; [apply H3|apply H4].
Qed.

End LogFacts.

(** ** [validateRequest_reading] and its closed form *)

Section BodyReadFacts.
Context `{ECDSA}.
Variable env : Env.

(** When the read resolves, [validateRequest_reading] is
    [validateRequest]. *)
Lemma validateRequest_reading_resolves {T} request response endpoints :
  validateRequest_reading (T:=T) true request response endpoints
  = validateRequest request response endpoints.
Proof. reflexivity. Qed.

Lemma validateRequest_reading_finish {T} start who resolves request response
    endpoints s (p : list T) :
  finish env start who (validateRequest_reading resolves request response endpoints) s p =
  ((validate_reading_summary resolves request endpoints).1,
   extend who (validate_reading_summary resolves request endpoints).2 s, p).
Proof.
  destruct resolves.
  { by rewrite validateRequest_reading_resolves, validateRequest_finish. }
  unfold validateRequest_reading, validate_reading_summary.
  destruct (lookup_endpoint endpoints (method request) (pathname request)) as [h|] eqn:Hl.
  2:{ assert (bool_decide (is_Some (@None Handler)) = false) as -> by done.
      rewrite orb_true_r. simpl. by rewrite extend_cons, extend_nil. }
  rewrite (bool_decide_eq_true_2 _ (lookup_endpoint_method _ _ _ _ Hl)).
  rewrite (bool_decide_eq_true_2 (is_Some (Some h))) by eauto.
  simpl negb at 1 2. simpl orb at 1.
  destruct (String.eqb (method request) "POST") eqn:Hm; simpl;
    rewrite ?extend_cons, ?extend_nil; done.
Qed.

Lemma run_awaited_validateRequest_reading resolves request response endpoints s :
  run_awaited env (validateRequest_reading resolves request response endpoints) s =
  ((validate_reading_summary resolves request endpoints).1,
   extend 0 (validate_reading_summary resolves request endpoints).2 s).
Proof. unfold run_awaited. by rewrite validateRequest_reading_finish. Qed.

End BodyReadFacts.

(** ** Doubles: rounding a product below 30 *)

Lemma digits2_pos_size p : digits2_pos p = Pos.size p.
Proof. induction p; simpl; congruence. Qed.

Lemma digits2_pos_gt p : Z.pos p < 2 ^ Z.pos (digits2_pos p).
Proof.
  rewrite digits2_pos_size. pose proof (Pos.size_gt p) as Hs.
  rewrite <- Pos2Z.inj_pow. lia.
Qed.

Lemma digits2_pos_le p k : 0 <= k → Z.pos p < 2 ^ k → Z.pos (digits2_pos p) <= k.
Proof.
  intros Hk Hp. rewrite digits2_pos_size.
  pose proof (Pos.size_le p) as Hs.
  assert (2 ^ Z.pos (Pos.size p) <= 2 * Z.pos p) as Hz.
  { rewrite <- Pos2Z.inj_pow. lia. }
  assert (2 ^ Z.pos (Pos.size p) < 2 ^ (k + 1)) as Hlt.
  { rewrite Z.pow_add_r by lia. lia. }
  apply Z.pow_lt_mono_r_iff in Hlt; lia.
Qed.

Lemma Zdigits2_le m k : 0 <= m → 0 <= k → m < 2 ^ k → Zdigits2 m <= k.
Proof.
  intros Hm Hk Hlt. destruct m as [|p|p]; simpl; [lia| |lia].
  by apply digits2_pos_le.
Qed.

Lemma shr_1_m mrs : 0 <= shr_m mrs → shr_m (shr_1 mrs) = shr_m mrs / 2.
Proof.
  destruct mrs as [m r s]. simpl. intros Hm.
  destruct m as [|[p|p|]|p]; simpl; try lia; try done.
  - apply Z.div_unique with (r := 1); lia.
  - apply Z.div_unique with (r := 0); lia.
Qed.

Lemma iter_pos_shr_1_m p :
  ∀ mrs, 0 <= shr_m mrs → shr_m (SpecFloat.iter_pos shr_1 p mrs) = shr_m mrs / 2 ^ Z.pos p.
Proof.
  induction p as [p IH|p IH|]; intros mrs Hm; simpl.
  - assert (0 <= shr_m (shr_1 mrs)) as H1.
    { rewrite shr_1_m by done. apply Z.div_pos; lia. }
    assert (0 <= shr_m (SpecFloat.iter_pos shr_1 p (shr_1 mrs))) as H2.
    { rewrite IH by done. apply Z.div_pos; [done|]. apply Z.pow_pos_nonneg; lia. }
    rewrite IH, IH, shr_1_m by done.
    rewrite !Z.div_div by (try apply Z.pow_pos_nonneg; lia).
    f_equal. assert (Z.pos p~1 = 1 + Z.pos p + Z.pos p) as -> by lia.
    rewrite !Z.pow_add_r, Z.pow_1_r by lia. lia.
  - assert (0 <= shr_m (SpecFloat.iter_pos shr_1 p mrs)) as H2.
    { rewrite IH by done. apply Z.div_pos; [done|]. apply Z.pow_pos_nonneg; lia. }
    rewrite IH, IH by done.
    rewrite !Z.div_div by (try apply Z.pow_pos_nonneg; lia).
    f_equal. assert (Z.pos p~0 = Z.pos p + Z.pos p) as -> by lia.
    by rewrite !Z.pow_add_r by lia.
  - rewrite shr_1_m by done. by rewrite Z.pow_1_r.
Qed.

Lemma shr_spec mrs e n :
  0 <= shr_m mrs →
  (shr mrs e n).2 = e + Z.max 0 n ∧
  shr_m (shr mrs e n).1 = shr_m mrs / 2 ^ Z.max 0 n.
Proof.
  intros Hm. destruct n as [|p|p]; simpl.
  - split; [lia|]. by rewrite Z.div_1_r.
  - split; [lia|]. rewrite iter_pos_shr_1_m by done. f_equal.
  - split; [lia|]. by rewrite Z.div_1_r.
Qed.

Lemma round_nearest_even_bounds m l :
  m <= round_nearest_even m l <= m + 1.
Proof.
  destruct l as [|[| |]]; simpl; try lia. destruct (Z.even m); lia.
Qed.

Lemma fexp_le x : x <= 5 → fexp prec emax x <= -48.
Proof. unfold fexp, emin, prec, emax. lia. Qed.

Lemma digits2_pos_lower p : 2 ^ (Z.pos (digits2_pos p) - 1) <= Z.pos p.
Proof.
  rewrite digits2_pos_size. pose proof (Pos.size_le p) as Hs.
  assert (2 ^ Z.pos (Pos.size p) <= 2 * Z.pos p) as Hz.
  { rewrite <- Pos2Z.inj_pow. lia. }
  replace (Z.pos (Pos.size p)) with (1 + (Z.pos (Pos.size p) - 1)) in Hz by lia.
  rewrite Z.pow_add_r, Z.pow_1_r in Hz by lia. lia.
Qed.

(** Shifting a positive mantissa to its canonical exponent leaves it
    positive, when it has at least [k] bits to lose above the least
    exponent. *)
Lemma shr_fexp_positive m e k :
  0 < m → 0 <= k → 2 ^ k <= m → - 1074 - k <= e →
  1 <= m / 2 ^ Z.max 0 (fexp prec emax (Zdigits2 m + e) - e).
Proof.
  intros Hm Hk Hmk He.
  set (n := Z.max 0 (fexp prec emax (Zdigits2 m + e) - e)).
  assert (0 <= n <= Z.max k (Zdigits2 m - 1)) as Hn.
  { subst n. unfold fexp, emin, prec, emax.
    destruct m as [|p|p]; [lia| |lia]. simpl. lia. }
  assert (2 ^ Z.max k (Zdigits2 m - 1) <= m) as Hmax.
  { destruct (Z.max_spec k (Zdigits2 m - 1)) as [[_ ->]|[_ ->]]; [|done].
    destruct m as [|p|p]; [lia| |lia]. apply digits2_pos_lower. }
  assert (2 ^ n <= m) as Hpow.
  { etrans; [|apply Hmax]. apply Z.pow_le_mono_r; lia. }
  apply Z.div_le_lower_bound; [apply Z.pow_pos_nonneg; lia|lia].
Qed.

(** A number from 2^48 ulps up and below 30 rounds to a positive double
    that is at most 30. *)
Lemma binary_round_aux_below_30 (M : positive) (E : Z) :
  -1122 <= E <= -48 → 2 ^ 48 <= Z.pos M < 30 * 2 ^ (- E) →
  ∃ m e,
    binary_round_aux prec emax false (Z.pos M) E loc_Exact = S754_finite false m e
    ∧ e <= -48 ∧ Z.pos m <= 30 * 2 ^ (- e).
Proof.
  intros HE [HM48 HM]. unfold binary_round_aux, shr_fexp.
  assert (∀ k, 0 <= k → 30 * 2 ^ k < 2 ^ (5 + k)) as Hpow.
  { intros k Hk. rewrite Z.pow_add_r by lia. change (2 ^ 5) with 32.
    pose proof (Z.pow_pos_nonneg 2 k ltac:(lia) Hk). lia. }
  pose proof (shr_fexp_positive (Z.pos M) E 48 ltac:(lia) ltac:(lia) HM48 ltac:(lia))
    as Hpos1.
  set (n1 := fexp prec emax (Zdigits2 (Z.pos M) + E) - E) in *.
  pose proof (shr_spec (shr_record_of_loc (Z.pos M) loc_Exact) E n1 ltac:(simpl; lia))
    as [He1 Hm1].
  destruct (shr (shr_record_of_loc (Z.pos M) loc_Exact) E n1) as [mrs1 e1].
  simpl in He1, Hm1. rewrite <- Hm1 in Hpos1.
  assert (-1074 <= e1 <= -48) as He1'.
  { assert (fexp prec emax (Zdigits2 (Z.pos M) + E) <= -48) as Hf.
    { apply fexp_le.
      assert (Zdigits2 (Z.pos M) <= 5 + - E); [|lia].
      apply Zdigits2_le; [lia|lia|]. etrans; [apply HM|]. apply Hpow. lia. }
    subst n1. unfold fexp, emin, prec, emax in *. lia. }
  assert (E <= e1) as HEe by lia.
  assert (shr_m mrs1 < 30 * 2 ^ (- e1)) as Hb1.
  { rewrite Hm1. replace (Z.max 0 n1) with (e1 - E) by lia.
    assert (0 < 2 ^ (e1 - E)) by (apply Z.pow_pos_nonneg; lia).
    apply Z.div_lt_upper_bound; [done|].
    replace (2 ^ (e1 - E) * (30 * 2 ^ (- e1))) with (30 * (2 ^ (e1 - E) * 2 ^ (- e1))) by lia.
    rewrite <- Z.pow_add_r by lia. by replace (e1 - E + - e1) with (- E) by lia. }
  pose proof (round_nearest_even_bounds (shr_m mrs1) (loc_of_shr_record mrs1)) as Hr.
  set (m2 := round_nearest_even (shr_m mrs1) (loc_of_shr_record mrs1)) in *.
  assert (1 <= m2 <= 30 * 2 ^ (- e1)) as Hb2 by lia.
  pose proof (shr_fexp_positive m2 e1 0 ltac:(lia) ltac:(lia) ltac:(simpl; lia) ltac:(lia))
    as Hpos2.
  set (n2 := fexp prec emax (Zdigits2 m2 + e1) - e1) in *.
  pose proof (shr_spec (shr_record_of_loc m2 loc_Exact) e1 n2 ltac:(simpl; lia))
    as [He2 Hm2].
  destruct (shr (shr_record_of_loc m2 loc_Exact) e1 n2) as [mrs2 e2].
  simpl in He2, Hm2. rewrite <- Hm2 in Hpos2.
  assert (e2 <= -48) as He2'.
  { assert (fexp prec emax (Zdigits2 m2 + e1) <= -48) as Hf.
    { apply fexp_le.
      assert (Zdigits2 m2 <= 5 + - e1); [|lia].
      apply Zdigits2_le; [lia|lia|].
      eapply Z.le_lt_trans; [apply Hb2|]. apply Hpow. lia. }
    subst n2. lia. }
  assert (e1 <= e2) as Hee by lia.
  assert (shr_m mrs2 <= 30 * 2 ^ (- e2)) as Hb3.
  { rewrite Hm2. replace (Z.max 0 n2) with (e2 - e1) by lia.
    assert (0 < 2 ^ (e2 - e1)) by (apply Z.pow_pos_nonneg; lia).
    apply Z.div_le_upper_bound; [done|].
    replace (2 ^ (e2 - e1) * (30 * 2 ^ (- e2))) with (30 * (2 ^ (e2 - e1) * 2 ^ (- e2))) by lia.
    rewrite <- Z.pow_add_r by lia. replace (e2 - e1 + - e2) with (- e1) by lia. lia. }
  destruct (shr_m mrs2) as [|m3|m3]; [lia| |lia].
  assert (Z.leb e2 (emax - prec) = true) as ->.
  { apply Z.leb_le. unfold emax, prec. lia. }
  exists m3, e2. split; [done|]. split; lia.
Qed.

Lemma double_of_30 : double_of_Z 30 = S754_finite false 8444249301319680 (-48).
Proof. reflexivity. Qed.

Lemma double_of_1 : double_of_Z 1 = S754_finite false 4503599627370496 (-52).
Proof. reflexivity. Qed.

Lemma SFltb_one m e :
  SFltb (S754_finite false m e) (S754_finite false 4503599627370496 (-52)) = true →
  e < -52 ∨ e = -52 ∧ Z.pos m < 4503599627370496.
Proof.
  unfold SFltb, SFcompare. rewrite Pos.compare_cont_spec. unfold Pos.switch_Eq.
  destruct (Z.compare_spec e (-52)) as [He|He|He]; [|auto|discriminate].
  destruct (Pos.compare_spec m 4503599627370496) as [?|Hcmp|?]; try discriminate.
  intros _. right. split; [exact He|]. exact Hcmp.
Qed.

Lemma bounded_canonical m e :
  bounded prec emax m e = true → Z.pos (digits2_pos m) <= 53 ∧ -1074 <= e.
Proof.
  unfold bounded, canonical_mantissa. intros Hb. apply andb_prop in Hb as [Hc _].
  apply Z.eqb_eq in Hc. unfold fexp, emin, prec, emax in Hc. lia.
Qed.

(** A draw is [+0] or a positive double below 1. *)
Lemma random_draw_cases r :
  is_random_draw r = true →
  r = S754_zero false ∨
  ∃ m e, r = S754_finite false m e ∧ -1074 <= e <= -52 ∧ Z.pos m < 2 ^ (- e).
Proof.
  unfold is_random_draw. rewrite double_of_1. intros Hr.
  apply andb_prop in Hr as [Hr Hs]. apply andb_prop in Hr as [Hr Hlt].
  apply andb_prop in Hr as [Hb _].
  destruct r as [s|s| |s m e]; try discriminate.
  - destruct s; [discriminate|]. by left.
  - destruct s; [discriminate|]. right. exists m, e. split; [reflexivity|].
    apply bounded_canonical in Hb as [Hb He]. pose proof (digits2_pos_gt m) as Hd.
    destruct (SFltb_one m e Hlt) as [He'|[-> Hm]].
    + split; [lia|]. eapply Z.lt_le_trans; [apply Hd|]. apply Z.pow_le_mono_r; lia.
    + split; [lia|]. exact Hm.
Qed.

(** [Math.ceil(Math.random() * 30)] is a whole number from 0 to 30, and
    0 only when the draw is 0. *)
Lemma ceil_random_30 r :
  is_random_draw r = true →
  ∃ j, Math_ceil (js_mul r (double_of_Z 30)) = Int j
       ∧ 0 <= j <= 30 ∧ (r ≠ S754_zero false → 1 <= j).
Proof.
  intros Hr. rewrite double_of_30.
  destruct (random_draw_cases r Hr) as [->|(m & e & -> & He & Hm)].
  { exists 0. split; [done|]. split; [lia|done]. }
  unfold js_mul, SFmul. simpl xorb.
  destruct (binary_round_aux_below_30 (m * 8444249301319680) (e + -48))
    as (m' & e' & -> & He' & Hm'); [lia| |].
  { rewrite Pos2Z.inj_mul. replace (- (e + -48)) with (- e + 48) by lia.
    rewrite Z.pow_add_r by lia. change (2 ^ 48) with 281474976710656. lia. }
  simpl. destruct (0 <=? e') eqn:Hz; [apply Z.leb_le in Hz; lia|].
  eexists. split; [done|].
  assert (0 < 2 ^ (- e')) by (apply Z.pow_pos_nonneg; lia).
  assert (- 30 <= Z.neg m' / 2 ^ (- e')).
  { apply Z.div_le_lower_bound; [done|]. lia. }
  assert (Z.neg m' / 2 ^ (- e') < 0).
  { apply Z.div_lt_upper_bound; [done|]. lia. }
  lia.
Qed.

(** ** [checkAdminRequest] under every schedule *)

Lemma statuses_app l1 l2 : statuses (l1 ++ l2) = statuses l1 ++ statuses l2.
Proof. unfold statuses. by rewrite fmap_app, sends_app. Qed.

Lemma statuses_tagged who es : statuses ((who,.) <$> es) = sends es.
Proof. unfold statuses. f_equal. rewrite <- list_fmap_compose. apply list_fmap_id. Qed.

Section AdminFacts.
Context `{ECDSA}.
Variable env : Env.

Lemma checkAdminRequest_run (sched : list nat) request response endpoints s :
  let out := run env sched (checkAdminRequest request response endpoints) s in
  let summary := admin_summary env request (bans s) in
  out.1 = Returned summary.1.1 ∧
  bans out.2 = summary.2 ∧
  events_of 0 (log out.2) = events_of 0 (log s) ++ summary.1.2 ∧
  log (extend 1 (validate_start_summary request endpoints) s) `prefix_of` log out.2.
Proof.
  intros out summary.
  pose proof (run_view env sched _ s
                (checkAdminRequest_calls_ban_blind request response endpoints))
    as [Hr [Hb He]].
  fold out in Hr, Hb, He.
  rewrite checkAdminRequest_alone in Hr, Hb, He. fold summary in Hr, Hb, He.
  destruct summary as [[v es] b]. simpl in Hr, Hb. simpl fst; simpl snd.
  split; [done|]. split; [done|]. split.
  - rewrite He. cbn [snd]. change (log (set_bans b ?x)) with (log x).
    rewrite !events_of_extend. simpl. by rewrite app_nil_r.
  - rewrite <- (validateRequest_start env 1 request response endpoints s).
    apply run_call_log.
Qed.

(** When the validator sends no response, the responses sent are those
    of [checkAdminRequest] itself. *)
Lemma checkAdminRequest_statuses (sched : list nat) request response endpoints s :
  sends (validate_summary request endpoints).2 = [] →
  statuses (new_events s
              (run env sched (checkAdminRequest request response endpoints) s).2)
  = sends (admin_summary env request (bans s)).1.2.
Proof.
  intros Hv.
  destruct (checkAdminRequest_run sched request response endpoints s)
    as (_ & _ & He & Hp).
  pose proof (checkAdminRequest_events env sched request response endpoints s) as Hi.
  set (out := run env sched (checkAdminRequest request response endpoints) s) in *.
  assert (log s `prefix_of` log out.2) as Hs.
  { etrans; [|apply Hp]. by apply prefix_app_r. }
  rewrite (events_of_new_events 0 s out.2 Hs) in He. apply app_inv_head in He.
  rewrite statuses_main; [by rewrite He|].
  intros i. specialize (Hi i).
  rewrite (events_of_new_events (S i) s out.2 Hs) in Hi. apply app_inv_head in Hi.
  rewrite Hi. by destruct (decide (i = 0%nat)).
Qed.

(** When the validator is done before it hands back its promise, its
    responses come first, then those of [checkAdminRequest]. *)
Lemma checkAdminRequest_statuses_sync (sched : list nat) request response endpoints s :
  (validate_summary request endpoints).2 = validate_start_summary request endpoints →
  statuses (new_events s
              (run env sched (checkAdminRequest request response endpoints) s).2)
  = sends (validate_summary request endpoints).2
    ++ sends (admin_summary env request (bans s)).1.2.
Proof.
  intros Hv.
  destruct (checkAdminRequest_run sched request response endpoints s)
    as (_ & _ & He & Hp).
  pose proof (checkAdminRequest_events env sched request response endpoints s) as Hi.
  set (out := run env sched (checkAdminRequest request response endpoints) s) in *.
  rewrite <- Hv in Hp. destruct Hp as [rest Hrest].
  unfold new_events. rewrite Hrest. unfold extend at 1. cbn [log].
  rewrite <- app_assoc, drop_app_length, statuses_app, statuses_tagged. f_equal.
  rewrite Hrest, events_of_app, events_of_extend in He.
  rewrite decide_False, app_nil_r in He by done. apply app_inv_head in He.
  rewrite statuses_main; [by rewrite He|].
  intros i. specialize (Hi i).
  rewrite Hrest, events_of_app, events_of_extend in Hi.
  assert (∀ l k : list Event, l ++ k = l → k = []) as Hself.
  { intros l k Hlk. apply (app_inv_head l). by rewrite app_nil_r. }
  destruct (decide (i = 0%nat)) as [->|Hne].
  - rewrite decide_True in Hi by done. apply Hself in Hi. by rewrite Hi.
  - rewrite decide_False in Hi by congruence. apply Hself in Hi. by rewrite Hi.
Qed.

End AdminFacts.

(** ** The claims *)

Section Claims.
Context `{ECDSA}.
Variable env : Env.

Lemma run_awaited_validateRequest request response endpoints s :
  run_awaited env (validateRequest request response endpoints) s =
  (Returned (validate_summary request endpoints).1,
   extend 0 (validate_summary request endpoints).2 s).
Proof. unfold run_awaited. by rewrite validateRequest_finish. Qed.

(** C8.  For every request whose method is absent from the endpoint
    table, or whose path is absent under that method, [validateRequest]
    responds 404 with the body [{success: false, error: "Not found"}],
    whatever the body and the headers of the request: that response is the
    only call it makes. *)
Theorem validateRequest_not_found request response endpoints s :
  (routes endpoints !! method request = None ∨
   ∃ paths, routes endpoints !! method request = Some paths
            ∧ paths !! pathname request = None) →
  run_awaited env (validateRequest request response endpoints) s =
  (Returned VUndefined, extend 0 [EvSend 404 not_found] s).
Proof.
  intros Habsent. apply lookup_endpoint_None in Habsent.
  rewrite run_awaited_validateRequest. unfold validate_summary. by rewrite Habsent.
Qed.

(** C9.  For every request with a method other than POST to an endpoint
    of the table, [validateRequest] returns [true] and leaves the log as
    it was: it reads neither the body nor any header. *)
Theorem validateRequest_non_post request response endpoints s handler :
  method request ≠ "POST" →
  lookup_endpoint endpoints (method request) (pathname request) = Some handler →
  run_awaited env (validateRequest request response endpoints) s =
  (Returned (VBool true), s).
Proof.
  intros Hm Hl. rewrite run_awaited_validateRequest. unfold validate_summary.
  rewrite Hl. apply String.eqb_neq in Hm. rewrite Hm. simpl. by rewrite extend_nil.
Qed.

(** C10.  For every POST request to an endpoint of the table whose
    [Content-Length] header parses to 0, [validateRequest] responds 413,
    whatever the body (the empty one too) and whatever
    [MAX_CONTENT_LENGTH]: a declared length of zero is refused as a
    missing or non-numeric header is. *)
Theorem validateRequest_zero_content_length request response endpoints s handler :
  method request = "POST" →
  lookup_endpoint endpoints (method request) (pathname request) = Some handler →
  parseInt (headers request !! "content-length") = Int 0 →
  run_awaited env (validateRequest request response endpoints) s =
  (Returned VUndefined,
   extend 0 [EvHeader "content-length"; EvText;
             EvSend 413 (content_length_error (MAX_CONTENT_LENGTH endpoints) (Int 0))] s).
Proof.
  intros Hm Hl Hz. rewrite run_awaited_validateRequest. unfold validate_summary, too_large.
  rewrite Hl, Hm, Hz. done.
Qed.

Lemma falsy_number n : negb (truthy_number n) = true ↔ n = NaN ∨ n = Int 0.
Proof.
  destruct n as [| |n]; simpl.
  - split; [by left|done].
  - split; [done|]. by intros [?|?].
  - rewrite negb_involutive, Z.eqb_eq. split; [intros ->; by right|].
    intros [?|?]; congruence.
Qed.

(** C4, as amended.  For every POST request to an endpoint of the table,
    [validateRequest] responds 413 if and only if the body read resolves
    and the [Content-Length] header is missing or non-numeric, or parses
    to 0, or the declared length exceeds [MAX_CONTENT_LENGTH], or the
    body is longer than the declared length; a body shorter than its
    declared length is not refused by this check.  When the body read is
    rejected, [validateRequest] throws and sends nothing, whatever the
    header declares. *)
Theorem content_length_check request response endpoints s handler (resolves : bool) :
  method request = "POST" →
  lookup_endpoint endpoints (method request) (pathname request) = Some handler →
  let contentLength := parseInt (headers request !! "content-length") in
  let out := run_awaited env
               (validateRequest_reading resolves request response endpoints) s in
  (statuses (new_events s out.2) = [413] ↔
   resolves = true
   ∧ (contentLength = NaN ∨ contentLength = Int 0
      ∨ js_gt contentLength (Int (MAX_CONTENT_LENGTH endpoints)) = true
      ∨ js_gt (Int (Z.of_nat (String.length (rawBody request)))) contentLength = true))
  ∧ (resolves = false →
     out.1 = Thrown ∧ statuses (new_events s out.2) = []).
Proof.
  intros Hm Hl contentLength out. subst out.
  rewrite run_awaited_validateRequest_reading. cbn [fst snd]. rewrite new_events_extend.
  unfold validate_reading_summary. destruct resolves; cbn [fst snd].
  2:{ rewrite Hl, Hm. split; [|done]. split; [done|]. by intros [? _]. }
  split; [|done].
  assert (too_large request endpoints = true ↔
          true = true
          ∧ (contentLength = NaN ∨ contentLength = Int 0
             ∨ js_gt contentLength (Int (MAX_CONTENT_LENGTH endpoints)) = true
             ∨ js_gt (Int (Z.of_nat (String.length (rawBody request)))) contentLength
               = true))
    as <-.
  { unfold too_large. fold contentLength.
    rewrite !orb_true_iff, falsy_number. tauto. }
  unfold validate_summary. rewrite Hl, Hm. simpl negb. cbv iota.
  destruct (too_large request endpoints); [done|].
  split; [|done].
  repeat (case_match; try done).
Qed.

(** C2, as amended.  [validateRequest] returns [true] only if the method
    is not POST, or the library takes the [X-Public-Key] header for a
    key, its parse returning one, and the [X-Signature] header verifies,
    under that key, as a signature of the raw body.  What the parse
    takes is the library's matter; it is not only the compressed
    encoding of a point. *)
Theorem validateRequest_admits_only_verified request response endpoints s
    (resolves : bool) :
  (run_awaited env (validateRequest_reading resolves request response endpoints) s).1
    = Returned (VBool true) →
  method request ≠ "POST" ∨
  ∃ publicKey signature key,
    headers request !! "x-public-key" = Some publicKey
    ∧ headers request !! "x-signature" = Some signature
    ∧ fromCompressedPublicKey publicKey = Some key
    ∧ hashAndVerify key (rawBody request) signature = Some true.
Proof.
  rewrite run_awaited_validateRequest_reading. cbn [fst].
  unfold validate_reading_summary, validate_summary.
  destruct resolves; cbn [fst].
  2:{ destruct (lookup_endpoint _ _ _); [|done].
      destruct (String.eqb (method request) "POST") eqn:Hm; [done|].
      intros _. left. by apply String.eqb_neq. }
  intros [= Htrue]. revert Htrue.
  destruct (lookup_endpoint _ _ _); [|done].
  destruct (String.eqb (method request) "POST") eqn:Hm; simpl.
  2:{ intros _. left. by apply String.eqb_neq. }
  destruct (too_large _ _); [done|].
  destruct (negb (bool_decide _)); [done|].
  destruct (headers request !! "x-public-key") as [publicKey|]; [|done].
  destruct (headers request !! "x-signature") as [signature|];
    [|by rewrite orb_true_r].
  destruct (negb _ || negb _); [done|]. simpl.
  destruct (fromCompressedPublicKey publicKey) as [key|] eqn:Hk; [|done].
  destruct (hashAndVerify key (rawBody request) signature) as [[|]|] eqn:Hv; try done.
  intros _. right. by exists publicKey, signature, key.
Qed.

(** C7, as amended.  Nothing but a rejected body read makes
    [validateRequest] throw: it throws exactly when the request is a POST
    to an endpoint of the table whose body read is rejected (line 16 is
    outside the [try]), and it has sent nothing then.  Otherwise,
    whatever the [X-Public-Key] and [X-Signature] headers, it returns to
    its caller: [true] with no response sent, or what [send] returns with
    exactly one response sent, of status 404, 413, 400 or 401.  In
    particular, when parsing the key throws or verifying the signature
    throws, it responds 401 with the message on the form of the key, and
    returns. *)
Theorem validateRequest_total request response endpoints s (resolves : bool) :
  let out := run_awaited env
               (validateRequest_reading resolves request response endpoints) s in
  (out.1 = Thrown ↔
   resolves = false ∧ method request = "POST"
   ∧ is_Some (lookup_endpoint endpoints (method request) (pathname request)))
  ∧ (out.1 = Thrown → statuses (new_events s out.2) = [])
  ∧ (∀ v, out.1 = Returned v →
     v = VBool true ∧ statuses (new_events s out.2) = []
     ∨ v = VUndefined
       ∧ ∃ status, status ∈ [404; 413; 400; 401]
                   ∧ statuses (new_events s out.2) = [status])
  ∧ (∀ handler publicKey signature,
     resolves = true →
     method request = "POST" →
     lookup_endpoint endpoints (method request) (pathname request) = Some handler →
     too_large request endpoints = false →
     headers request !! "content-type" ∈ Some <$> acceptedContentTypes →
     headers request !! "x-public-key" = Some publicKey → publicKey ≠ "" →
     headers request !! "x-signature" = Some signature → signature ≠ "" →
     fromCompressedPublicKey publicKey = None
     ∨ (∃ key, fromCompressedPublicKey publicKey = Some key
               ∧ hashAndVerify key (rawBody request) signature = None) →
     out.1 = Returned VUndefined
     ∧ responses (new_events s out.2) = [(401, public_key_error)]).
Proof.
  intros out. subst out.
  rewrite run_awaited_validateRequest_reading. cbn [fst snd]. rewrite new_events_extend.
  split; [|split; [|split]].
  - unfold validate_reading_summary. destruct resolves; cbn [fst].
    { split; [done|]. by intros [? _]. }
    destruct (lookup_endpoint _ _ _) as [h|]; cbn [fst].
    2:{ split; [done|]. by intros (_ & _ & [? ?]). }
    destruct (String.eqb (method request) "POST") eqn:Hm; cbn [fst].
    + apply String.eqb_eq in Hm. split; [|done]. intros _. eauto.
    + apply String.eqb_neq in Hm. split; [done|]. by intros (_ & ? & _).
  - unfold validate_reading_summary. destruct resolves; cbn [fst snd]; [done|].
    repeat case_match; done.
  - intros v. unfold validate_reading_summary, validate_summary.
    destruct resolves; cbn [fst snd];
      repeat case_match; simpl; intros [= <-];
      first [ left; split; reflexivity
            | right; split; [reflexivity|]; eexists; split; [|reflexivity];
              repeat constructor ].
  - intros handler publicKey signature -> Hm Hl Hlen Hct Hpk Hpkne Hsg Hsgne Hthrows.
    unfold validate_reading_summary, validate_summary. cbn [fst snd].
    rewrite Hl, Hm, Hlen. simpl negb. cbv iota.
    rewrite (bool_decide_eq_true_2 _ Hct). simpl negb. cbv iota.
    rewrite Hpk, Hsg. simpl.
    apply String.eqb_neq in Hpkne, Hsgne. rewrite Hpkne, Hsgne. simpl.
    destruct Hthrows as [->|(key & -> & ->)]; done.
Qed.

Lemma validate_summary_admits request endpoints :
  (validate_summary request endpoints).1 = VBool true →
  sends (validate_summary request endpoints).2 = [].
Proof.
  unfold validate_summary. repeat (case_match; simpl; try done).
Qed.

Lemma getIp_summary_sends request : sends (getIp_summary request).2 = [].
Proof. unfold getIp_summary. repeat (case_match; simpl; try done). Qed.

(** C6.  For every POST request from a banned address that passes
    validation, [checkAdminRequest], under every schedule, responds 401
    with the body [{success: false, error: "Banned"}], the only response
    sent, and stops there: after resolving the address and asking
    [isBanned] it makes no other call (it neither reads nor compares the
    control key and does not call [ban]), and the ban list is left as it
    was. *)
Theorem checkAdminRequest_banned (sched : list nat) request response endpoints s :
  method request = "POST" →
  (run_awaited env (validateRequest request response endpoints) s).1
    = Returned (VBool true) →
  isBanned (now env) (bans s) (resolved_ip request) = true →
  let out := run env sched (checkAdminRequest request response endpoints) s in
  out.1 = Returned VUndefined
  ∧ events_of 0 (log out.2)
    = events_of 0 (log s) ++ (getIp_summary request).2
      ++ [EvIsBanned (resolved_ip request); EvSend 401 banned_error]
  ∧ statuses (new_events s out.2) = [401]
  ∧ bans out.2 = bans s.
Proof.
  intros Hm Hvalid Hb out.
  rewrite run_awaited_validateRequest in Hvalid. injection Hvalid as Hvalid.
  pose proof (checkAdminRequest_statuses env sched request response endpoints s
                (validate_summary_admits _ _ Hvalid)) as Hst.
  destruct (checkAdminRequest_run env sched request response endpoints s)
    as (Hr & Hbans & He & _).
  fold out in Hr, Hbans, He, Hst. unfold admin_summary, resolved_ip in *.
  rewrite Hm in *. simpl negb in *. cbv iota in *.
  pose proof (getIp_summary_sends request) as Hreads.
  destruct (getIp_summary request) as [ip reads]. simpl in Hb, Hreads.
  rewrite Hb in *. simpl in Hst. rewrite sends_app, Hreads in Hst. done.
Qed.

(** C3, as amended.  In [checkAdminRequest] the text of the
    [X-Public-Key] header is compared, as a string, with the base64 text
    of the compressed encoding of the control key.  For every POST
    request that passes validation, from an address that is not banned,
    under every schedule: when the two texts are equal the function
    returns [true], no response is sent and the ban list is left as it
    was; when they differ it responds 401 "should be the control key",
    the only response sent.  So a key whose compressed encoding differs
    from that of the control key is always refused. *)
Theorem checkAdminRequest_control_key (sched : list nat) request response endpoints s :
  method request = "POST" →
  (run_awaited env (validateRequest request response endpoints) s).1
    = Returned (VBool true) →
  isBanned (now env) (bans s) (resolved_ip request) = false →
  let out := run env sched (checkAdminRequest request response endpoints) s in
  let controlKey := toCompressedPublicKey (controlKey env) in
  (headers request !! "x-public-key" = Some controlKey →
   out.1 = Returned (VBool true)
   ∧ statuses (new_events s out.2) = []
   ∧ bans out.2 = bans s)
  ∧ (headers request !! "x-public-key" ≠ Some controlKey →
     out.1 = Returned VUndefined
     ∧ last (events_of 0 (log out.2)) = Some (EvSend 401 control_key_error)
     ∧ statuses (new_events s out.2) = [401])
  ∧ (∀ publicKey, headers request !! "x-public-key" = Some publicKey →
     base64_decode publicKey ≠ base64_decode controlKey →
     out.1 = Returned VUndefined
     ∧ last (events_of 0 (log out.2)) = Some (EvSend 401 control_key_error)
     ∧ statuses (new_events s out.2) = [401]).
Proof.
  intros Hm Hvalid Hb out ck.
  rewrite run_awaited_validateRequest in Hvalid. injection Hvalid as Hvalid.
  pose proof (checkAdminRequest_statuses env sched request response endpoints s
                (validate_summary_admits _ _ Hvalid)) as Hst.
  destruct (checkAdminRequest_run env sched request response endpoints s)
    as (Hr & Hbans & He & _).
  fold out in Hr, Hbans, He, Hst. unfold admin_summary, resolved_ip in *.
  rewrite Hm in *. simpl negb in *. cbv iota in *.
  pose proof (getIp_summary_sends request) as Hreads.
  destruct (getIp_summary request) as [ip reads]. simpl in Hb, Hreads.
  rewrite Hb in *. fold ck in Hr, Hbans, He, Hst.
  destruct (bool_decide (Some ck = headers request !! "x-public-key")) eqn:Hd;
    simpl in Hr, Hbans, He, Hst.
  - apply bool_decide_eq_true in Hd. rewrite sends_app, Hreads in Hst.
    split; [done|]. split; [congruence|].
    intros publicKey Hk Hbytes. rewrite Hk in Hd. congruence.
  - apply bool_decide_eq_false in Hd.
    rewrite sends_app, sends_app, Hreads in Hst.
    assert (out.1 = Returned VUndefined
            ∧ last (events_of 0 (log out.2)) = Some (EvSend 401 control_key_error)
            ∧ statuses (new_events s out.2) = [401])
      as Hrefused.
    { split; [done|]. split; [|done]. rewrite He.
      change [EvMathRandom; ?b; ?e] with ([EvMathRandom; b] ++ [e]).
      rewrite !app_assoc. apply last_snoc. }
    split; [congruence|]. by split.
Qed.

(** C5, as amended.  Every ban written on a control-key mismatch lasts 5
    minutes plus a whole number of seconds from 0 to 30, which is 0 only
    when [Math.random()] returns 0: for every draw the expiry written is
    at least [now + 300] and at most [now + 330] seconds, and for every
    draw other than 0 it is above [now + 300]. *)
Theorem ban_expiry_bounds (sched : list nat) request response endpoints s :
  is_random_draw (random env) = true →
  method request = "POST" →
  isBanned (now env) (bans s) (resolved_ip request) = false →
  headers request !! "x-public-key" ≠ Some (toCompressedPublicKey (controlKey env)) →
  let out := run env sched (checkAdminRequest request response endpoints) s in
  ∃ seconds,
    ban_seconds (random env) = Int seconds
    ∧ EvBan (resolved_ip request) (Int seconds) ∈ events_of 0 (log out.2)
    ∧ bans out.2 = <[resolved_ip request := now env + seconds]> (bans s)
    ∧ now env + 300 <= now env + seconds <= now env + 330
    ∧ (random env ≠ S754_zero false → now env + 300 < now env + seconds).
Proof.
  intros Hdraw Hm Hb Hk out.
  destruct (checkAdminRequest_run env sched request response endpoints s)
    as (Hr & Hbans & He & _).
  fold out in Hr, Hbans, He. unfold admin_summary, resolved_ip in *.
  rewrite Hm in *. simpl negb in *. cbv iota in *.
  destruct (getIp_summary request) as [ip reads]. simpl in Hb. simpl fst.
  rewrite Hb in *. rewrite bool_decide_eq_false_2 in Hr, Hbans, He by congruence.
  simpl in Hbans, He.
  destruct (ceil_random_30 (random env) Hdraw) as (j & Hj & Hrange & Hpos).
  assert (ban_seconds (random env) = Int (300 + j)) as Hs.
  { unfold ban_seconds. by rewrite Hj. }
  exists (300 + j). split; [done|]. rewrite Hs in *.
  split; [|split; [done|split; [lia|]]].
  - rewrite He. apply elem_of_app. right. apply elem_of_app. right. right. left.
  - intros Hnz. specialize (Hpos Hnz). lia.
Qed.

End Claims.

(** ** Further properties of the three functions

    Where a statement depends on the body having been read, it is about
    [validateRequest_reading], with the outcome of the read given.  In
    the runs [send] returns; on a response that is sent already the
    [send] of micro throws.  Where [send] may be called twice on one
    response, the statements are about the calls that are made, the ban
    list, and whether the function returns [true], which do not depend
    on what the second call does. *)

(** *** [parseInt] on a value with text after its digits *)

Lemma parse_digits_app radix s c t acc :
  digit_value c = None →
  parse_digits radix (s +:+ String c t) acc = parse_digits radix s acc.
Proof.
  intros Hc. revert acc. induction s as [|a s IH]; intros acc; simpl.
  - by rewrite Hc.
  - destruct (digit_value a) as [d|]; [|done].
    destruct (d <? radix); [apply IH|done].
Qed.

Lemma trim_start_app s u :
  trim_start s ≠ "" → trim_start (s +:+ u) = trim_start s +:+ u.
Proof.
  induction s as [|a s IH]; simpl; [done|].
  destruct (is_js_whitespace a); [apply IH|done].
Qed.

Lemma strip_sign_app s u :
  s ≠ "" → strip_sign (s +:+ u) = ((strip_sign s).1, (strip_sign s).2 +:+ u).
Proof.
  destruct s as [|a s]; [done|]. intros _.
  destruct a as [[] [] [] [] [] [] [] []]; reflexivity.
Qed.

Lemma strip_hex_prefix_app s c t :
  s ≠ "" → digit_value c = None →
  strip_hex_prefix (s +:+ String c t)
  = ((strip_hex_prefix s).1, (strip_hex_prefix s).2 +:+ String c t).
Proof.
  intros Hs Hc. destruct s as [|a [|b s]]; [done| |].
  - destruct a as [[] [] [] [] [] [] [] []]; try reflexivity.
    destruct c as [[] [] [] [] [] [] [] []]; try reflexivity; by vm_compute in Hc.
  - destruct a as [[] [] [] [] [] [] [] []]; try reflexivity.
    destruct b as [[] [] [] [] [] [] [] []]; reflexivity.
Qed.

(** A value that parses to a number parses to the same number when it is
    followed by a character that is neither a digit nor a letter, and by
    anything after that. *)
Lemma parseInt_trailing s c t n :
  parseInt (Some s) = Int n → digit_value c = None →
  parseInt (Some (s +:+ String c t)) = Int n.
Proof.
  unfold parseInt. simpl default. intros Hp Hc.
  destruct (trim_start s) as [|a s1] eqn:Ht; [done|].
  rewrite trim_start_app by (by rewrite Ht). rewrite Ht.
  rewrite strip_sign_app by done.
  destruct (strip_sign (String a s1)) as [negative s2]. cbn [fst snd].
  destruct s2 as [|a2 s2]; [done|].
  rewrite strip_hex_prefix_app by done.
  destruct (strip_hex_prefix (String a2 s2)) as [radix s3]. cbn [fst snd].
  by rewrite parse_digits_app.
Qed.

(** *** Reading the log *)

Lemma payloads_distinct :
  missing_headers_error ≠ public_key_error
  ∧ missing_headers_error ≠ signature_error
  ∧ public_key_error ≠ signature_error.
Proof. repeat split; by vm_compute. Qed.

Lemma truthy_string_false h : truthy_string h = false ↔ h = None ∨ h = Some "".
Proof.
  destruct h as [v|]; simpl.
  - rewrite negb_false_iff, String.eqb_eq.
    split; [intros ->; by right|]. by intros [?|[= ->]].
  - split; [by left|done].
Qed.

Lemma truthy_string_true h : truthy_string h = true ↔ ∃ v, h = Some v ∧ v ≠ "".
Proof.
  destruct h as [v|]; simpl.
  - rewrite negb_true_iff, String.eqb_neq.
    split; [intros ?; by exists v|]. by intros (v' & [= <-] & ?).
  - split; [done|]. by intros (v & ? & _).
Qed.

Lemma elem_of_events l (e : Event) :
  e ∈ l.*2 ↔ ∃ who, e ∈ events_of who l.
Proof.
  unfold events_of. split.
  - intros ([who e'] & -> & Hin)%list_elem_of_fmap. exists who.
    apply list_elem_of_fmap. exists (who, e'). split; [done|].
    by apply list_elem_of_filter.
  - intros (who & (x & -> & [_ Hin]%list_elem_of_filter)%list_elem_of_fmap).
    apply list_elem_of_fmap. by exists x.
Qed.

Lemma too_large_false request endpoints :
  too_large request endpoints = false ↔
  ∃ n, parseInt (headers request !! "content-length") = Int n
       ∧ n ≠ 0
       ∧ Z.of_nat (String.length (rawBody request)) <= n <= MAX_CONTENT_LENGTH endpoints.
Proof.
  unfold too_large. destruct (parseInt _) as [|negative|n]; simpl.
  - split; [done|]. by intros (n & ? & _).
  - destruct negative; simpl; (split; [done|]); by intros (n & ? & _).
  - rewrite negb_involutive, !orb_false_iff, Z.eqb_neq, !Z.ltb_ge. split.
    + intros [[? ?] ?]. exists n. repeat split; done.
    + intros (n' & [= <-] & ? & ? & ?). repeat split; done.
Qed.

(** When only the function that was run and the first function it called
    logged anything, the responses are theirs, in some order. *)
Lemma statuses_two_activations l :
  (∀ i, events_of (S (S i)) l = []) →
  statuses l ≡ₚ sends (events_of 1 l) ++ sends (events_of 0 l).
Proof.
  induction l as [|[w e] l IH]; intros Hl; [done|].
  assert (∀ i, events_of (S (S i)) l = []) as Hl'.
  { intros i. specialize (Hl i). rewrite events_of_cons in Hl.
    by apply app_eq_nil in Hl as [_ ?]. }
  specialize (IH Hl').
  change (statuses ((w, e) :: l)) with (sends (e :: l.*2)).
  rewrite sends_cons, !events_of_cons, !sends_app. fold (statuses l). rewrite IH.
  destruct w as [|[|i]].
  - destruct e; simpl; try done. apply Permutation_middle.
  - destruct e; simpl; done.
  - specialize (Hl i). rewrite events_of_cons, decide_True in Hl by done. done.
Qed.

Section MoreProperties.
Context `{ECDSA}.
Variable env : Env.

(** [getIp], run from start to end. *)
Lemma getIp_run request s :
  run_awaited env (getIp request) s =
  (Returned (getIp_summary request).1, extend 0 (getIp_summary request).2 s).
Proof.
  unfold run_awaited, getIp, getIp_summary. simpl.
  destruct (truthy_string (headers request !! "x-real-ip")); simpl;
    [|destruct (truthy_string (headers request !! "x-forwarded-for")); simpl];
    rewrite ?extend_cons, ?extend_nil; done.
Qed.

Lemma validateRequest_new_events request response endpoints s :
  new_events s (run_awaited env (validateRequest request response endpoints) s).2
  = (0%nat,.) <$> (validate_summary request endpoints).2.
Proof. rewrite run_awaited_validateRequest. apply new_events_extend. Qed.

Lemma validate_summary_calls request endpoints :
  Forall (λ e, is_validation_call e = true) (validate_summary request endpoints).2.
Proof.
  unfold validate_summary. repeat case_match; simpl; repeat constructor.
Qed.

(** What a run of [checkAdminRequest] adds to the log, activation by
    activation. *)
Lemma checkAdminRequest_new_events (sched : list nat) request response endpoints s :
  let out := run env sched (checkAdminRequest request response endpoints) s in
  events_of 0 (new_events s out.2) = (admin_summary env request (bans s)).1.2
  ∧ events_of 1 (new_events s out.2) = (validate_summary request endpoints).2
  ∧ ∀ i, events_of (S (S i)) (new_events s out.2) = [].
Proof.
  intros out.
  destruct (checkAdminRequest_run env sched request response endpoints s)
    as (_ & _ & He & Hp).
  pose proof (checkAdminRequest_events env sched request response endpoints s) as Hi.
  fold out in He, Hp, Hi.
  assert (log s `prefix_of` log out.2) as Hs.
  { etrans; [|apply Hp]. by apply prefix_app_r. }
  split; [|split].
  - rewrite (events_of_new_events 0 s out.2 Hs) in He. by apply app_inv_head in He.
  - specialize (Hi 0%nat). rewrite (events_of_new_events 1 s out.2 Hs) in Hi.
    by apply app_inv_head in Hi.
  - intros i. specialize (Hi (S i)).
    rewrite (events_of_new_events (S (S i)) s out.2 Hs) in Hi.
    apply app_inv_head in Hi. by rewrite Hi.
Qed.

(** X1.  [getIp] gives the value of the [X-Real-IP] header whenever that
    header is present and not empty, whatever [X-Forwarded-For] and the
    address of the peer are; it does not read [X-Forwarded-For] then. *)
Theorem getIp_real_ip request s ip :
  headers request !! "x-real-ip" = Some ip →
  ip ≠ "" →
  run_awaited env (getIp request) s
  = (Returned ip, extend 0 [EvHeader "x-real-ip"] s).
Proof.
  intros Hr Hne. rewrite getIp_run. unfold getIp_summary.
  rewrite (proj2 (truthy_string_true _)) by eauto. by rewrite Hr.
Qed.

(** X2.  When the [X-Real-IP] header is absent or empty, [getIp] gives
    the value of the [X-Forwarded-For] header if that one is present and
    not empty. *)
Theorem getIp_forwarded_for request s ip :
  headers request !! "x-real-ip" = None ∨ headers request !! "x-real-ip" = Some "" →
  headers request !! "x-forwarded-for" = Some ip →
  ip ≠ "" →
  run_awaited env (getIp request) s
  = (Returned ip, extend 0 [EvHeader "x-real-ip"; EvHeader "x-forwarded-for"] s).
Proof.
  intros Hr Hf Hne. rewrite getIp_run. unfold getIp_summary.
  rewrite (proj2 (truthy_string_false _) Hr).
  rewrite (proj2 (truthy_string_true _)) by eauto. by rewrite Hf.
Qed.

(** X3.  When both headers are absent or empty, [getIp] gives the address
    of the peer, [request.connection.remoteAddress]. *)
Theorem getIp_remote_address request s :
  headers request !! "x-real-ip" = None ∨ headers request !! "x-real-ip" = Some "" →
  headers request !! "x-forwarded-for" = None
  ∨ headers request !! "x-forwarded-for" = Some "" →
  run_awaited env (getIp request) s
  = (Returned (remoteAddress request),
     extend 0 [EvHeader "x-real-ip"; EvHeader "x-forwarded-for"] s).
Proof.
  intros Hr Hf. rewrite getIp_run. unfold getIp_summary.
  by rewrite (proj2 (truthy_string_false _) Hr), (proj2 (truthy_string_false _) Hf).
Qed.

Lemma validate_summary_admits_iff request endpoints handler :
  method request = "POST" →
  lookup_endpoint endpoints (method request) (pathname request) = Some handler →
  (validate_summary request endpoints).1 = VBool true
  ↔ (∃ n, parseInt (headers request !! "content-length") = Int n
          ∧ n ≠ 0
          ∧ Z.of_nat (String.length (rawBody request)) <= n
            <= MAX_CONTENT_LENGTH endpoints)
    ∧ headers request !! "content-type" ∈ Some <$> acceptedContentTypes
    ∧ ∃ publicKey signature key,
        headers request !! "x-public-key" = Some publicKey ∧ publicKey ≠ ""
        ∧ headers request !! "x-signature" = Some signature ∧ signature ≠ ""
        ∧ fromCompressedPublicKey publicKey = Some key
        ∧ hashAndVerify key (rawBody request) signature = Some true.
Proof.
  intros Hm Hl. unfold validate_summary. rewrite Hl, Hm. simpl negb. cbv iota.
  rewrite <- too_large_false.
  destruct (too_large request endpoints).
  { split; [done|]. by intros [? _]. }
  destruct (bool_decide _) eqn:Hct; simpl negb; cbv iota.
  2:{ apply bool_decide_eq_false in Hct. split; [done|]. by intros (_ & ? & _). }
  apply bool_decide_eq_true in Hct.
  destruct (truthy_string (headers request !! "x-public-key")) eqn:Hpk; simpl.
  2:{ apply truthy_string_false in Hpk. split; [done|].
      intros (_ & _ & pk & sg & key & ? & ? & _). destruct Hpk; congruence. }
  destruct (truthy_string (headers request !! "x-signature")) eqn:Hsg; simpl.
  2:{ apply truthy_string_false in Hsg. split; [done|].
      intros (_ & _ & pk & sg & key & _ & _ & ? & ? & _). destruct Hsg; congruence. }
  apply truthy_string_true in Hpk as (pk & Hpk & Hpkne).
  apply truthy_string_true in Hsg as (sg & Hsg & Hsgne).
  rewrite Hpk, Hsg. simpl.
  destruct (fromCompressedPublicKey pk) as [key|] eqn:Hk.
  2:{ split; [done|]. intros (_ & _ & pk' & sg' & key' & [= <-] & _ & _ & _ & ? & _).
      congruence. }
  destruct (hashAndVerify key (rawBody request) sg) as [[|]|] eqn:Hv.
  - split; [|done]. intros _. split; [done|]. split; [done|].
    by exists pk, sg, key.
  - split; [done|].
    intros (_ & _ & pk' & sg' & key' & [= <-] & _ & [= <-] & _ & ? & ?). congruence.
  - split; [done|].
    intros (_ & _ & pk' & sg' & key' & [= <-] & _ & [= <-] & _ & ? & ?). congruence.
Qed.

(** X4.  For a POST request to an endpoint of the table,
    [validateRequest] returns [true] exactly when the body read resolves,
    the [Content-Length] header parses to a number other than 0 that is
    at least the length of the body and at most [MAX_CONTENT_LENGTH], the
    [Content-Type] header is one of the two accepted strings, the
    [X-Public-Key] and [X-Signature] headers are present and not empty,
    the key parses and the signature verifies for the raw body. *)
Theorem validateRequest_admits_iff request response endpoints s handler
    (resolves : bool) :
  method request = "POST" →
  lookup_endpoint endpoints (method request) (pathname request) = Some handler →
  (run_awaited env (validateRequest_reading resolves request response endpoints) s).1
    = Returned (VBool true)
  ↔ resolves = true
    ∧ (∃ n, parseInt (headers request !! "content-length") = Int n
            ∧ n ≠ 0
            ∧ Z.of_nat (String.length (rawBody request)) <= n
              <= MAX_CONTENT_LENGTH endpoints)
    ∧ headers request !! "content-type" ∈ Some <$> acceptedContentTypes
    ∧ ∃ publicKey signature key,
        headers request !! "x-public-key" = Some publicKey ∧ publicKey ≠ ""
        ∧ headers request !! "x-signature" = Some signature ∧ signature ≠ ""
        ∧ fromCompressedPublicKey publicKey = Some key
        ∧ hashAndVerify key (rawBody request) signature = Some true.
Proof.
  intros Hm Hl. rewrite run_awaited_validateRequest_reading. cbn [fst].
  unfold validate_reading_summary. destruct resolves; cbn [fst].
  - rewrite <- (validate_summary_admits_iff request endpoints handler Hm Hl).
    split; [intros [= ->]; by split|]. by intros [_ ->].
  - rewrite Hl, Hm. split; [done|]. by intros [? _].
Qed.

Lemma validate_summary_content_type request endpoints handler :
  method request = "POST" →
  lookup_endpoint endpoints (method request) (pathname request) = Some handler →
  responses ((0%nat,.) <$> (validate_summary request endpoints).2)
  = [(400, content_type_error)]
  ↔ too_large request endpoints = false
    ∧ headers request !! "content-type" ≠ Some "application/json"
    ∧ headers request !! "content-type" ≠ Some "application/json; charset=utf-8".
Proof.
  intros Hm Hl. unfold validate_summary. rewrite Hl, Hm. simpl negb. cbv iota.
  destruct (too_large request endpoints); [split; [done|by intros [? _]]|].
  destruct (bool_decide _) eqn:Hct; simpl negb; cbv iota.
  - apply bool_decide_eq_true in Hct. split.
    + repeat case_match; done.
    + intros (_ & H1 & H2). unfold acceptedContentTypes in Hct. simpl in Hct.
      apply elem_of_cons in Hct as [?|Hct]; [done|].
      apply elem_of_cons in Hct as [?|Hct]; [done|]. by apply elem_of_nil in Hct.
  - apply bool_decide_eq_false in Hct. split; [|done]. intros _. split; [done|].
    unfold acceptedContentTypes in Hct. simpl in Hct.
    split; intros Heq; apply Hct; rewrite Heq; [left|right; left].
Qed.

(** X5.  For a POST request to an endpoint of the table,
    [validateRequest] responds 400 exactly when the body read resolves,
    the length check of line 17 passes and the [Content-Type] header is
    not, character for character, one of the two accepted strings (an
    absent header is not). *)
Theorem validateRequest_content_type request response endpoints s handler
    (resolves : bool) :
  method request = "POST" →
  lookup_endpoint endpoints (method request) (pathname request) = Some handler →
  let out := run_awaited env
               (validateRequest_reading resolves request response endpoints) s in
  responses (new_events s out.2) = [(400, content_type_error)]
  ↔ resolves = true
    ∧ too_large request endpoints = false
    ∧ headers request !! "content-type" ≠ Some "application/json"
    ∧ headers request !! "content-type" ≠ Some "application/json; charset=utf-8".
Proof.
  intros Hm Hl out. subst out.
  rewrite run_awaited_validateRequest_reading. cbn [snd]. rewrite new_events_extend.
  unfold validate_reading_summary. destruct resolves; cbn [snd].
  - rewrite (validate_summary_content_type request endpoints handler Hm Hl).
    split; [by split|]. by intros [_ ?].
  - rewrite Hl, Hm. split; [done|]. by intros [? _].
Qed.

(** X6.  When [validateRequest] responds 401, the message tells which
    check failed: "should contain" exactly when [X-Public-Key] or
    [X-Signature] is absent or empty; "should be the compressed public
    key" exactly when both are there and the key does not parse or the
    verification throws; "does not verify" exactly when the key parses and
    the verification returns false. *)
Theorem validateRequest_401_reason request response endpoints s :
  let out := run_awaited env (validateRequest request response endpoints) s in
  let publicKey := headers request !! "x-public-key" in
  let signature := headers request !! "x-signature" in
  statuses (new_events s out.2) = [401] →
  ∃ payload,
    responses (new_events s out.2) = [(401, payload)]
    ∧ (payload = missing_headers_error ↔
       publicKey = None ∨ publicKey = Some ""
       ∨ signature = None ∨ signature = Some "")
    ∧ (payload = public_key_error ↔
       ∃ pk sg, publicKey = Some pk ∧ pk ≠ "" ∧ signature = Some sg ∧ sg ≠ ""
         ∧ (fromCompressedPublicKey pk = None
            ∨ ∃ key, fromCompressedPublicKey pk = Some key
                     ∧ hashAndVerify key (rawBody request) sg = None))
    ∧ (payload = signature_error ↔
       ∃ pk sg key, publicKey = Some pk ∧ pk ≠ "" ∧ signature = Some sg ∧ sg ≠ ""
         ∧ fromCompressedPublicKey pk = Some key
         ∧ hashAndVerify key (rawBody request) sg = Some false).
Proof.
  intros out publicKey signature. subst out publicKey signature.
  rewrite validateRequest_new_events. unfold validate_summary.
  destruct payloads_distinct as (Hmk & Hms & Hks).
  destruct (lookup_endpoint _ _ _); [|done].
  destruct (negb (String.eqb (method request) "POST")); [done|].
  destruct (too_large request endpoints); [done|].
  destruct (negb (bool_decide _)); [done|].
  destruct (truthy_string (headers request !! "x-public-key")) eqn:Hpk; simpl.
  2:{ intros _. apply truthy_string_false in Hpk.
      exists missing_headers_error. split; [done|]. split; [|split].
      - split; [|done]. intros _. destruct Hpk; auto.
      - split; [done|]. intros (pk & sg & ? & ? & _). destruct Hpk; congruence.
      - split; [done|]. intros (pk & sg & key & ? & ? & _). destruct Hpk; congruence. }
  destruct (truthy_string (headers request !! "x-signature")) eqn:Hsg; simpl.
  2:{ intros _. apply truthy_string_false in Hsg.
      exists missing_headers_error. split; [done|]. split; [|split].
      - split; [|done]. intros _. destruct Hsg; auto.
      - split; [done|]. intros (pk & sg & _ & _ & ? & ? & _). destruct Hsg; congruence.
      - split; [done|]. intros (pk & sg & key & _ & _ & ? & ? & _).
        destruct Hsg; congruence. }
  apply truthy_string_true in Hpk as (pk & Hpk & Hpkne).
  apply truthy_string_true in Hsg as (sg & Hsg & Hsgne).
  rewrite Hpk, Hsg. simpl.
  destruct (fromCompressedPublicKey pk) as [key|] eqn:Hk.
  2:{ intros _. exists public_key_error. split; [done|]. split; [|split].
      - split; [done|]. intros [?|[?|[?|?]]]; congruence.
      - split; [|done]. intros _. exists pk, sg. repeat split; try done. by left.
      - split; [by intros ?|].
        intros (pk' & sg' & key' & [= <-] & _ & _ & _ & ? & _). congruence. }
  destruct (hashAndVerify key (rawBody request) sg) as [[|]|] eqn:Hv; [done| |].
  - intros _. exists signature_error. split; [done|]. split; [|split].
    + split; [by intros ?|]. intros [?|[?|[?|?]]]; congruence.
    + split; [by intros ?|].
      intros (pk' & sg' & [= <-] & _ & [= <-] & _ & [?|(key' & ? & ?)]); congruence.
    + split; [|done]. intros _. by exists pk, sg, key.
  - intros _. exists public_key_error. split; [done|]. split; [|split].
    + split; [done|]. intros [?|[?|[?|?]]]; congruence.
    + split; [|done]. intros _. exists pk, sg. repeat split; try done.
      right. by exists key.
    + split; [by intros ?|].
      intros (pk' & sg' & key' & [= <-] & _ & [= <-] & _ & ? & ?). congruence.
Qed.

(** X7.  For every POST request to an endpoint of the table,
    [validateRequest] first reads the [Content-Length] header and then
    the whole body, before it decides anything: the body is read also
    when the header is missing or declares more than
    [MAX_CONTENT_LENGTH]. *)
Theorem validateRequest_reads_body_first request response endpoints s handler :
  method request = "POST" →
  lookup_endpoint endpoints (method request) (pathname request) = Some handler →
  let out := run_awaited env (validateRequest request response endpoints) s in
  take 2 (new_events s out.2) = [(0%nat, EvHeader "content-length"); (0%nat, EvText)].
Proof.
  intros Hm Hl out. subst out. rewrite validateRequest_new_events.
  unfold validate_summary. rewrite Hl, Hm. simpl negb. cbv iota.
  repeat case_match; done.
Qed.

(** X8.  A [Content-Length] value that parses to a number is taken for
    that number also when text follows the digits: when the value is
    followed by a character that is neither a digit nor a letter, and by
    anything after it, then, the outcome of the body read being the
    same, [validateRequest] returns or throws the same and makes the
    same calls. *)
Theorem validateRequest_content_length_trailing request response endpoints s v c t n
    (resolves : bool) :
  headers request !! "content-length" = Some v →
  parseInt (Some v) = Int n →
  digit_value c = None →
  run_awaited env
    (validateRequest_reading resolves
       (set_header "content-length" (v +:+ String c t) request) response endpoints) s
  = run_awaited env (validateRequest_reading resolves request response endpoints) s.
Proof.
  intros Hv Hp Hc. rewrite !run_awaited_validateRequest_reading.
  assert (validate_reading_summary resolves
            (set_header "content-length" (v +:+ String c t) request) endpoints
          = validate_reading_summary resolves request endpoints) as ->; [|done].
  unfold validate_reading_summary, validate_summary, too_large, set_header.
  cbn [method pathname headers rawBody].
  rewrite lookup_insert_eq, !lookup_insert_ne by done.
  by rewrite (parseInt_trailing v c t n Hp Hc), Hv, Hp.
Qed.

(** X10.  For every request with a method other than POST,
    [checkAdminRequest] returns [true] under every schedule, whether or
    not the endpoint exists and whether or not the address is banned: it
    makes no call of its own, the ban list is left as it was, and the
    only response is the 404 of the validator when the endpoint is not in
    the table. *)
Theorem checkAdminRequest_non_post (sched : list nat) request response endpoints s :
  method request ≠ "POST" →
  let out := run env sched (checkAdminRequest request response endpoints) s in
  out.1 = Returned (VBool true)
  ∧ events_of 0 (new_events s out.2) = []
  ∧ bans out.2 = bans s
  ∧ statuses (new_events s out.2)
    = match lookup_endpoint endpoints (method request) (pathname request) with
      | None => [404]
      | Some _ => []
      end.
Proof.
  intros Hm out. apply String.eqb_neq in Hm.
  destruct (checkAdminRequest_run env sched request response endpoints s)
    as (Hr & Hb & _ & _).
  destruct (checkAdminRequest_new_events sched request response endpoints s)
    as (He & _ & _).
  assert ((validate_summary request endpoints).2
          = validate_start_summary request endpoints) as Hsync.
  { unfold validate_summary, validate_start_summary. rewrite Hm. by case_match. }
  pose proof (checkAdminRequest_statuses_sync env sched request response endpoints s
                Hsync) as Hst.
  fold out in Hr, Hb, He, Hst. unfold admin_summary in *. rewrite Hm in *.
  simpl in Hr, Hb, He, Hst. rewrite app_nil_r in Hst.
  split; [done|]. split; [done|]. split; [done|]. rewrite Hst.
  unfold validate_summary. rewrite Hm. by case_match.
Qed.

(** X11.  Whatever the request, [checkAdminRequest] touches the ban
    record of no address but the one [getIp] resolves: the record of
    every other address, and whether that address is banned, are after
    the run what they were before. *)
Theorem checkAdminRequest_other_addresses (sched : list nat) request response
    endpoints s ip :
  ip ≠ resolved_ip request →
  let out := run env sched (checkAdminRequest request response endpoints) s in
  bans out.2 !! ip = bans s !! ip
  ∧ isBanned (now env) (bans out.2) ip = isBanned (now env) (bans s) ip.
Proof.
  intros Hip out.
  destruct (checkAdminRequest_run env sched request response endpoints s)
    as (_ & Hb & _ & _).
  fold out in Hb.
  assert (bans out.2 !! ip = bans s !! ip) as Hl.
  { rewrite Hb. unfold admin_summary, resolved_ip in *.
    destruct (getIp_summary request) as [ip' reads]. simpl in Hip.
    repeat case_match; simpl; try done.
    unfold ban. case_match; try done. by rewrite lookup_insert_ne. }
  split; [done|]. unfold isBanned. by rewrite Hl.
Qed.

(** X12.  In a run of [checkAdminRequest], under every schedule, [ban] is
    called exactly when the request is a POST from an address that is not
    banned whose [X-Public-Key] header is not the text of the control
    key; the call then names the address that [getIp] resolves and the
    duration of line 77.  The validator never calls [ban]. *)
Theorem checkAdminRequest_ban_call (sched : list nat) request response endpoints s
    ip seconds :
  let out := run env sched (checkAdminRequest request response endpoints) s in
  EvBan ip seconds ∈ (new_events s out.2).*2
  ↔ method request = "POST"
    ∧ isBanned (now env) (bans s) (resolved_ip request) = false
    ∧ headers request !! "x-public-key"
      ≠ Some (toCompressedPublicKey (controlKey env))
    ∧ ip = resolved_ip request
    ∧ seconds = ban_seconds (random env).
Proof.
  intros out.
  destruct (checkAdminRequest_new_events sched request response endpoints s)
    as (He & Hv & Hn).
  fold out in He, Hv, Hn. rewrite elem_of_events.
  assert ((∃ who, EvBan ip seconds ∈ events_of who (new_events s out.2))
          ↔ EvBan ip seconds ∈ (admin_summary env request (bans s)).1.2) as ->.
  { split; [|intros Hin; exists 0%nat; by rewrite He].
    intros ([|[|i]] & Hin).
    - by rewrite He in Hin.
    - rewrite Hv in Hin.
      pose proof (validate_summary_calls request endpoints) as Hc.
      rewrite Forall_forall in Hc. by apply Hc in Hin.
    - rewrite Hn in Hin. by apply elem_of_nil in Hin. }
  unfold admin_summary, resolved_ip, getIp_summary.
  destruct (String.eqb (method request) "POST") eqn:Hm; simpl negb; cbv iota.
  2:{ apply String.eqb_neq in Hm. cbn [fst snd]. rewrite elem_of_nil.
      split; [done|]. by intros (? & _). }
  apply String.eqb_eq in Hm.
  destruct (truthy_string (headers request !! "x-real-ip"));
    [|destruct (truthy_string (headers request !! "x-forwarded-for"))];
    cbv iota beta; cbn [fst snd];
    (destruct (isBanned _ _ _) eqn:Hb; cbn [fst snd];
     [|destruct (bool_decide _) eqn:Hk; simpl negb; cbv iota; cbn [fst snd];
       [apply bool_decide_eq_true in Hk|apply bool_decide_eq_false in Hk]]);
    rewrite ?elem_of_app, ?elem_of_cons, ?elem_of_nil;
    (split;
     [intros Hin; repeat (destruct Hin as [Hin|Hin]); try done;
      injection Hin as -> ->; repeat split; try done; congruence
     |intros (_ & ? & ? & -> & ->); try congruence; auto 10]).
Qed.

(** X13.  Whether [checkAdminRequest] returns [true], the calls it makes
    itself and the ban list it leaves depend on the method, on the three
    headers [X-Real-IP], [X-Forwarded-For] and [X-Public-Key], on the
    address of the peer and on the ban list, and on nothing else of the
    request: not on the path, the endpoint table, the body, the
    signature, the content type or the declared length, which are what
    the validator checks. *)
Theorem checkAdminRequest_ignores_validation (sched sched' : list nat) request request'
    response endpoints endpoints' s s' :
  method request = method request' →
  headers request !! "x-real-ip" = headers request' !! "x-real-ip" →
  headers request !! "x-forwarded-for" = headers request' !! "x-forwarded-for" →
  headers request !! "x-public-key" = headers request' !! "x-public-key" →
  remoteAddress request = remoteAddress request' →
  bans s = bans s' →
  let out := run env sched (checkAdminRequest request response endpoints) s in
  let out' := run env sched' (checkAdminRequest request' response endpoints') s' in
  (out.1 = Returned (VBool true) ↔ out'.1 = Returned (VBool true))
  ∧ bans out.2 = bans out'.2
  ∧ events_of 0 (new_events s out.2) = events_of 0 (new_events s' out'.2).
Proof.
  intros Hm Hr Hf Hk Ha Hb out out'.
  destruct (checkAdminRequest_run env sched request response endpoints s)
    as (Hr1 & Hb1 & _ & _).
  destruct (checkAdminRequest_run env sched' request' response endpoints' s')
    as (Hr2 & Hb2 & _ & _).
  destruct (checkAdminRequest_new_events sched request response endpoints s)
    as (He1 & _ & _).
  destruct (checkAdminRequest_new_events sched' request' response endpoints' s')
    as (He2 & _ & _).
  fold out in Hr1, Hb1, He1. fold out' in Hr2, Hb2, He2.
  assert (admin_summary env request (bans s) = admin_summary env request' (bans s'))
    as Heq.
  { unfold admin_summary, getIp_summary. by rewrite Hm, Hr, Hf, Hk, Ha, Hb. }
  rewrite Heq in Hr1, Hb1, He1. by rewrite Hr1, Hb1, He1, Hr2, Hb2, He2.
Qed.

(** X14.  A POST request that passes validation, from an address that is
    not banned, with the text of the control key in [X-Public-Key], is
    admitted under every schedule: [checkAdminRequest] returns [true], no
    response is sent by anyone, the ban list is left as it was, and
    neither [Math.random] nor [ban] is called. *)
Theorem checkAdminRequest_admits (sched : list nat) request response endpoints s :
  method request = "POST" →
  (run_awaited env (validateRequest request response endpoints) s).1
    = Returned (VBool true) →
  isBanned (now env) (bans s) (resolved_ip request) = false →
  headers request !! "x-public-key" = Some (toCompressedPublicKey (controlKey env)) →
  let out := run env sched (checkAdminRequest request response endpoints) s in
  out.1 = Returned (VBool true)
  ∧ statuses (new_events s out.2) = []
  ∧ bans out.2 = bans s
  ∧ events_of 0 (new_events s out.2)
    = (getIp_summary request).2
      ++ [EvIsBanned (resolved_ip request); EvGetPublicControlKey;
          EvHeader "x-public-key"].
Proof.
  intros Hm Hvalid Hb Hk out.
  rewrite run_awaited_validateRequest in Hvalid. injection Hvalid as Hvalid.
  pose proof (checkAdminRequest_statuses env sched request response endpoints s
                (validate_summary_admits _ _ Hvalid)) as Hst.
  destruct (checkAdminRequest_run env sched request response endpoints s)
    as (Hr & Hbans & _ & _).
  destruct (checkAdminRequest_new_events sched request response endpoints s)
    as (He & _ & _).
  fold out in Hr, Hbans, He, Hst. unfold admin_summary, resolved_ip in *.
  rewrite Hm in *. simpl negb in *. cbv iota in *.
  pose proof (getIp_summary_sends request) as Hreads.
  destruct (getIp_summary request) as [ip reads]. simpl in Hb, Hreads.
  rewrite Hb, Hk in *. rewrite bool_decide_eq_true_2 in Hr, Hbans, He, Hst by done.
  simpl in Hr, Hbans, He, Hst. rewrite sends_app, Hreads in Hst. done.
Qed.

(** X15.  That [checkAdminRequest] returns [true] says nothing of the
    validation: whenever it does, under every schedule, the validator it
    called has made the calls that it makes when it is awaited, and the
    responses sent in the run are those of the validator, a refusal
    among them if the request is not valid. *)
Theorem checkAdminRequest_true_is_no_verdict (sched : list nat) request response
    endpoints s :
  let out := run env sched (checkAdminRequest request response endpoints) s in
  let awaited := run_awaited env (validateRequest request response endpoints) s in
  out.1 = Returned (VBool true) →
  events_of 1 (new_events s out.2) = (new_events s awaited.2).*2
  ∧ statuses (new_events s out.2) = statuses (new_events s awaited.2).
Proof.
  intros out awaited Htrue. subst awaited.
  destruct (checkAdminRequest_run env sched request response endpoints s)
    as (Hr & _ & _ & _).
  destruct (checkAdminRequest_new_events sched request response endpoints s)
    as (He & Hv & Hn).
  fold out in Hr, He, Hv, Hn. rewrite Htrue in Hr. injection Hr as Hr.
  pose proof (statuses_two_activations _ Hn) as Hperm. rewrite He, Hv in Hperm.
  assert (sends (admin_summary env request (bans s)).1.2 = []) as Hown.
  { revert Hr. unfold admin_summary.
    pose proof (getIp_summary_sends request) as Hreads.
    destruct (getIp_summary request) as [ip reads]. simpl in Hreads.
    repeat case_match; simpl; intros Hr; try done.
    by rewrite sends_app, Hreads. }
  rewrite Hown, app_nil_r in Hperm.
  rewrite validateRequest_new_events, statuses_tagged.
  assert ((((0%nat,.) <$> (validate_summary request endpoints).2).*2
           = (validate_summary request endpoints).2)) as ->.
  { rewrite <- list_fmap_compose. apply list_fmap_id. }
  split; [done|].
  revert Hperm. generalize (statuses (new_events s out.2)). intros l Hperm.
  assert (length (sends (validate_summary request endpoints).2) ≤ 1)%nat as Hlen.
  { clear. unfold validate_summary. repeat case_match; simpl; lia. }
  destruct (sends (validate_summary request endpoints).2) as [|status [|? ?]];
    simpl in Hlen; [|  |lia].
  - by apply Permutation_nil_r in Hperm.
  - by apply Permutation_singleton_r in Hperm.
Qed.

(** X16.  A POST request to a path that is not in the table, from an
    address that is not banned, with the text of the control key in
    [X-Public-Key], is admitted though the validator refuses it: under
    every schedule [checkAdminRequest] returns [true], and the one
    response of the run is the 404 of the validator. *)
Theorem checkAdminRequest_admits_unvalidated (sched : list nat) request response
    endpoints s :
  method request = "POST" →
  lookup_endpoint endpoints (method request) (pathname request) = None →
  isBanned (now env) (bans s) (resolved_ip request) = false →
  headers request !! "x-public-key" = Some (toCompressedPublicKey (controlKey env)) →
  let out := run env sched (checkAdminRequest request response endpoints) s in
  out.1 = Returned (VBool true)
  ∧ statuses (new_events s out.2) = [404].
Proof.
  intros Hm Hl Hb Hk out.
  assert ((validate_summary request endpoints).2
          = validate_start_summary request endpoints) as Hsync.
  { unfold validate_summary, validate_start_summary. by rewrite Hl. }
  pose proof (checkAdminRequest_statuses_sync env sched request response endpoints s
                Hsync) as Hst.
  destruct (checkAdminRequest_run env sched request response endpoints s)
    as (Hr & _ & _ & _).
  fold out in Hr, Hst. rewrite Hr, Hst. clear Hr Hst.
  unfold validate_summary. rewrite Hl. cbn [snd].
  unfold admin_summary, resolved_ip in *. rewrite Hm. simpl negb. cbv iota.
  pose proof (getIp_summary_sends request) as Hreads.
  destruct (getIp_summary request) as [ip reads]. simpl in Hb, Hreads.
  rewrite Hb, Hk. rewrite bool_decide_eq_true_2 by done. simpl.
  by rewrite sends_app, Hreads.
Qed.

(** X17.  A POST request to a path that is not in the table is answered
    twice when it comes from a banned address or does not carry the text
    of the control key: under every schedule the validator calls [send]
    with 404 and then [checkAdminRequest] calls [send] with 401, on the
    same response. *)
Theorem checkAdminRequest_answers_twice (sched : list nat) request response
    endpoints s :
  method request = "POST" →
  lookup_endpoint endpoints (method request) (pathname request) = None →
  isBanned (now env) (bans s) (resolved_ip request) = true
  ∨ headers request !! "x-public-key" ≠ Some (toCompressedPublicKey (controlKey env)) →
  let out := run env sched (checkAdminRequest request response endpoints) s in
  statuses (new_events s out.2) = [404; 401].
Proof.
  intros Hm Hl Hrefused out.
  assert ((validate_summary request endpoints).2
          = validate_start_summary request endpoints) as Hsync.
  { unfold validate_summary, validate_start_summary. by rewrite Hl. }
  pose proof (checkAdminRequest_statuses_sync env sched request response endpoints s
                Hsync) as Hst.
  fold out in Hst. rewrite Hst. unfold validate_summary. rewrite Hl. simpl.
  f_equal. unfold admin_summary, resolved_ip in *. rewrite Hm. simpl negb. cbv iota.
  pose proof (getIp_summary_sends request) as Hreads.
  destruct (getIp_summary request) as [ip reads]. simpl in Hrefused, Hreads.
  destruct (isBanned (now env) (bans s) ip) eqn:Hb; simpl.
  { by rewrite sends_app, Hreads. }
  destruct Hrefused as [?|Hk]; [done|].
  rewrite bool_decide_eq_false_2 by congruence. simpl.
  by rewrite sends_app, sends_app, Hreads.
Qed.

End MoreProperties.

(** *** Two runs *)

Section TwoRuns.
Context `{ECDSA}.

(** X9.  [validateRequest] asks nothing of the ban list, of the clock, of
    the control key or of [Math.random]: it leaves the ban list as it
    was, the calls it makes are reads of headers, the read of the body
    and [send], and what it returns and the calls it makes are the same
    in every store and at every time. *)
Theorem validateRequest_leaves_bans env env' request response endpoints s s' :
  let out := run_awaited env (validateRequest request response endpoints) s in
  let out' := run_awaited env' (validateRequest request response endpoints) s' in
  bans out.2 = bans s
  ∧ Forall (λ x, is_validation_call x.2 = true) (new_events s out.2)
  ∧ out.1 = out'.1
  ∧ new_events s out.2 = new_events s' out'.2.
Proof.
  intros out out'. subst out out'.
  rewrite !validateRequest_new_events, !run_awaited_validateRequest.
  split; [done|]. split; [|done].
  apply Forall_fmap. apply validate_summary_calls.
Qed.

(** X18.  After a ban written on a control-key mismatch, every POST
    request that resolves to the same address and arrives less than 300
    seconds later is refused with 401 "Banned", whatever key it carries,
    the control key too, and the ban is not prolonged. *)
Theorem checkAdminRequest_ban_then_refused env env' (sched sched' : list nat)
    request request' response endpoints endpoints' s :
  is_random_draw (random env) = true →
  method request = "POST" →
  isBanned (now env) (bans s) (resolved_ip request) = false →
  headers request !! "x-public-key" ≠ Some (toCompressedPublicKey (controlKey env)) →
  method request' = "POST" →
  resolved_ip request' = resolved_ip request →
  now env' < now env + 300 →
  let out := run env sched (checkAdminRequest request response endpoints) s in
  let out' := run env' sched' (checkAdminRequest request' response endpoints') out.2 in
  out'.1 ≠ Returned (VBool true)
  ∧ events_of 0 (new_events out.2 out'.2)
    = (getIp_summary request').2
      ++ [EvIsBanned (resolved_ip request'); EvSend 401 banned_error]
  ∧ bans out'.2 = bans out.2.
Proof.
  intros Hdraw Hm Hb Hk Hm' Hip Hnow out out'.
  assert (isBanned (now env') (bans out.2) (resolved_ip request') = true) as Hbanned.
  { destruct (checkAdminRequest_run env sched request response endpoints s)
      as (_ & Hbans & _ & _).
    fold out in Hbans. rewrite Hbans, Hip. clear out' Hbans.
    unfold admin_summary, resolved_ip in *. rewrite Hm. simpl negb. cbv iota.
    destruct (getIp_summary request) as [ip reads]. simpl in Hb. simpl.
    rewrite Hb. rewrite bool_decide_eq_false_2 by congruence. simpl.
    destruct (ceil_random_30 (random env) Hdraw) as (j & Hj & Hrange & _).
    unfold ban_seconds. rewrite Hj. simpl. unfold isBanned.
    rewrite lookup_insert_eq. apply Z.ltb_lt. unfold MINUTE. lia. }
  destruct (checkAdminRequest_run env' sched' request' response endpoints' out.2)
    as (Hr & Hbans & _ & _).
  destruct (checkAdminRequest_new_events env' sched' request' response endpoints' out.2)
    as (He & _ & _).
  fold out' in Hr, Hbans, He. unfold admin_summary, resolved_ip in *.
  rewrite Hm' in *. simpl negb in *. cbv iota in *.
  destruct (getIp_summary request') as [ip reads]. simpl in Hbanned.
  rewrite Hbanned in *. by rewrite Hr.
Qed.

(** X19.  A ban written on a control-key mismatch is over 330 seconds
    later: a POST request that resolves to the same address, arrives
    then or later and carries the text of the control key is not refused
    as banned; [checkAdminRequest] returns [true] and leaves the ban list
    as it is. *)
Theorem checkAdminRequest_ban_expires env env' (sched sched' : list nat)
    request request' response endpoints endpoints' s :
  is_random_draw (random env) = true →
  method request = "POST" →
  isBanned (now env) (bans s) (resolved_ip request) = false →
  headers request !! "x-public-key" ≠ Some (toCompressedPublicKey (controlKey env)) →
  method request' = "POST" →
  resolved_ip request' = resolved_ip request →
  headers request' !! "x-public-key" = Some (toCompressedPublicKey (controlKey env')) →
  now env + 330 <= now env' →
  let out := run env sched (checkAdminRequest request response endpoints) s in
  let out' := run env' sched' (checkAdminRequest request' response endpoints') out.2 in
  isBanned (now env') (bans out.2) (resolved_ip request') = false
  ∧ out'.1 = Returned (VBool true)
  ∧ bans out'.2 = bans out.2.
Proof.
  intros Hdraw Hm Hb Hk Hm' Hip Hk' Hnow out out'.
  assert (isBanned (now env') (bans out.2) (resolved_ip request') = false) as Hfree.
  { destruct (checkAdminRequest_run env sched request response endpoints s)
      as (_ & Hbans & _ & _).
    fold out in Hbans. rewrite Hbans, Hip. clear out' Hbans.
    unfold admin_summary, resolved_ip in *. rewrite Hm. simpl negb. cbv iota.
    destruct (getIp_summary request) as [ip reads]. simpl in Hb. simpl.
    rewrite Hb. rewrite bool_decide_eq_false_2 by congruence. simpl.
    destruct (ceil_random_30 (random env) Hdraw) as (j & Hj & Hrange & _).
    unfold ban_seconds. rewrite Hj. simpl. unfold isBanned.
    rewrite lookup_insert_eq. apply Z.ltb_ge. unfold MINUTE. lia. }
  split; [done|].
  destruct (checkAdminRequest_run env' sched' request' response endpoints' out.2)
    as (Hr & Hbans & _ & _).
  fold out' in Hr, Hbans. unfold admin_summary, resolved_ip in *.
  rewrite Hm' in *. simpl negb in *. cbv iota in *.
  destruct (getIp_summary request') as [ip reads]. simpl in Hfree.
  rewrite Hfree, Hk' in *. rewrite bool_decide_eq_true_2 in Hr, Hbans by done. done.
Qed.

End TwoRuns.

(** *** The durations that occur *)

(** X20.  Every whole number of seconds from 300 to 330 is the duration
    of line 77 for some value that [Math.random()] may return: the bounds
    300 and 330 are both reached. *)
Theorem ban_seconds_attained j :
  0 <= j <= 30 →
  ∃ r, is_random_draw r = true ∧ ban_seconds r = Int (300 + j).
Proof.
  intros Hj. exists (draw_for j).
  replace j with (Z.of_nat (Z.to_nat j)) by lia.
  assert (Z.to_nat j ≤ 30)%nat as Hk by lia.
  revert Hk. generalize (Z.to_nat j). clear. intros k Hk.
  do 31 (destruct k as [|k]; [by vm_compute|]). lia.
Qed.

(** ** The claims on concrete requests *)

#[local] Existing Instance Demo.ecdsa.

Lemma validateRequest_not_found_witness :
  (routes Demo.endpoints !! method (Demo.get_request "/nowhere") = None
   ∨ ∃ paths, routes Demo.endpoints !! method (Demo.get_request "/nowhere") = Some paths
              ∧ paths !! pathname (Demo.get_request "/nowhere") = None)
  ∧ run_awaited Demo.env
      (validateRequest (Demo.get_request "/nowhere") tt Demo.endpoints) Demo.empty_store
    = (Returned VUndefined, extend 0 [EvSend 404 not_found] Demo.empty_store).
Proof.
  assert (routes Demo.endpoints !! method (Demo.get_request "/nowhere") = None
          ∨ ∃ paths, routes Demo.endpoints !! method (Demo.get_request "/nowhere") = Some paths
                     ∧ paths !! pathname (Demo.get_request "/nowhere") = None) as Habsent.
  { right. eexists. split; reflexivity. }
  split; [exact Habsent|].
  exact (validateRequest_not_found Demo.env (Demo.get_request "/nowhere") tt
           Demo.endpoints Demo.empty_store Habsent).
Defined.

Lemma validateRequest_non_post_witness :
  method (Demo.get_request "/status") ≠ "POST"
  ∧ lookup_endpoint Demo.endpoints (method (Demo.get_request "/status"))
      (pathname (Demo.get_request "/status")) = Some "status"
  ∧ run_awaited Demo.env
      (validateRequest (Demo.get_request "/status") tt Demo.endpoints) Demo.empty_store
    = (Returned (VBool true), Demo.empty_store).
Proof.
  assert (method (Demo.get_request "/status") ≠ "POST") as Hm by discriminate.
  split; [exact Hm|]. split; [reflexivity|].
  exact (validateRequest_non_post Demo.env (Demo.get_request "/status") tt Demo.endpoints
           Demo.empty_store "status" Hm eq_refl).
Defined.

Lemma validateRequest_zero_content_length_witness :
  method Demo.empty_post = "POST"
  ∧ lookup_endpoint Demo.endpoints (method Demo.empty_post) (pathname Demo.empty_post)
    = Some "mint"
  ∧ parseInt (headers Demo.empty_post !! "content-length") = Int 0
  ∧ run_awaited Demo.env (validateRequest Demo.empty_post tt Demo.endpoints)
      Demo.empty_store
    = (Returned VUndefined,
       extend 0 [EvHeader "content-length"; EvText;
                 EvSend 413 (content_length_error 100 (Int 0))] Demo.empty_store).
Proof.
  split; [reflexivity|]. split; [reflexivity|]. split; [reflexivity|].
  exact (validateRequest_zero_content_length Demo.env Demo.empty_post tt Demo.endpoints
           Demo.empty_store "mint" eq_refl eq_refl eq_refl).
Defined.

(** C4, as stated, fails on an empty body declared as such: the header is
    present and numeric, the declared length exceeds neither the maximum
    nor the length of the body, and the response is 413.  It fails also
    on a request that declares 200 where the maximum is 100 and two
    bytes arrive: micro's [text] rejects the read, and [validateRequest]
    throws without sending 413. *)
Lemma content_length_check_counterexample :
  let contentLength := parseInt (headers Demo.empty_post !! "content-length") in
  let out := run_awaited Demo.env
               (validateRequest_reading false overdeclared_post tt Demo.endpoints)
               Demo.empty_store in
  (method Demo.empty_post = "POST"
   ∧ lookup_endpoint Demo.endpoints (method Demo.empty_post) (pathname Demo.empty_post)
     = Some "mint"
   ∧ headers Demo.empty_post !! "content-length" = Some "0"
   ∧ contentLength ≠ NaN
   ∧ js_gt contentLength (Int (MAX_CONTENT_LENGTH Demo.endpoints)) = false
   ∧ js_gt (Int (Z.of_nat (String.length (rawBody Demo.empty_post)))) contentLength = false
   ∧ statuses (new_events Demo.empty_store
                 (run_awaited Demo.env
                    (validateRequest Demo.empty_post tt Demo.endpoints)
                    Demo.empty_store).2) = [413])
  ∧ (method overdeclared_post = "POST"
     ∧ lookup_endpoint Demo.endpoints (method overdeclared_post)
         (pathname overdeclared_post) = Some "mint"
     ∧ js_gt (parseInt (headers overdeclared_post !! "content-length"))
         (Int (MAX_CONTENT_LENGTH Demo.endpoints)) = true
     ∧ out.1 = Thrown
     ∧ statuses (new_events Demo.empty_store out.2) = []).
Proof. vm_compute. repeat split; try reflexivity. discriminate. Qed.

(** A request that declares two, its body of two arriving in full, where
    the maximum is one: 413. *)
Lemma content_length_check_witness :
  let request := Demo.signed_post "/admin/mint" Demo.base_point in
  let out := run_awaited Demo.env
               (validateRequest_reading true request tt tight_endpoints)
               Demo.empty_store in
  method request = "POST"
  ∧ lookup_endpoint tight_endpoints (method request) (pathname request) = Some "mint"
  ∧ js_gt (parseInt (headers request !! "content-length"))
      (Int (MAX_CONTENT_LENGTH tight_endpoints)) = true
  ∧ statuses (new_events Demo.empty_store out.2) = [413].
Proof.
  intros request out. split; [reflexivity|]. split; [reflexivity|].
  split; [reflexivity|].
  apply (proj1 (content_length_check Demo.env request tt tight_endpoints
                  Demo.empty_store "mint" true eq_refl eq_refl)).
  split; [reflexivity|]. right. right. left. reflexivity.
Defined.

Lemma validateRequest_admits_only_verified_witness :
  (run_awaited Demo.env
     (validateRequest_reading true (Demo.signed_post "/admin/mint" Demo.base_point) tt
        Demo.endpoints)
     Demo.empty_store).1 = Returned (VBool true)
  ∧ (method (Demo.signed_post "/admin/mint" Demo.base_point) ≠ "POST"
     ∨ ∃ publicKey signature key,
         headers (Demo.signed_post "/admin/mint" Demo.base_point) !! "x-public-key"
           = Some publicKey
         ∧ headers (Demo.signed_post "/admin/mint" Demo.base_point) !! "x-signature"
           = Some signature
         ∧ fromCompressedPublicKey publicKey = Some key
         ∧ hashAndVerify key (rawBody (Demo.signed_post "/admin/mint" Demo.base_point))
             signature = Some true).
Proof.
  assert ((run_awaited Demo.env
             (validateRequest_reading true
                (Demo.signed_post "/admin/mint" Demo.base_point) tt
                Demo.endpoints) Demo.empty_store).1 = Returned (VBool true)) as Hrun.
  { vm_compute. reflexivity. }
  split; [exact Hrun|].
  exact (validateRequest_admits_only_verified Demo.env
           (Demo.signed_post "/admin/mint" Demo.base_point) tt Demo.endpoints
           Demo.empty_store true Hrun).
Defined.

Lemma checkAdminRequest_banned_witness :
  let request := Demo.signed_post "/admin/mint" Demo.base_point in
  let out := run Demo.env [1; 0; 1; 0]%nat (checkAdminRequest request tt Demo.endpoints)
               Demo.banned_store in
  method request = "POST"
  ∧ (run_awaited Demo.env (validateRequest request tt Demo.endpoints)
       Demo.banned_store).1 = Returned (VBool true)
  ∧ isBanned (now Demo.env) (bans Demo.banned_store) (resolved_ip request) = true
  ∧ out.1 = Returned VUndefined
  ∧ events_of 0 (log out.2)
    = events_of 0 (log Demo.banned_store) ++ (getIp_summary request).2
      ++ [EvIsBanned (resolved_ip request); EvSend 401 banned_error]
  ∧ statuses (new_events Demo.banned_store out.2) = [401]
  ∧ bans out.2 = bans Demo.banned_store.
Proof.
  intros request out.
  assert ((run_awaited Demo.env (validateRequest request tt Demo.endpoints)
             Demo.banned_store).1 = Returned (VBool true)) as Hvalid.
  { vm_compute. reflexivity. }
  assert (isBanned (now Demo.env) (bans Demo.banned_store) (resolved_ip request) = true)
    as Hbanned.
  { vm_compute. reflexivity. }
  split; [reflexivity|]. split; [exact Hvalid|]. split; [exact Hbanned|].
  exact (checkAdminRequest_banned Demo.env [1; 0; 1; 0]%nat request tt Demo.endpoints
           Demo.banned_store eq_refl Hvalid Hbanned).
Defined.

(** C3, as stated, fails when the caller spells the control key in the
    URL-safe alphabet: the header decodes to the compressed encoding of
    the control key, byte for byte, and parses to the control key; the
    request passes validation; [checkAdminRequest] responds 401 and bans
    the address. *)
Lemma control_key_text_counterexample :
  let request := Demo.url_safe_post in
  let out := run Demo.env [] (checkAdminRequest request tt Demo.endpoints)
               Demo.empty_store in
  headers request !! "x-public-key" = Some Demo.url_safe_base_point
  ∧ base64_decode Demo.url_safe_base_point
    = base64_decode (toCompressedPublicKey (controlKey Demo.env))
  ∧ fromCompressedPublicKey Demo.url_safe_base_point = Some (controlKey Demo.env)
  ∧ (run_awaited Demo.env (validateRequest request tt Demo.endpoints)
       Demo.empty_store).1 = Returned (VBool true)
  ∧ out.1 = Returned VUndefined
  ∧ last (events_of 0 (log out.2)) = Some (EvSend 401 control_key_error)
  ∧ bans out.2 !! "10.0.0.7" = Some 1315.
Proof. vm_compute. repeat split; reflexivity. Qed.

Lemma checkAdminRequest_control_key_witness :
  let request := Demo.signed_post "/admin/mint" Demo.other_point in
  let out := run Demo.env [0; 1]%nat (checkAdminRequest request tt Demo.endpoints)
               Demo.empty_store in
  let controlKey := toCompressedPublicKey (controlKey Demo.env) in
  method request = "POST"
  ∧ (run_awaited Demo.env (validateRequest request tt Demo.endpoints)
       Demo.empty_store).1 = Returned (VBool true)
  ∧ isBanned (now Demo.env) (bans Demo.empty_store) (resolved_ip request) = false
  ∧ (headers request !! "x-public-key" = Some controlKey →
     out.1 = Returned (VBool true)
     ∧ statuses (new_events Demo.empty_store out.2) = []
     ∧ bans out.2 = bans Demo.empty_store)
  ∧ (headers request !! "x-public-key" ≠ Some controlKey →
     out.1 = Returned VUndefined
     ∧ last (events_of 0 (log out.2)) = Some (EvSend 401 control_key_error)
     ∧ statuses (new_events Demo.empty_store out.2) = [401])
  ∧ (∀ publicKey, headers request !! "x-public-key" = Some publicKey →
     base64_decode publicKey ≠ base64_decode controlKey →
     out.1 = Returned VUndefined
     ∧ last (events_of 0 (log out.2)) = Some (EvSend 401 control_key_error)
     ∧ statuses (new_events Demo.empty_store out.2) = [401]).
Proof.
  intros request out controlKey.
  assert ((run_awaited Demo.env (validateRequest request tt Demo.endpoints)
             Demo.empty_store).1 = Returned (VBool true)) as Hvalid.
  { vm_compute. reflexivity. }
  split; [reflexivity|]. split; [exact Hvalid|]. split; [reflexivity|].
  exact (checkAdminRequest_control_key Demo.env [0; 1]%nat request tt Demo.endpoints
           Demo.empty_store eq_refl Hvalid eq_refl).
Defined.

(** C5, as stated, fails when [Math.random()] returns 0: the ban lasts
    300 seconds, and the expiry is [now + 300], not above it. *)
Lemma ban_expiry_zero_draw_counterexample :
  let request := Demo.signed_post "/admin/mint" Demo.other_point in
  let out := run Demo.env_zero_draw [] (checkAdminRequest request tt Demo.endpoints)
               Demo.empty_store in
  is_random_draw (random Demo.env_zero_draw) = true
  ∧ ban_seconds (random Demo.env_zero_draw) = Int 300
  ∧ now Demo.env_zero_draw = 1000
  ∧ bans out.2 !! "10.0.0.7" = Some 1300
  ∧ ¬ (now Demo.env_zero_draw + 300 < 1300).
Proof. vm_compute. repeat split; try reflexivity. discriminate. Qed.

Lemma ban_expiry_bounds_witness :
  let request := Demo.signed_post "/admin/mint" Demo.other_point in
  let out := run Demo.env [1; 1; 0]%nat (checkAdminRequest request tt Demo.endpoints)
               Demo.empty_store in
  is_random_draw (random Demo.env) = true
  ∧ method request = "POST"
  ∧ isBanned (now Demo.env) (bans Demo.empty_store) (resolved_ip request) = false
  ∧ headers request !! "x-public-key" ≠ Some (toCompressedPublicKey (controlKey Demo.env))
  ∧ ∃ seconds,
      ban_seconds (random Demo.env) = Int seconds
      ∧ EvBan (resolved_ip request) (Int seconds) ∈ events_of 0 (log out.2)
      ∧ bans out.2 = <[resolved_ip request := now Demo.env + seconds]> (bans Demo.empty_store)
      ∧ now Demo.env + 300 <= now Demo.env + seconds <= now Demo.env + 330
      ∧ (random Demo.env ≠ S754_zero false → now Demo.env + 300 < now Demo.env + seconds).
Proof.
  intros request out.
  assert (headers request !! "x-public-key"
          ≠ Some (toCompressedPublicKey (controlKey Demo.env))) as Hkey.
  { vm_compute. discriminate. }
  split; [reflexivity|]. split; [reflexivity|]. split; [reflexivity|].
  split; [exact Hkey|].
  exact (ban_expiry_bounds Demo.env [1; 1; 0]%nat request tt Demo.endpoints
           Demo.empty_store eq_refl eq_refl eq_refl Hkey).
Defined.

(** C2, as stated, fails when the caller sends its key uncompressed: the
    header decodes to 65 bytes, which is not the compressed encoding of
    a point; the library parses it all the same, the signature verifies
    under the key parsed, and [validateRequest] returns [true]. *)
Lemma uncompressed_key_counterexample :
  let request := Uncompressed.post in
  let publicKey := base64_encode Uncompressed.base_point in
  method request = "POST"
  ∧ headers request !! "x-public-key" = Some publicKey
  ∧ length (base64_decode publicKey) = 65%nat
  ∧ is_compressed_encoding (base64_decode publicKey) = false
  ∧ @fromCompressedPublicKey Uncompressed.ecdsa publicKey = Some Demo.base_point
  ∧ (run_awaited Uncompressed.env
       (@validateRequest_reading Uncompressed.ecdsa Empty_set true request tt
          Demo.endpoints)
       Demo.empty_store).1 = Returned (VBool true).
Proof. vm_compute. repeat split; reflexivity. Qed.

(** C7, as stated, fails on a request that declares five where two bytes
    arrive: micro's [text] rejects the read, and [validateRequest]
    throws; it has sent no response. *)
Lemma body_read_rejected_counterexample :
  let out := run_awaited Demo.env
               (validateRequest_reading false short_post tt Demo.endpoints)
               Demo.empty_store in
  method short_post = "POST"
  ∧ headers short_post !! "content-length" = Some "5"
  ∧ rawBody short_post = "{}"
  ∧ out.1 = Thrown
  ∧ statuses (new_events Demo.empty_store out.2) = [].
Proof. vm_compute. repeat split; reflexivity. Qed.

(** A signature that the verifier cannot read: 401 with the message on
    the form of the key. *)
Lemma validateRequest_total_witness :
  let request :=
    set_header "x-signature" "!" (Demo.signed_post "/admin/mint" Demo.base_point) in
  let out := run_awaited Demo.env
               (validateRequest_reading true request tt Demo.endpoints)
               Demo.empty_store in
  hashAndVerify Demo.base_point (rawBody request) "!" = None
  ∧ out.1 = Returned VUndefined
  ∧ responses (new_events Demo.empty_store out.2) = [(401, public_key_error)].
Proof.
  intros request out.
  assert (hashAndVerify Demo.base_point (rawBody request) "!" = None) as Hthrows.
  { reflexivity. }
  split; [exact Hthrows|].
  assert ("!" ≠ "") as Hsg by discriminate.
  assert (base64_encode Demo.base_point ≠ "") as Hpk.
  { vm_compute. discriminate. }
  assert (headers request !! "content-type" ∈ Some <$> acceptedContentTypes) as Hct.
  { vm_compute. left. }
  assert (headers request !! "x-public-key" = Some (base64_encode Demo.base_point))
    as Hk.
  { vm_compute. reflexivity. }
  assert (fromCompressedPublicKey (base64_encode Demo.base_point) = Some Demo.base_point)
    as Hparse.
  { vm_compute. reflexivity. }
  exact (proj2 (proj2 (proj2 (validateRequest_total Demo.env request tt Demo.endpoints
                                Demo.empty_store true)))
           "mint" (base64_encode Demo.base_point) "!"
           eq_refl eq_refl eq_refl eq_refl Hct Hk Hpk eq_refl Hsg
           (or_intror (ex_intro _ Demo.base_point (conj Hparse Hthrows)))).
Defined.

(** C1.  The claim: when the validator fails, [checkAdminRequest] stops,
    checks no ban, compares no key, writes no ban, does not return [true],
    and one response is sent.  The code calls [validateRequest] without
    awaiting it and tests the promise, which is truthy.  On a signed POST
    to a path that is not in the table, from an address that is not
    banned, under every schedule: the validator responds 404, and
    [checkAdminRequest] goes on to ask [isBanned], read and compare the
    control key, ban the address and call [send] again, with 401.  On a
    GET to such a path the validator responds 404 and [checkAdminRequest]
    returns [true]. *)
Theorem checkAdminRequest_runs_past_failed_validation (sched : list nat) :
  let post := Demo.signed_post "/nowhere" Demo.other_point in
  let get := Demo.get_request "/nowhere" in
  let out := run Demo.env sched (checkAdminRequest post tt Demo.endpoints)
               Demo.empty_store in
  let out' := run Demo.env sched (checkAdminRequest get tt Demo.endpoints)
                Demo.empty_store in
  run_awaited Demo.env (validateRequest post tt Demo.endpoints) Demo.empty_store
    = (Returned VUndefined, extend 0 [EvSend 404 not_found] Demo.empty_store)
  ∧ events_of 1 (log out.2) = [EvSend 404 not_found]
  ∧ events_of 0 (log out.2)
    = [EvHeader "x-real-ip"; EvIsBanned "10.0.0.7"; EvGetPublicControlKey;
       EvHeader "x-public-key"; EvMathRandom; EvBan "10.0.0.7" (Int 315);
       EvSend 401 control_key_error]
  ∧ statuses (new_events Demo.empty_store out.2) = [404; 401]
  ∧ bans out.2 !! "10.0.0.7" = Some 1315
  ∧ statuses (new_events Demo.empty_store out'.2) = [404]
  ∧ out'.1 = Returned (VBool true).
Proof.
  intros post get out out'.
  destruct (checkAdminRequest_run Demo.env sched post tt Demo.endpoints Demo.empty_store)
    as (_ & Hb & He & _).
  destruct (checkAdminRequest_run Demo.env sched get tt Demo.endpoints Demo.empty_store)
    as (Hr' & _ & _ & _).
  pose proof (checkAdminRequest_events Demo.env sched post tt Demo.endpoints
                Demo.empty_store 0) as Hv.
  pose proof (checkAdminRequest_statuses_sync Demo.env sched post tt Demo.endpoints
                Demo.empty_store eq_refl) as Hst.
  pose proof (checkAdminRequest_statuses_sync Demo.env sched get tt Demo.endpoints
                Demo.empty_store eq_refl) as Hst'.
  fold out in Hb, He, Hv, Hst. fold out' in Hr', Hst'.
  assert (admin_summary Demo.env post (bans Demo.empty_store)
          = (VUndefined,
             [EvHeader "x-real-ip"; EvIsBanned "10.0.0.7"; EvGetPublicControlKey;
              EvHeader "x-public-key"; EvMathRandom; EvBan "10.0.0.7" (Int 315);
              EvSend 401 control_key_error],
             {[ "10.0.0.7" := 1315 ]})) as Hs by (vm_compute; reflexivity).
  rewrite Hs in Hb, He, Hst. clear Hs.
  assert (admin_summary Demo.env get (bans Demo.empty_store) = (VBool true, [], ∅))
    as Hs' by reflexivity.
  rewrite Hs' in Hr', Hst'. clear Hs'.
  split; [by vm_compute|]. split; [exact Hv|]. split; [exact He|].
  split; [exact Hst|]. split; [by rewrite Hb|]. split; [exact Hst'|exact Hr'].
Qed.

(** ** The further properties on concrete requests *)

Lemma getIp_real_ip_witness :
  let request := Demo.signed_post "/admin/mint" Demo.base_point in
  headers request !! "x-real-ip" = Some "10.0.0.7"
  ∧ "10.0.0.7" ≠ ""
  ∧ run_awaited Demo.env (getIp request) Demo.empty_store
    = (Returned "10.0.0.7", extend 0 [EvHeader "x-real-ip"] Demo.empty_store).
Proof.
  intros request.
  assert ("10.0.0.7" ≠ "") as Hne by discriminate.
  split; [reflexivity|]. split; [exact Hne|].
  exact (getIp_real_ip Demo.env request Demo.empty_store "10.0.0.7" eq_refl Hne).
Defined.

Lemma getIp_forwarded_for_witness :
  let request :=
    set_header "x-forwarded-for" "203.0.113.9"
      (set_header "x-real-ip" "" (Demo.get_request "/status")) in
  (headers request !! "x-real-ip" = None ∨ headers request !! "x-real-ip" = Some "")
  ∧ headers request !! "x-forwarded-for" = Some "203.0.113.9"
  ∧ "203.0.113.9" ≠ ""
  ∧ run_awaited Demo.env (getIp request) Demo.empty_store
    = (Returned "203.0.113.9",
       extend 0 [EvHeader "x-real-ip"; EvHeader "x-forwarded-for"] Demo.empty_store).
Proof.
  intros request.
  assert (headers request !! "x-real-ip" = None
          ∨ headers request !! "x-real-ip" = Some "") as Hr.
  { right. reflexivity. }
  assert ("203.0.113.9" ≠ "") as Hne by discriminate.
  split; [exact Hr|]. split; [reflexivity|]. split; [exact Hne|].
  exact (getIp_forwarded_for Demo.env request Demo.empty_store "203.0.113.9"
           Hr eq_refl Hne).
Defined.

Lemma getIp_remote_address_witness :
  let request := Demo.get_request "/status" in
  (headers request !! "x-real-ip" = None ∨ headers request !! "x-real-ip" = Some "")
  ∧ (headers request !! "x-forwarded-for" = None
     ∨ headers request !! "x-forwarded-for" = Some "")
  ∧ run_awaited Demo.env (getIp request) Demo.empty_store
    = (Returned "192.0.2.1",
       extend 0 [EvHeader "x-real-ip"; EvHeader "x-forwarded-for"] Demo.empty_store).
Proof.
  intros request.
  assert (headers request !! "x-real-ip" = None
          ∨ headers request !! "x-real-ip" = Some "") as Hr.
  { left. reflexivity. }
  assert (headers request !! "x-forwarded-for" = None
          ∨ headers request !! "x-forwarded-for" = Some "") as Hf.
  { left. reflexivity. }
  split; [exact Hr|]. split; [exact Hf|].
  exact (getIp_remote_address Demo.env request Demo.empty_store Hr Hf).
Defined.

Lemma validateRequest_admits_iff_witness :
  let request := Demo.signed_post "/admin/mint" Demo.base_point in
  method request = "POST"
  ∧ lookup_endpoint Demo.endpoints (method request) (pathname request) = Some "mint"
  ∧ ((run_awaited Demo.env (validateRequest_reading true request tt Demo.endpoints)
        Demo.empty_store).1 = Returned (VBool true)
     ↔ true = true
       ∧ (∃ n, parseInt (headers request !! "content-length") = Int n
               ∧ n ≠ 0
               ∧ Z.of_nat (String.length (rawBody request)) <= n
                 <= MAX_CONTENT_LENGTH Demo.endpoints)
       ∧ headers request !! "content-type" ∈ Some <$> acceptedContentTypes
       ∧ ∃ publicKey signature key,
           headers request !! "x-public-key" = Some publicKey ∧ publicKey ≠ ""
           ∧ headers request !! "x-signature" = Some signature ∧ signature ≠ ""
           ∧ fromCompressedPublicKey publicKey = Some key
           ∧ hashAndVerify key (rawBody request) signature = Some true).
Proof.
  intros request. split; [reflexivity|]. split; [reflexivity|].
  exact (validateRequest_admits_iff Demo.env request tt Demo.endpoints Demo.empty_store
           "mint" true eq_refl eq_refl).
Defined.

Lemma validateRequest_content_type_witness :
  let request :=
    set_header "content-type" "text/plain"
      (Demo.signed_post "/admin/mint" Demo.base_point) in
  let out := run_awaited Demo.env (validateRequest_reading true request tt Demo.endpoints)
               Demo.empty_store in
  method request = "POST"
  ∧ lookup_endpoint Demo.endpoints (method request) (pathname request) = Some "mint"
  ∧ (responses (new_events Demo.empty_store out.2) = [(400, content_type_error)]
     ↔ true = true
       ∧ too_large request Demo.endpoints = false
       ∧ headers request !! "content-type" ≠ Some "application/json"
       ∧ headers request !! "content-type" ≠ Some "application/json; charset=utf-8").
Proof.
  intros request out. split; [reflexivity|]. split; [reflexivity|].
  exact (validateRequest_content_type Demo.env request tt Demo.endpoints
           Demo.empty_store "mint" true eq_refl eq_refl).
Defined.

Lemma validateRequest_401_reason_witness :
  let request :=
    set_header "x-signature" "" (Demo.signed_post "/admin/mint" Demo.base_point) in
  let out := run_awaited Demo.env (validateRequest request tt Demo.endpoints)
               Demo.empty_store in
  let publicKey := headers request !! "x-public-key" in
  let signature := headers request !! "x-signature" in
  statuses (new_events Demo.empty_store out.2) = [401]
  ∧ ∃ payload,
      responses (new_events Demo.empty_store out.2) = [(401, payload)]
      ∧ (payload = missing_headers_error ↔
         publicKey = None ∨ publicKey = Some ""
         ∨ signature = None ∨ signature = Some "")
      ∧ (payload = public_key_error ↔
         ∃ pk sg, publicKey = Some pk ∧ pk ≠ "" ∧ signature = Some sg ∧ sg ≠ ""
           ∧ (fromCompressedPublicKey pk = None
              ∨ ∃ key, fromCompressedPublicKey pk = Some key
                       ∧ hashAndVerify key (rawBody request) sg = None))
      ∧ (payload = signature_error ↔
         ∃ pk sg key, publicKey = Some pk ∧ pk ≠ "" ∧ signature = Some sg ∧ sg ≠ ""
           ∧ fromCompressedPublicKey pk = Some key
           ∧ hashAndVerify key (rawBody request) sg = Some false).
Proof.
  intros request out publicKey signature.
  assert (statuses (new_events Demo.empty_store out.2) = [401]) as Hst.
  { vm_compute. reflexivity. }
  split; [exact Hst|].
  exact (validateRequest_401_reason Demo.env request tt Demo.endpoints
           Demo.empty_store Hst).
Defined.

Lemma validateRequest_reads_body_first_witness :
  let request := Demo.signed_post "/admin/mint" Demo.base_point in
  let out := run_awaited Demo.env (validateRequest request tt Demo.endpoints)
               Demo.empty_store in
  method request = "POST"
  ∧ lookup_endpoint Demo.endpoints (method request) (pathname request) = Some "mint"
  ∧ take 2 (new_events Demo.empty_store out.2)
    = [(0%nat, EvHeader "content-length"); (0%nat, EvText)].
Proof.
  intros request out. split; [reflexivity|]. split; [reflexivity|].
  exact (validateRequest_reads_body_first Demo.env request tt Demo.endpoints
           Demo.empty_store "mint" eq_refl eq_refl).
Defined.

Lemma validateRequest_content_length_trailing_witness :
  let request := Demo.signed_post "/admin/mint" Demo.base_point in
  headers request !! "content-length" = Some "2"
  ∧ parseInt (Some "2") = Int 2
  ∧ digit_value ";" = None
  ∧ run_awaited Demo.env
      (validateRequest_reading true
         (set_header "content-length" ("2" +:+ String ";" " q=1") request)
         tt Demo.endpoints) Demo.empty_store
    = run_awaited Demo.env (validateRequest_reading true request tt Demo.endpoints)
        Demo.empty_store.
Proof.
  intros request. split; [reflexivity|]. split; [reflexivity|]. split; [reflexivity|].
  exact (validateRequest_content_length_trailing Demo.env request tt Demo.endpoints
           Demo.empty_store "2" ";" " q=1" 2 true eq_refl eq_refl eq_refl).
Defined.

Lemma checkAdminRequest_non_post_witness :
  let request := Demo.get_request "/nowhere" in
  let out := run Demo.env [1; 0]%nat (checkAdminRequest request tt Demo.endpoints)
               Demo.banned_store in
  method request ≠ "POST"
  ∧ out.1 = Returned (VBool true)
  ∧ events_of 0 (new_events Demo.banned_store out.2) = []
  ∧ bans out.2 = bans Demo.banned_store
  ∧ statuses (new_events Demo.banned_store out.2)
    = match lookup_endpoint Demo.endpoints (method request) (pathname request) with
      | None => [404]
      | Some _ => []
      end.
Proof.
  intros request out.
  assert (method request ≠ "POST") as Hm by discriminate.
  split; [exact Hm|].
  exact (checkAdminRequest_non_post Demo.env [1; 0]%nat request tt Demo.endpoints
           Demo.banned_store Hm).
Defined.

Lemma checkAdminRequest_other_addresses_witness :
  let request := Demo.signed_post "/admin/mint" Demo.other_point in
  let out := run Demo.env [0; 1]%nat (checkAdminRequest request tt Demo.endpoints)
               Demo.empty_store in
  "192.0.2.1" ≠ resolved_ip request
  ∧ bans out.2 !! "192.0.2.1" = bans Demo.empty_store !! "192.0.2.1"
  ∧ isBanned (now Demo.env) (bans out.2) "192.0.2.1"
    = isBanned (now Demo.env) (bans Demo.empty_store) "192.0.2.1".
Proof.
  intros request out.
  assert ("192.0.2.1" ≠ resolved_ip request) as Hip.
  { vm_compute. discriminate. }
  split; [exact Hip|].
  exact (checkAdminRequest_other_addresses Demo.env [0; 1]%nat request tt Demo.endpoints
           Demo.empty_store "192.0.2.1" Hip).
Defined.

Lemma checkAdminRequest_ignores_validation_witness :
  let request := Demo.signed_post "/admin/mint" Demo.other_point in
  let request' :=
    set_header "content-type" "text/plain" (Demo.signed_post "/nowhere" Demo.other_point) in
  let out := run Demo.env [0; 1]%nat (checkAdminRequest request tt Demo.endpoints)
               Demo.empty_store in
  let out' := run Demo.env [1; 1; 0]%nat (checkAdminRequest request' tt Demo.endpoints)
                Demo.empty_store in
  method request = method request'
  ∧ headers request !! "x-real-ip" = headers request' !! "x-real-ip"
  ∧ headers request !! "x-forwarded-for" = headers request' !! "x-forwarded-for"
  ∧ headers request !! "x-public-key" = headers request' !! "x-public-key"
  ∧ remoteAddress request = remoteAddress request'
  ∧ bans Demo.empty_store = bans Demo.empty_store
  ∧ (out.1 = Returned (VBool true) ↔ out'.1 = Returned (VBool true))
  ∧ bans out.2 = bans out'.2
  ∧ events_of 0 (new_events Demo.empty_store out.2)
    = events_of 0 (new_events Demo.empty_store out'.2).
Proof.
  intros request request' out out'.
  assert (headers request !! "x-real-ip" = headers request' !! "x-real-ip") as Hr.
  { vm_compute. reflexivity. }
  assert (headers request !! "x-forwarded-for" = headers request' !! "x-forwarded-for")
    as Hf.
  { vm_compute. reflexivity. }
  assert (headers request !! "x-public-key" = headers request' !! "x-public-key") as Hk.
  { vm_compute. reflexivity. }
  split; [reflexivity|]. split; [exact Hr|]. split; [exact Hf|]. split; [exact Hk|].
  split; [reflexivity|]. split; [reflexivity|].
  exact (checkAdminRequest_ignores_validation Demo.env [0; 1]%nat [1; 1; 0]%nat
           request request' tt Demo.endpoints Demo.endpoints Demo.empty_store
           Demo.empty_store eq_refl Hr Hf Hk eq_refl eq_refl).
Defined.

Lemma checkAdminRequest_admits_witness :
  let request := Demo.signed_post "/admin/mint" Demo.base_point in
  let out := run Demo.env [1; 0; 1]%nat (checkAdminRequest request tt Demo.endpoints)
               Demo.empty_store in
  method request = "POST"
  ∧ (run_awaited Demo.env (validateRequest request tt Demo.endpoints)
       Demo.empty_store).1 = Returned (VBool true)
  ∧ isBanned (now Demo.env) (bans Demo.empty_store) (resolved_ip request) = false
  ∧ headers request !! "x-public-key"
    = Some (toCompressedPublicKey (controlKey Demo.env))
  ∧ out.1 = Returned (VBool true)
  ∧ statuses (new_events Demo.empty_store out.2) = []
  ∧ bans out.2 = bans Demo.empty_store
  ∧ events_of 0 (new_events Demo.empty_store out.2)
    = (getIp_summary request).2
      ++ [EvIsBanned (resolved_ip request); EvGetPublicControlKey;
          EvHeader "x-public-key"].
Proof.
  intros request out.
  assert ((run_awaited Demo.env (validateRequest request tt Demo.endpoints)
             Demo.empty_store).1 = Returned (VBool true)) as Hvalid.
  { vm_compute. reflexivity. }
  assert (headers request !! "x-public-key"
          = Some (toCompressedPublicKey (controlKey Demo.env))) as Hk.
  { vm_compute. reflexivity. }
  split; [reflexivity|]. split; [exact Hvalid|]. split; [reflexivity|].
  split; [exact Hk|].
  exact (checkAdminRequest_admits Demo.env [1; 0; 1]%nat request tt Demo.endpoints
           Demo.empty_store eq_refl Hvalid eq_refl Hk).
Defined.

Lemma checkAdminRequest_true_is_no_verdict_witness :
  let request := Demo.get_request "/nowhere" in
  let out := run Demo.env [1; 0]%nat (checkAdminRequest request tt Demo.endpoints)
               Demo.empty_store in
  let awaited := run_awaited Demo.env (validateRequest request tt Demo.endpoints)
                   Demo.empty_store in
  out.1 = Returned (VBool true)
  ∧ events_of 1 (new_events Demo.empty_store out.2)
    = (new_events Demo.empty_store awaited.2).*2
  ∧ statuses (new_events Demo.empty_store out.2)
    = statuses (new_events Demo.empty_store awaited.2).
Proof.
  intros request out awaited.
  assert (out.1 = Returned (VBool true)) as Htrue.
  { vm_compute. reflexivity. }
  split; [exact Htrue|].
  exact (checkAdminRequest_true_is_no_verdict Demo.env [1; 0]%nat request tt
           Demo.endpoints Demo.empty_store Htrue).
Defined.

Lemma checkAdminRequest_admits_unvalidated_witness :
  let request := Demo.signed_post "/nowhere" Demo.base_point in
  let out := run Demo.env [0; 1; 0]%nat (checkAdminRequest request tt Demo.endpoints)
               Demo.empty_store in
  method request = "POST"
  ∧ lookup_endpoint Demo.endpoints (method request) (pathname request) = None
  ∧ isBanned (now Demo.env) (bans Demo.empty_store) (resolved_ip request) = false
  ∧ headers request !! "x-public-key"
    = Some (toCompressedPublicKey (controlKey Demo.env))
  ∧ out.1 = Returned (VBool true)
  ∧ statuses (new_events Demo.empty_store out.2) = [404].
Proof.
  intros request out.
  assert (headers request !! "x-public-key"
          = Some (toCompressedPublicKey (controlKey Demo.env))) as Hk.
  { vm_compute. reflexivity. }
  split; [reflexivity|]. split; [reflexivity|]. split; [reflexivity|].
  split; [exact Hk|].
  exact (checkAdminRequest_admits_unvalidated Demo.env [0; 1; 0]%nat request tt
           Demo.endpoints Demo.empty_store eq_refl eq_refl eq_refl Hk).
Defined.

Lemma checkAdminRequest_answers_twice_witness :
  let request := Demo.signed_post "/nowhere" Demo.other_point in
  let out := run Demo.env [1; 0]%nat (checkAdminRequest request tt Demo.endpoints)
               Demo.empty_store in
  method request = "POST"
  ∧ lookup_endpoint Demo.endpoints (method request) (pathname request) = None
  ∧ (isBanned (now Demo.env) (bans Demo.empty_store) (resolved_ip request) = true
     ∨ headers request !! "x-public-key"
       ≠ Some (toCompressedPublicKey (controlKey Demo.env)))
  ∧ statuses (new_events Demo.empty_store out.2) = [404; 401].
Proof.
  intros request out.
  assert (isBanned (now Demo.env) (bans Demo.empty_store) (resolved_ip request) = true
          ∨ headers request !! "x-public-key"
            ≠ Some (toCompressedPublicKey (controlKey Demo.env))) as Hrefused.
  { right. vm_compute. discriminate. }
  split; [reflexivity|]. split; [reflexivity|]. split; [exact Hrefused|].
  exact (checkAdminRequest_answers_twice Demo.env [1; 0]%nat request tt Demo.endpoints
           Demo.empty_store eq_refl eq_refl Hrefused).
Defined.

Lemma checkAdminRequest_ban_then_refused_witness :
  let request := Demo.signed_post "/admin/mint" Demo.other_point in
  let request' := Demo.signed_post "/admin/mint" Demo.base_point in
  let env' := at_time 1200 Demo.env in
  let out := run Demo.env [0; 1]%nat (checkAdminRequest request tt Demo.endpoints)
               Demo.empty_store in
  let out' := run env' [1; 0]%nat (checkAdminRequest request' tt Demo.endpoints) out.2 in
  is_random_draw (random Demo.env) = true
  ∧ method request = "POST"
  ∧ isBanned (now Demo.env) (bans Demo.empty_store) (resolved_ip request) = false
  ∧ headers request !! "x-public-key"
    ≠ Some (toCompressedPublicKey (controlKey Demo.env))
  ∧ method request' = "POST"
  ∧ resolved_ip request' = resolved_ip request
  ∧ now env' < now Demo.env + 300
  ∧ out'.1 ≠ Returned (VBool true)
  ∧ events_of 0 (new_events out.2 out'.2)
    = (getIp_summary request').2
      ++ [EvIsBanned (resolved_ip request'); EvSend 401 banned_error]
  ∧ bans out'.2 = bans out.2.
Proof.
  intros request request' env' out out'.
  assert (headers request !! "x-public-key"
          ≠ Some (toCompressedPublicKey (controlKey Demo.env))) as Hk.
  { vm_compute. discriminate. }
  assert (now env' < now Demo.env + 300) as Hnow by (simpl; lia).
  split; [reflexivity|]. split; [reflexivity|]. split; [reflexivity|].
  split; [exact Hk|]. split; [reflexivity|]. split; [reflexivity|].
  split; [exact Hnow|].
  exact (checkAdminRequest_ban_then_refused Demo.env env' [0; 1]%nat [1; 0]%nat
           request request' tt Demo.endpoints Demo.endpoints Demo.empty_store
           eq_refl eq_refl eq_refl Hk eq_refl eq_refl Hnow).
Defined.

Lemma checkAdminRequest_ban_expires_witness :
  let request := Demo.signed_post "/admin/mint" Demo.other_point in
  let request' := Demo.signed_post "/admin/mint" Demo.base_point in
  let env' := at_time 1330 Demo.env in
  let out := run Demo.env [0; 1]%nat (checkAdminRequest request tt Demo.endpoints)
               Demo.empty_store in
  let out' := run env' [1; 0]%nat (checkAdminRequest request' tt Demo.endpoints) out.2 in
  is_random_draw (random Demo.env) = true
  ∧ method request = "POST"
  ∧ isBanned (now Demo.env) (bans Demo.empty_store) (resolved_ip request) = false
  ∧ headers request !! "x-public-key"
    ≠ Some (toCompressedPublicKey (controlKey Demo.env))
  ∧ method request' = "POST"
  ∧ resolved_ip request' = resolved_ip request
  ∧ headers request' !! "x-public-key" = Some (toCompressedPublicKey (controlKey env'))
  ∧ now Demo.env + 330 <= now env'
  ∧ isBanned (now env') (bans out.2) (resolved_ip request') = false
  ∧ out'.1 = Returned (VBool true)
  ∧ bans out'.2 = bans out.2.
Proof.
  intros request request' env' out out'.
  assert (headers request !! "x-public-key"
          ≠ Some (toCompressedPublicKey (controlKey Demo.env))) as Hk.
  { vm_compute. discriminate. }
  assert (headers request' !! "x-public-key"
          = Some (toCompressedPublicKey (controlKey env'))) as Hk'.
  { vm_compute. reflexivity. }
  assert (now Demo.env + 330 <= now env') as Hnow by (simpl; lia).
  split; [reflexivity|]. split; [reflexivity|]. split; [reflexivity|].
  split; [exact Hk|]. split; [reflexivity|]. split; [reflexivity|].
  split; [exact Hk'|]. split; [exact Hnow|].
  exact (checkAdminRequest_ban_expires Demo.env env' [0; 1]%nat [1; 0]%nat
           request request' tt Demo.endpoints Demo.endpoints Demo.empty_store
           eq_refl eq_refl eq_refl Hk eq_refl eq_refl Hk' Hnow).
Defined.

Lemma ban_seconds_attained_witness :
  0 <= 30 <= 30
  ∧ ∃ r, is_random_draw r = true ∧ ban_seconds r = Int (300 + 30).
Proof.
  assert (0 <= 30 <= 30) as Hj by lia.
  split; [exact Hj|]. exact (ban_seconds_attained 30 Hj).
Defined.
